(** * camofox-browser: session/tab manager, reference resolver, snapshot window

    A shallow embedding of the parts of [server.js] and [lib/snapshot.js]
    that carry the invariants of the specification, with the properties of
    the specification stated and settled against that embedding.

    Conventions.
    - A JavaScript string is the list of its UTF-16 code units ([jstring]).
    - A JavaScript [Map] whose iteration order is observable (tab groups,
      groups, reference tables) is an insertion-ordered association list
      ([JsMap]); the [sessions] registry, which is only read by key, is a
      [gmap].
    - Calls into the browser engine are outcomes supplied by an environment
      record, one per request. *)

From Stdlib Require Import ZArith NArith Lia Bool String Ascii.
From Stdlib Require Import DecimalFacts DecimalPos DecimalN.
From stdpp Require Import base option list gmap.

Local Open Scope Z_scope.

(** ** JavaScript strings *)

Module Js.

(** One UTF-16 code unit. *)
Definition char : Type := N.
Definition jstring : Type := list char.

(** A string literal of the source, as code units (ASCII only). *)
Definition lit (s : string) : jstring :=
  List.map N_of_ascii (list_ascii_of_string s).

(** A literal in which each backquote stands for a double quote. *)
Definition litq (s : string) : jstring :=
  List.map (fun c => if N.eqb c 96 then 34%N else c) (lit s).

(** [s.length]. *)
Definition len {A : Type} (s : list A) : Z := Z.of_nat (length s).

(** [s.slice(a, b)] of a string or an array, for integral [a], [b]: negative
    indices count from the end, both ends are clamped into [0, s.length]. *)
Definition slice_index (n i : Z) : Z :=
  if i <? 0 then Z.max (n + i) 0 else Z.min i n.

Definition slice {A : Type} (s : list A) (a b : Z) : list A :=
  let from := slice_index (len s) a in
  let to := slice_index (len s) b in
  take (Z.to_nat (to - from)) (drop (Z.to_nat from) s).

(** [s.slice(a)]. *)
Definition slice_from {A : Type} (s : list A) (a : Z) : list A :=
  slice s a (len s).

(** Decimal numeral of a natural number, as produced by template
    interpolation of a non-negative integer. *)
Fixpoint uint_chars (d : Decimal.uint) : jstring :=
  match d with
  | Decimal.Nil => []
  | Decimal.D0 d => 48%N :: uint_chars d
  | Decimal.D1 d => 49%N :: uint_chars d
  | Decimal.D2 d => 50%N :: uint_chars d
  | Decimal.D3 d => 51%N :: uint_chars d
  | Decimal.D4 d => 52%N :: uint_chars d
  | Decimal.D5 d => 53%N :: uint_chars d
  | Decimal.D6 d => 54%N :: uint_chars d
  | Decimal.D7 d => 55%N :: uint_chars d
  | Decimal.D8 d => 56%N :: uint_chars d
  | Decimal.D9 d => 57%N :: uint_chars d
  end.

Definition nat_chars (n : N) : jstring := uint_chars (N.to_uint n).

(** Template interpolation of an integer. *)
Definition int_chars (z : Z) : jstring :=
  if z <? 0 then 45%N :: nat_chars (Z.to_N (- z)) else nat_chars (Z.to_N z).

End Js.

Import Js.

(** ** JavaScript [Map]: insertion-ordered, keys compared by value *)

Module JsMap.
Section JsMap.
Context {K V : Type} `{EqDecision K}.

Definition t : Type := list (K * V).

Definition empty : t := [].

(** [m.get(k)]; [None] is [undefined]. *)
Fixpoint get (k : K) (m : t) : option V :=
  match m with
  | [] => None
  | (k', v) :: m' => if decide (k' = k) then Some v else get k m'
  end.

(** [m.has(k)]. *)
Definition has (k : K) (m : t) : bool :=
  match get k m with Some _ => true | None => false end.

(** [m.set(k, v)]: an existing key keeps its place, a new key goes last. *)
Fixpoint set (k : K) (v : V) (m : t) : t :=
  match m with
  | [] => [(k, v)]
  | (k', v') :: m' =>
      if decide (k' = k) then (k, v) :: m' else (k', v') :: set k v m'
  end.

(** [m.delete(k)]. *)
Fixpoint delete (k : K) (m : t) : t :=
  match m with
  | [] => []
  | (k', v') :: m' =>
      if decide (k' = k) then m' else (k', v') :: delete k m'
  end.

(** [m.size]. *)
Definition size (m : t) : Z := Z.of_nat (length m).

(** [m.values()], in iteration order. *)
Definition values (m : t) : list V := List.map snd m.

Definition keys (m : t) : list K := List.map fst m.
End JsMap.
Arguments t : clear implicits.
End JsMap.

(** ** lib/snapshot.js: snapshot windowing *)

Module Snapshot.

Definition MAX_SNAPSHOT_CHARS : Z := 80000.
Definition SNAPSHOT_TAIL_CHARS : Z := 5000.

(** The object returned by [windowSnapshot].  The short-text result has no
    [hasMore] and no [nextOffset] property ([None]); [nextOffset] is also
    [None] where the source stores [null]. *)
Record window : Type := Window {
  text : jstring;
  truncated : bool;
  totalChars : Z;
  offset : Z;
  hasMore : option bool;
  nextOffset : option Z
}.

Definition contentBudget : Z :=
  MAX_SNAPSHOT_CHARS - SNAPSHOT_TAIL_CHARS - 200.

(** [yaml.slice(-SNAPSHOT_TAIL_CHARS)]. *)
Definition tailOf (yaml : jstring) : jstring :=
  slice_from yaml (- SNAPSHOT_TAIL_CHARS).

(** [Math.min(Math.max(0, offset), total - SNAPSHOT_TAIL_CHARS)]. *)
Definition clampOffset (total off : Z) : Z :=
  Z.min (Z.max 0 off) (total - SNAPSHOT_TAIL_CHARS).

(** [yaml.slice(clampedOffset, clampedOffset + contentBudget)]. *)
Definition chunkAt (yaml : jstring) (clamped : Z) : jstring :=
  slice yaml clamped (clamped + contentBudget).

Definition marker (more : bool) (chunkEnd total : Z) : jstring :=
  if more then
    lit (String "010" "[... truncated at char ") ++ int_chars chunkEnd
      ++ lit " of " ++ int_chars total
      ++ lit ". Call snapshot with offset=" ++ int_chars chunkEnd
      ++ lit (" to see more. Pagination links below. ...]" ++ String "010" "")
  else lit (String "010" "").

(** [windowSnapshot(yaml, offset)]; [None] stands for a [null] or
    [undefined] first argument. *)
Definition windowSnapshot (yaml : option jstring) (off : Z) : window :=
  match yaml with
  | None | Some [] => Window [] false 0 0 None None
  | Some y =>
      let total := len y in
      if total <=? MAX_SNAPSHOT_CHARS then Window y false total 0 None None
      else
        let tail := tailOf y in
        let clampedOffset := clampOffset total off in
        let chunk := chunkAt y clampedOffset in
        let chunkEnd := clampedOffset + contentBudget in
        let more := chunkEnd <? total - SNAPSHOT_TAIL_CHARS in
        Window (chunk ++ marker more chunkEnd total ++ tail) true total
          clampedOffset (Some more) (if more then Some chunkEnd else None)
  end.

(** The client loop of the windowing protocol: start at an offset, feed
    [nextOffset] back while [hasMore] is true.  [None] when the fuel runs
    out before [hasMore] turns false. *)
Fixpoint iterate (fuel : nat) (yaml : jstring) (off : Z) : option (list window) :=
  match fuel with
  | O => None
  | S fuel' =>
      let r := windowSnapshot (Some yaml) off in
      match hasMore r, nextOffset r with
      | Some true, Some next =>
          match iterate fuel' yaml next with
          | Some rs => Some (r :: rs)
          | None => None
          end
      | _, _ => Some [r]
      end
  end.

(** The slice of the input at the offset a window reports: at most
    [contentBudget] characters from there.  Whether a window holds that
    slice is what [carriesSlice] says. *)
Definition contentOf (yaml : jstring) (w : window) : jstring :=
  chunkAt yaml (offset w).

(** The text of a returned window is its content slice, then the marker
    that goes with its [hasMore], then the tail of the input. *)
Definition carriesSlice (yaml : jstring) (w : window) : Prop :=
  text w
    = contentOf yaml w
        ++ marker (bool_decide (hasMore w = Some true))
             (offset w + contentBudget) (len yaml)
        ++ tailOf yaml.

(** A returned chunk ends with the fixed tail of the text. *)
Definition includesTail (yaml : jstring) (w : window) : Prop :=
  exists head, text w = head ++ tailOf yaml.

(** The offsets of the returned windows are where the preceding content
    slices end: slice [i] starts exactly after slices [0 .. i-1]. *)
Definition contiguousFrom (yaml : jstring) (start : Z) (ws : list window) : Prop :=
  forall (i : nat) (w : window),
    ws !! i = Some w ->
    offset w = start + len (concat (List.map (contentOf yaml) (take i ws))).

(** The iteration from offset 0 ends, its content slices put end to end are
    the whole text, and every chunk carries the tail. *)
Definition coversWholeText (yaml : jstring) : Prop :=
  exists (fuel : nat) (ws : list window),
    iterate fuel yaml 0 = Some ws /\
    concat (List.map (contentOf yaml) ws) = yaml /\
    Forall (includesTail yaml) ws.

End Snapshot.

(** ** server.js: the reference resolver *)

Module Refs.

Definition MAX_SNAPSHOT_NODES : Z := 500.

Definition INTERACTIVE_ROLES : list jstring :=
  List.map lit
    ["button"; "link"; "textbox"; "checkbox"; "radio"; "menuitem"; "tab";
     "searchbox"; "slider"; "spinbutton"; "switch"]%string.

(** The sources of [/date/i, /calendar/i, /picker/i, /datepicker/i]. *)
Definition SKIP_PATTERNS : list jstring :=
  List.map lit ["date"; "calendar"; "picker"; "datepicker"]%string.

(** *** Character classes of the regular expressions *)

Definition inRange (lo hi c : char) : bool := (N.leb lo c && N.leb c hi)%bool.
Arguments inRange (lo hi c)%_N.

(** [\s]: white space and line terminators of ECMAScript. *)
Definition isSpace (c : char) : bool :=
  (inRange 9 13 c || N.eqb c 32 || N.eqb c 160 || N.eqb c 5760
   || inRange 8192 8202 c || N.eqb c 8232 || N.eqb c 8233 || N.eqb c 8239
   || N.eqb c 8287 || N.eqb c 12288 || N.eqb c 65279)%bool.

(** [\w]: [A-Za-z0-9_]. *)
Definition isWord (c : char) : bool :=
  (inRange 65 90 c || inRange 97 122 c || inRange 48 57 c || N.eqb c 95)%bool.

(** The characters [.] does not match: LF, CR, U+2028, U+2029. *)
Definition isLineTerminator (c : char) : bool :=
  (N.eqb c 10 || N.eqb c 13 || N.eqb c 8232 || N.eqb c 8233)%bool.

Definition isQuote (c : char) : bool := N.eqb c 34.

Definition isDash (c : char) : bool := N.eqb c 45.

Definition nonEmpty (s : jstring) : bool :=
  match s with [] => false | _ :: _ => true end.

(** [role.toLowerCase()] on a [\w+] match: only A-Z change. *)
Definition toLowerCase (s : jstring) : jstring :=
  List.map (fun c => if inRange 65 90 c then (c + 32)%N else c) s.

(** Canonicalization of a code unit under the [i] flag (no [u] flag): an
    ASCII letter goes to upper case; a code unit from 128 on never
    canonicalizes to an ASCII letter, so it is left as it is. *)
Definition canonicalize (c : char) : char :=
  if inRange 97 122 c then (c - 32)%N else c.

Fixpoint startsWithIgnoreCase (pat s : jstring) : bool :=
  match pat, s with
  | [], _ => true
  | _ :: _, [] => false
  | p :: pat', c :: s' =>
      (N.eqb (canonicalize p) (canonicalize c) && startsWithIgnoreCase pat' s')%bool
  end.

(** [/pat/i.test(s)] for a pattern made of literal characters. *)
Fixpoint testIgnoreCase (pat s : jstring) : bool :=
  match s with
  | [] => startsWithIgnoreCase pat []
  | _ :: s' => (startsWithIgnoreCase pat s || testIgnoreCase pat s')%bool
  end.

(** [name && SKIP_PATTERNS.some(p => p.test(name))]; an absent and an
    empty name are both falsy. *)
Definition nameIsSkipped (name : option jstring) : bool :=
  match name with
  | None | Some [] => false
  | Some n => existsb (fun p => testIgnoreCase p n) SKIP_PATTERNS
  end.

(** The longest prefix of characters in a class, and what follows it. *)
Fixpoint span (p : char -> bool) (s : jstring) : jstring * jstring :=
  match s with
  | [] => ([], [])
  | c :: s' =>
      if p c then let '(a, b) := span p s' in (c :: a, b) else ([], s)
  end.

(** [s.split('\n')]. *)
Fixpoint splitLines (s : jstring) : list jstring :=
  match s with
  | [] => [[]]
  | c :: s' =>
      if N.eqb c 10 then [] :: splitLines s'
      else match splitLines s' with
           | [] => [[c]]
           | l :: ls => (c :: l) :: ls
           end
  end.

(** [lines.join('\n')]. *)
Fixpoint joinLines (ls : list jstring) : jstring :=
  match ls with
  | [] => []
  | [l] => l
  | l :: ls' => l ++ 10%N :: joinLines ls'
  end.

(** *** The node pattern

    The three passes match a line against a pattern that starts alike.  In
    free-spacing notation, with Q for the double quote:

      build, alias:   ^ \s* - \s+ ( \w+ ) (?: \s+ Q ( [^Q]* ) Q )?
      annotate:       ^ ( \s* - \s+ ) ( \w+ ) ( \s+ Q ( [^Q]* ) Q )? ( .* ) $

    Each quantified class is followed by a character outside the class, so
    the greedy choice is the only one that can match: the leading white
    space must stop at the dash, the white space after the dash at the first
    word character, the role is not shortened because nothing after it is
    mandatory, and the optional name group needs its white space right after
    the role and its closing quote at the first quote after the opening
    one. *)
Record nodeMatch : Type := NodeMatch {
  m_prefix : jstring;
  m_role : jstring;
  m_nameMatch : option jstring;
  m_name : option jstring;
  m_afterRole : jstring;
  m_suffix : jstring
}.

(** [m_prefix] is the indentation, the dash and the white space after it;
    [m_role] the word; [m_nameMatch] the white space and the quoted name,
    [m_name] the name between the quotes, both [None] when the name group
    did not match; [m_afterRole] the line after the role; [m_suffix] the
    line after the whole match. *)
Definition matchNode (line : jstring) : option nodeMatch :=
  let '(indent, r0) := span isSpace line in
  match r0 with
  | dash :: r1 =>
      let '(gap, r2) := span isSpace r1 in
      let '(role, r3) := span isWord r2 in
      if (isDash dash && nonEmpty gap && nonEmpty role)%bool then
        let prefix := indent ++ dash :: gap in
        let plain := NodeMatch prefix role None None r3 r3 in
        let '(gap2, r4) := span isSpace r3 in
        match r4 with
        | opening :: r5 =>
            let '(name, r6) := span (fun c => negb (isQuote c)) r5 in
            match r6 with
            | closing :: r7 =>
                if (nonEmpty gap2 && isQuote opening)%bool then
                  Some (NodeMatch prefix role
                          (Some (gap2 ++ opening :: name ++ [closing]))
                          (Some name) r3 r7)
                else Some plain
            | [] => Some plain
            end
        | [] => Some plain
        end
      else None
  | [] => None
  end.

(** The pattern of the build pass and of the alias route: [line.match] with
    the first pattern above. *)
Definition matchBuild (line : jstring) : option nodeMatch := matchNode line.

(** The pattern of the annotate pass: the same node, and the last group must
    take the line to its end, which it can unless a line terminator is left
    (the dot matches none).  Giving up the name group or a part of the role
    only makes what the last group has to take longer. *)
Definition matchAnnotate (line : jstring) : option nodeMatch :=
  match matchNode line with
  | Some m => if existsb isLineTerminator (m_suffix m) then None else Some m
  | None => None
  end.

(** *** The reference table *)

Record refInfo : Type := RefInfo {
  role : jstring;
  name : jstring;
  nth : Z
}.

#[export] Instance refInfo_eq_dec : EqDecision refInfo.
Proof. solve_decision. Defined.

(** [tabState.refs]: refId -> {role, name, nth}. *)
Definition refTable : Type := JsMap.t jstring refInfo.

Definition colon : jstring := lit ":".

Definition includes (xs : list jstring) (x : jstring) : bool :=
  existsb (fun y => bool_decide (y = x)) xs.

(** The loop of [buildRefs] over the lines of the snapshot. *)
Fixpoint buildLoop (lines : list jstring) (refCounter : Z)
    (seenCounts : JsMap.t jstring Z) (refs : refTable) : refTable :=
  match lines with
  | [] => refs
  | line :: rest =>
      if refCounter >? MAX_SNAPSHOT_NODES then refs
      else
        match matchBuild line with
        | Some m =>
            let normalizedRole := toLowerCase (m_role m) in
            if bool_decide (normalizedRole = lit "combobox") then
              buildLoop rest refCounter seenCounts refs
            else if nameIsSkipped (m_name m) then
              buildLoop rest refCounter seenCounts refs
            else if includes INTERACTIVE_ROLES normalizedRole then
              let normalizedName := default [] (m_name m) in
              let key := normalizedRole ++ colon ++ normalizedName in
              let nth := default 0 (JsMap.get key seenCounts) in
              let seenCounts' := JsMap.set key (nth + 1) seenCounts in
              let refId := lit "e" ++ int_chars refCounter in
              buildLoop rest (refCounter + 1) seenCounts'
                (JsMap.set refId (RefInfo normalizedRole normalizedName nth) refs)
            else buildLoop rest refCounter seenCounts refs
        | None => buildLoop rest refCounter seenCounts refs
        end
  end.

(** [buildRefs] once the snapshot text is there; an absent or empty text
    gives the empty table. *)
Definition buildRefsFrom (ariaYaml : option jstring) : refTable :=
  match ariaYaml with
  | None | Some [] => JsMap.empty
  | Some y => buildLoop (splitLines y) 1 JsMap.empty JsMap.empty
  end.

(** *** The annotate pass of GET /tabs/:tabId/snapshot *)

(** [refsByKey]: role:name:nth -> refId. *)
Definition refsByKeyMain (refs : refTable) : JsMap.t jstring jstring :=
  fold_left
    (fun acc '(refId, info) =>
       JsMap.set (role info ++ colon ++ name info ++ colon ++ int_chars (nth info))
         refId acc)
    refs JsMap.empty.

(** The callback of [lines.map], with [annotationCounts] threaded through;
    [if (refId)] holds for a reference that is there and not empty. *)
Definition annotateLineMain (refsByKey : JsMap.t jstring jstring)
    (annotationCounts : JsMap.t jstring Z) (line : jstring)
    : jstring * JsMap.t jstring Z :=
  match matchAnnotate line with
  | Some m =>
      let normalizedRole := toLowerCase (m_role m) in
      if bool_decide (normalizedRole = lit "combobox") then (line, annotationCounts)
      else if nameIsSkipped (m_name m) then (line, annotationCounts)
      else if includes INTERACTIVE_ROLES normalizedRole then
        let normalizedName := default [] (m_name m) in
        let countKey := normalizedRole ++ colon ++ normalizedName in
        let nth := default 0 (JsMap.get countKey annotationCounts) in
        let annotationCounts' := JsMap.set countKey (nth + 1) annotationCounts in
        let key := normalizedRole ++ colon ++ normalizedName ++ colon ++ int_chars nth in
        match JsMap.get key refsByKey with
        | Some refId =>
            if nonEmpty refId then
              (m_prefix m ++ m_role m ++ default [] (m_nameMatch m)
                 ++ lit " [" ++ refId ++ lit "]" ++ m_suffix m,
               annotationCounts')
            else (line, annotationCounts')
        | None => (line, annotationCounts')
        end
      else (line, annotationCounts)
  | None => (line, annotationCounts)
  end.

Fixpoint annotateLinesMain (refsByKey : JsMap.t jstring jstring)
    (annotationCounts : JsMap.t jstring Z) (lines : list jstring) : list jstring :=
  match lines with
  | [] => []
  | line :: rest =>
      let '(line', counts') := annotateLineMain refsByKey annotationCounts line in
      line' :: annotateLinesMain refsByKey counts' rest
  end.

Definition annotateMain (refs : refTable) (ariaYaml : option jstring) : jstring :=
  let annotatedYaml := default [] ariaYaml in
  match annotatedYaml with
  | [] => annotatedYaml
  | _ :: _ =>
      if JsMap.size refs >? 0 then
        joinLines
          (annotateLinesMain (refsByKeyMain refs) JsMap.empty (splitLines annotatedYaml))
      else annotatedYaml
  end.

(** *** The annotate pass of GET /snapshot (the alias route) *)

(** [refsByKey]: role:name -> the first refId with that role and name. *)
Definition refsByKeyAlias (refs : refTable) : JsMap.t jstring jstring :=
  fold_left
    (fun acc '(refId, el) =>
       let key := role el ++ colon ++ name el in
       if JsMap.has key acc then acc else JsMap.set key refId acc)
    refs JsMap.empty.

(** The callback of [lines.map]; [line.replace] with the pattern
    [^ ( \s* - \s+ \w+ )] and the replacement [$1 [refId]] puts the reference
    right after the role. *)
Definition annotateLineAlias (refsByKey : JsMap.t jstring jstring)
    (line : jstring) : jstring :=
  match matchBuild line with
  | Some m =>
      let key := m_role m ++ colon ++ default [] (m_name m) in
      match JsMap.get key refsByKey with
      | Some refId =>
          if nonEmpty refId then
            m_prefix m ++ m_role m ++ lit " [" ++ refId ++ lit "]" ++ m_afterRole m
          else line
      | None => line
      end
  | None => line
  end.

Definition annotateAlias (refs : refTable) (ariaYaml : option jstring) : jstring :=
  let annotatedYaml := default [] ariaYaml in
  match annotatedYaml with
  | [] => annotatedYaml
  | _ :: _ =>
      if JsMap.size refs >? 0 then
        joinLines (List.map (annotateLineAlias (refsByKeyAlias refs))
                     (splitLines annotatedYaml))
      else annotatedYaml
  end.

(** The snapshot text returned by each route when the engine gives the same
    tree text to the build pass and to the annotate pass. *)
Definition snapshotMain (ariaYaml : jstring) : jstring :=
  annotateMain (buildRefsFrom (Some ariaYaml)) (Some ariaYaml).

Definition snapshotAlias (ariaYaml : jstring) : jstring :=
  annotateAlias (buildRefsFrom (Some ariaYaml)) (Some ariaYaml).

End Refs.

(** ** server.js: the per-tab lock

    [withTabLock] is an async function, so its behaviour is that of the
    JavaScript job queue: a call runs until its first [await] that has to
    wait; when a promise settles, the continuations that await it are run
    one after the other, in the order in which they started to await, each to
    its next [await], before any new request is taken.  The model keeps the
    [tabLocks] map, for each promise the continuations awaiting it, and the
    trace of operations begun and settled.  The promise returned by the
    operation of a call is named by the number of the call. *)

Module TabLock.

(** A continuation of [withTabLock] suspended at an [await]. *)
Inductive continuation : Type :=
  | AfterPending (call : nat) (tabId : jstring)
      (* suspended at [await pending]: goes on with [operation()] *)
  | AfterOwn (call : nat) (tabId : jstring).
      (* suspended at [await promise]: goes on with the [finally] block *)

Inductive promiseState : Type :=
  | Pending (awaiting : list continuation)
  | Settled (fulfilled : bool).

Inductive traceEvent : Type :=
  | Begin (call : nat) (tabId : jstring)
  | Settle (call : nat) (fulfilled : bool).

Record state : Type := State {
  tabLocks : gmap jstring nat;
  promises : gmap nat promiseState;
  trace : list traceEvent
}.

Definition init : state := State ∅ ∅ [].

(** [const promise = operation(); tabLocks.set(tabId, promise);] and then
    [await promise]. *)
Definition startOperation (call : nat) (tabId : jstring) (st : state) : state :=
  State (<[tabId := call]> (tabLocks st))
        (<[call := Pending [AfterOwn call tabId]]> (promises st))
        (trace st ++ [Begin call tabId]).

(** A call of [withTabLock(tabId, operation)], up to its first [await] that
    has to wait. *)
Definition withTabLock (call : nat) (tabId : jstring) (st : state) : state :=
  match tabLocks st !! tabId with
  | Some pending =>
      match promises st !! pending with
      | Some (Pending awaiting) =>
          State (tabLocks st)
                (<[pending := Pending (awaiting ++ [AfterPending call tabId])]>
                   (promises st))
                (trace st)
      | _ => startOperation call tabId st
      end
  | None => startOperation call tabId st
  end.

(** The [finally] block: [if (tabLocks.get(tabId) === promise)
    tabLocks.delete(tabId)]. *)
Definition cleanUp (call : nat) (tabId : jstring) (st : state) : state :=
  match tabLocks st !! tabId with
  | Some current =>
      if decide (current = call)
      then State (delete tabId (tabLocks st)) (promises st) (trace st)
      else st
  | None => st
  end.

Definition resume (st : state) (k : continuation) : state :=
  match k with
  | AfterPending call tabId => startOperation call tabId st
  | AfterOwn call tabId => cleanUp call tabId st
  end.

(** The operation of a call returns or throws: its promise settles and the
    continuations awaiting it run in order. *)
Definition settle (call : nat) (fulfilled : bool) (st : state) : state :=
  match promises st !! call with
  | Some (Pending awaiting) =>
      fold_left resume awaiting
        (State (tabLocks st) (<[call := Settled fulfilled]> (promises st))
               (trace st ++ [Settle call fulfilled]))
  | _ => st
  end.

(** What happens to the server: a request handler calls [withTabLock], or
    the engine work of a running operation ends. *)
Inductive event : Type :=
  | Submit (call : nat) (tabId : jstring)
  | Finish (call : nat) (fulfilled : bool).

Definition step (st : state) (e : event) : state :=
  match e with
  | Submit call tabId => withTabLock call tabId st
  | Finish call fulfilled => settle call fulfilled st
  end.

Definition run (es : list event) : state := fold_left step es init.

(** One at a time: no operation begins on a tab while another operation on
    that tab has begun and not settled. *)
Fixpoint oneAtATime (running : list (nat * jstring)) (tr : list traceEvent) : bool :=
  match tr with
  | [] => true
  | Begin call tabId :: tr' =>
      (forallb (fun r => negb (bool_decide (snd r = tabId))) running
       && oneAtATime ((call, tabId) :: running) tr')%bool
  | Settle call _ :: tr' =>
      oneAtATime (List.filter (fun r => negb (Nat.eqb (fst r) call)) running) tr'
  end.

End TabLock.

(** ** server.js: sessions, tab groups, tabs and the request handlers

    A request is handled from its first statement to its response as one
    step on the server state; the interleaving of handlers at their [await]s
    is the subject of [TabLock].  Every call into the engine, the clock and
    the random source is answered by the environment of the request. *)

Module Server.
Import Refs.

(** *** Values of request fields *)

(** A field of a JSON body or of a query string: absent, [null], a boolean,
    a number or a string.  The server only tests a number for truthiness,
    turns it into a string and uses it as a [Map] key; for all three the
    number is known by its [String()] form, which is what [JNum] holds. *)
Inductive jsval : Type :=
  | JUndefined
  | JNull
  | JBool (b : bool)
  | JNum (repr : jstring)
  | JStr (s : jstring).

#[export] Instance jsval_eq_dec : EqDecision jsval.
Proof. solve_decision. Defined.

(** Truthiness: [undefined], [null], [false], [0], [-0], [NaN] and the empty
    string are falsy. *)
Definition truthy (v : jsval) : bool :=
  match v with
  | JUndefined | JNull => false
  | JBool b => b
  | JNum r => (negb (bool_decide (r = lit "0")) && negb (bool_decide (r = lit "NaN")))%bool
  | JStr s => negb (bool_decide (s = []))
  end.

(** [String(v)]. *)
Definition toStr (v : jsval) : jstring :=
  match v with
  | JUndefined => lit "undefined"
  | JNull => lit "null"
  | JBool true => lit "true"
  | JBool false => lit "false"
  | JNum r => r
  | JStr s => s
  end.

(** [a || b]. *)
Definition orElse (a b : jsval) : jsval := if truthy a then a else b.

(** *** Constants *)

Definition MAX_SESSIONS : Z := 50.
Definition MAX_TABS_PER_SESSION : Z := 10.
Definition ALLOWED_URL_SCHEMES : list jstring := [lit "http:"; lit "https:"].

(** *** State *)

(** TabState = { page, refs, visitedUrls, toolCalls }; [visitedUrls] is a
    [Set], kept in insertion order. *)
Record TabState : Type := mkTabState {
  page : nat;
  refs : refTable;
  visitedUrls : list jsval;
  toolCalls : Z
}.

(** A tab group: tabId -> TabState. *)
Definition Group : Type := JsMap.t jstring TabState.

(** A session: { context, tabGroups, lastAccess }. *)
Record Session : Type := mkSession {
  context : nat;
  tabGroups : JsMap.t jsval Group;
  lastAccess : Z
}.

(** The [sessions] registry, and the pages the engine has been asked to
    open with [context.newPage()], latest first. *)
Record ServerState : Type := mkServerState {
  sessions : gmap jstring Session;
  pagesCreated : list nat
}.

Definition emptyServer : ServerState := mkServerState ∅ [].

(** *** The environment of a request *)

Inductive outcome (A : Type) : Type :=
  | Returns (a : A)
  | Throws (message : jstring).
Arguments Returns {A} a.
Arguments Throws {A} message.

Record Env : Type := mkEnv {
  now : Z;                                   (* Date.now() *)
  production : bool;                         (* NODE_ENV === 'production' *)
  urlProtocol : jstring -> option jstring;   (* new URL(s).protocol; None: it throws *)
  expandMacro : jsval -> jsval -> option jstring;  (* lib/macros.js; None: null *)
  newContext : outcome nat;                  (* ensureBrowser(), browser.newContext() *)
  newPage : outcome nat;                     (* context.newPage() *)
  randomUUID : jstring;                      (* crypto.randomUUID() *)
  engine : outcome unit;                     (* the page action of the route *)
  pageClosed : bool;                         (* page.isClosed() in buildRefs *)
  ariaSnapshot : outcome (option jstring);   (* the tree text read by buildRefs *)
  ariaSnapshotAgain : outcome (option jstring);  (* getAriaSnapshot(page) *)
  pageReady : bool;                          (* waitForPageReady(page) *)
  pageUrl : nat -> jstring;                  (* page.url() *)
  pageTitle : nat -> jstring;                (* page.title(), '' when it fails *)
  pageLinks : list (jstring * jstring);      (* the links read by page.evaluate *)
  closePage : outcome unit;                  (* page.close() *)
  closeContext : outcome unit                (* context.close() *)
}.

(** *** Responses *)

Inductive body : Type :=
  | Error (message : jstring)
  | Created (tabId url : jstring)
  | OkUrl (url : jstring)
  | Ok
  | OkReady (ready : bool)
  | SnapshotBody (url snapshot : jstring) (refsCount : Z)
  | LinksBody (links : list (jstring * jstring)) (total offset limit : Z) (more : bool)
  | Png
  | StatsBody (tabId : jstring) (listItemId : jsval) (url : jstring)
      (visited : list jsval) (calls refsCount : Z)
  | TabsBody (tabs : list (jstring * jstring * jstring * jsval))
  | Opened (tabId url title : jstring)
  | OkTarget (targetId : jsval) (url : option jstring)
  | AliasSnapshotBody (targetId : jsval) (url snapshot : jstring) (refsCount : Z).

Record response : Type := mkResponse {
  status : Z;
  payload : body
}.

Definition ok (b : body) : response := mkResponse 200 b.
Definition badRequest (message : jstring) : response := mkResponse 400 (Error message).
Definition tabNotFound : response := mkResponse 404 (Error (lit "Tab not found")).
Definition tooManyTabs : response :=
  mkResponse 429 (Error (lit "Maximum tabs per session reached")).

Section Handlers.
Variable env : Env.

(** [safeError(err)]. *)
Definition safeError (message : jstring) : jstring :=
  if production env then lit "Internal server error" else message.

(** The [catch] block of a route. *)
Definition failed (message : jstring) : response :=
  mkResponse 500 (Error (safeError message)).

(** [validateUrl(url)]: [None] when the URL is allowed, else the message. *)
Definition validateUrl (url : jsval) : option jstring :=
  match urlProtocol env (toStr url) with
  | Some protocol =>
      if includes ALLOWED_URL_SCHEMES protocol then None
      else Some (lit "Blocked URL scheme: " ++ protocol
                   ++ lit " (only http/https allowed)")
  | None => Some (lit "Invalid URL: " ++ toStr url)
  end.

Definition normalizeUserId (userId : jsval) : jstring := toStr userId.

(** [getSession(userId)]: the session, created when absent, with its
    [lastAccess] refreshed; the registry after the call. *)
Definition getSession (userId : jsval) (st : ServerState)
    : outcome Session * ServerState :=
  let key := normalizeUserId userId in
  match sessions st !! key with
  | Some session =>
      let session' := mkSession (context session) (tabGroups session) (now env) in
      (Returns session', mkServerState (<[key := session']> (sessions st)) (pagesCreated st))
  | None =>
      if Z.of_nat (size (sessions st)) >=? MAX_SESSIONS then
        (Throws (lit "Maximum concurrent sessions reached"), st)
      else
        match newContext env with
        | Throws message => (Throws message, st)
        | Returns ctx =>
            let session := mkSession ctx JsMap.empty (now env) in
            (Returns session,
             mkServerState (<[key := session]> (sessions st)) (pagesCreated st))
        end
  end.

(** [getTabGroup(session, listItemId)]: the group, and the session, which
    has gained an empty group when the key was new. *)
Definition getTabGroup (session : Session) (listItemId : jsval) : Group * Session :=
  match JsMap.get listItemId (tabGroups session) with
  | Some group => (group, session)
  | None =>
      (JsMap.empty,
       mkSession (context session)
         (JsMap.set listItemId JsMap.empty (tabGroups session))
         (lastAccess session))
  end.

(** The result of [findTab]: { tabState, listItemId, group }. *)
Record found : Type := mkFound {
  f_tabState : TabState;
  f_listItemId : jsval;
  f_group : Group
}.

Fixpoint findTabIn (groups : JsMap.t jsval Group) (tabId : jstring) : option found :=
  match groups with
  | [] => None
  | (listItemId, group) :: rest =>
      match JsMap.get tabId group with
      | Some tabState => Some (mkFound tabState listItemId group)
      | None => findTabIn rest tabId
      end
  end.

(** [findTab(session, tabId)]. *)
Definition findTab (session : Session) (tabId : jstring) : option found :=
  findTabIn (tabGroups session) tabId.

Definition createTabState (p : nat) : TabState := mkTabState p JsMap.empty [] 0.

(** [let totalTabs = 0; for (const group of session.tabGroups.values())
    totalTabs += group.size]. *)
Definition totalTabs (session : Session) : Z :=
  fold_left (fun n group => n + JsMap.size group) (JsMap.values (tabGroups session)) 0.

(** [buildRefs(page)]. *)
Definition buildRefs : outcome refTable :=
  if pageClosed env then Returns JsMap.empty
  else match ariaSnapshot env with
       | Throws message => Throws message
       | Returns ariaYaml => Returns (buildRefsFrom ariaYaml)
       end.

(** [refToLocator(page, ref, refs)] finds a locator or returns [null]. *)
Definition refIsKnown (ref : jsval) (table : refTable) : bool :=
  match ref with
  | JStr r => JsMap.has r table
  | _ => false
  end.

(** [visitedUrls.add(url)]. *)
Definition addVisited (url : jsval) (ts : TabState) : TabState :=
  mkTabState (page ts) (refs ts)
    (if bool_decide (url ∈ visitedUrls ts) then visitedUrls ts
     else visitedUrls ts ++ [url])
    (toolCalls ts).

(** [tabState.refs = ...]. *)
Definition setRefs (table : refTable) (ts : TabState) : TabState :=
  mkTabState (page ts) table (visitedUrls ts) (toolCalls ts).

(** [tabState.toolCalls++]. *)
Definition countCall (ts : TabState) : TabState :=
  mkTabState (page ts) (refs ts) (visitedUrls ts) (toolCalls ts + 1).

(** *** Finding the tab of a request *)

(** What a per-tab route holds after
    [const session = sessions.get(normalizeUserId(userId));
     const found = session && findTab(session, tabId)]. *)
Record located : Type := mkLocated {
  l_key : jstring;
  l_session : Session;
  l_found : found
}.

Definition locate (st : ServerState) (userId : jsval) (tabId : jstring)
    : option located :=
  let key := normalizeUserId userId in
  match sessions st !! key with
  | Some session =>
      match findTab session tabId with
      | Some f => Some (mkLocated key session f)
      | None => None
      end
  | None => None
  end.

(** A [targetId] read from a body or a query string: the keys of a group
    are strings, so only a string can be found. *)
Definition targetTab (targetId : jsval) : option jstring :=
  match targetId with
  | JStr t => Some t
  | _ => None
  end.

(** The handlers change the objects they have found: the tab state inside
    its group, the group inside the session.  [changeFoundGroup] is that
    change on the group [findTabIn] finds, the first one that holds the
    tab. *)
Fixpoint changeFoundGroup (groups : JsMap.t jsval Group) (tabId : jstring)
    (change : Group -> Group) : JsMap.t jsval Group :=
  match groups with
  | [] => []
  | (listItemId, group) :: rest =>
      match JsMap.get tabId group with
      | Some _ => (listItemId, change group) :: rest
      | None => (listItemId, group) :: changeFoundGroup rest tabId change
      end
  end.

(** The registry after the group of the found tab has been changed. *)
Definition storeGroup (l : located) (tabId : jstring) (change : Group -> Group)
    (st : ServerState) : ServerState :=
  let session := l_session l in
  mkServerState
    (<[l_key l :=
         mkSession (context session)
           (changeFoundGroup (tabGroups session) tabId change)
           (lastAccess session)]> (sessions st))
    (pagesCreated st).

(** The registry after the found tab state has become [ts]. *)
Definition storeTab (l : located) (tabId : jstring) (ts : TabState) (st : ServerState)
    : ServerState :=
  storeGroup l tabId (JsMap.set tabId ts) st.

(** A route that changes the tab state it has found. *)
Definition onTab (st : ServerState) (userId : jsval) (tabId : jstring)
    (k : TabState -> response * TabState) : response * ServerState :=
  match locate st userId tabId with
  | None => (tabNotFound, st)
  | Some l =>
      let '(resp, ts) := k (f_tabState (l_found l)) in
      (resp, storeTab l tabId ts st)
  end.

(** A route that only reads the tab it has found. *)
Definition readTab (st : ServerState) (userId : jsval) (tabId : jstring)
    (k : found -> response) : response * ServerState :=
  match locate st userId tabId with
  | None => (tabNotFound, st)
  | Some l => (k (l_found l), st)
  end.

(** *** The bodies of the per-tab routes, from [tabState.toolCalls++] on *)

(** [page.goto], [visitedUrls.add], [tabState.refs = await buildRefs]. *)
Definition gotoAndRebuild (targetUrl : jsval) (reply : jstring -> body)
    (ts : TabState) : response * TabState :=
  match engine env with
  | Throws message => (failed message, ts)
  | Returns _ =>
      let ts1 := addVisited targetUrl ts in
      match buildRefs with
      | Throws message => (failed message, ts1)
      | Returns table => (ok (reply (pageUrl env (page ts))), setRefs table ts1)
      end
  end.

(** [page.goBack], [page.goForward] or [page.reload], then
    [tabState.refs = await buildRefs]. *)
Definition moveAndRebuild (ts : TabState) : response * TabState :=
  match engine env with
  | Throws message => (failed message, ts)
  | Returns _ =>
      match buildRefs with
      | Throws message => (failed message, ts)
      | Returns table => (ok (OkUrl (pageUrl env (page ts))), setRefs table ts)
      end
  end.

(** An engine action that leaves the tab state as it is. *)
Definition justEngine (reply : body) (ts : TabState) : response * TabState :=
  match engine env with
  | Throws message => (failed message, ts)
  | Returns _ => (ok reply, ts)
  end.

Definition navigateTab (url macro query : jsval) (ts0 : TabState)
    : response * TabState :=
  let ts := countCall ts0 in
  let targetUrl :=
    if truthy macro then
      orElse (match expandMacro env macro query with
              | Some u => JStr u
              | None => JNull
              end) url
    else url in
  if negb (truthy targetUrl) then (badRequest (lit "url or macro required"), ts)
  else
    match validateUrl targetUrl with
    | Some urlErr => (badRequest urlErr, ts)
    | None => gotoAndRebuild targetUrl OkUrl ts
    end.

Definition snapshotTab (annotate : refTable -> option jstring -> jstring)
    (reply : jstring -> jstring -> Z -> body) (ts0 : TabState)
    : response * TabState :=
  let ts := countCall ts0 in
  match buildRefs with
  | Throws message => (failed message, ts)
  | Returns table =>
      let ts1 := setRefs table ts in
      match ariaSnapshotAgain env with
      | Throws message => (failed message, ts1)
      | Returns ariaYaml =>
          (ok (reply (pageUrl env (page ts)) (annotate table ariaYaml)
                 (JsMap.size table)),
           ts1)
      end
  end.

(** The message of the click route for a reference that is not in the
    table. *)
Definition unknownRefMessage (ref : jsval) (table : refTable) : jstring :=
  let maxRef :=
    if JsMap.size table >? 0 then lit "e" ++ int_chars (JsMap.size table)
    else lit "none" in
  lit "Unknown ref: " ++ toStr ref ++ lit " (valid refs: e1-" ++ maxRef
    ++ lit ", " ++ int_chars (JsMap.size table)
    ++ lit " total). Refs reset after navigation - call snapshot first.".

Definition clickTab (ref selector : jsval) (ts0 : TabState) : response * TabState :=
  let ts := countCall ts0 in
  if (negb (truthy ref) && negb (truthy selector))%bool then
    (badRequest (lit "ref or selector required"), ts)
  else if (truthy ref && negb (refIsKnown ref (refs ts)))%bool then
    (failed (unknownRefMessage ref (refs ts)), ts)
  else
    match engine env with
    | Throws message => (failed message, ts)
    | Returns _ =>
        match buildRefs with
        | Throws message => (failed message, ts)
        | Returns table =>
            let newUrl := pageUrl env (page ts) in
            (ok (OkUrl newUrl), addVisited (JStr newUrl) (setRefs table ts))
        end
    end.

Definition typeTab (ref selector : jsval) (ts0 : TabState) : response * TabState :=
  let ts := countCall ts0 in
  if (negb (truthy ref) && negb (truthy selector))%bool then
    (badRequest (lit "ref or selector required"), ts)
  else if (truthy ref && negb (refIsKnown ref (refs ts)))%bool then
    (failed (lit "Unknown ref: " ++ toStr ref), ts)
  else justEngine Ok ts.

Definition linksTab (limit offset : Z) (ts0 : TabState) : response * TabState :=
  let ts := countCall ts0 in
  match engine env with
  | Throws message => (failed message, ts)
  | Returns _ =>
      let allLinks := pageLinks env in
      let total := len allLinks in
      (ok (LinksBody (slice allLinks offset (offset + limit)) total offset limit
             (offset + limit <? total)),
       ts)
  end.

Definition statsOf (tabId : jstring) (f : found) : response :=
  let ts := f_tabState f in
  ok (StatsBody tabId (f_listItemId f) (pageUrl env (page ts)) (visitedUrls ts)
        (toolCalls ts) (JsMap.size (refs ts))).

(** The cases of POST /act other than [close], inside the lock. *)
Definition actTab (kind targetId ref selector text key : jsval) (ts : TabState)
    : response * TabState :=
  let needsTarget := (negb (truthy ref) && negb (truthy selector))%bool in
  let unknown := (truthy ref && negb (refIsKnown ref (refs ts)))%bool in
  let unknownRef := failed (lit "Unknown ref: " ++ toStr ref) in
  if bool_decide (kind = JStr (lit "click")) then
    if needsTarget then (failed (lit "ref or selector required"), ts)
    else if unknown then (unknownRef, ts)
    else
      match engine env with
      | Throws message => (failed message, ts)
      | Returns _ =>
          match buildRefs with
          | Throws message => (failed message, ts)
          | Returns table =>
              (ok (OkTarget targetId (Some (pageUrl env (page ts)))),
               setRefs table ts)
          end
      end
  else if bool_decide (kind = JStr (lit "type")) then
    if needsTarget then (failed (lit "ref or selector required"), ts)
    else if match text with JStr _ => false | _ => true end then
      (failed (lit "text is required"), ts)
    else if unknown then (unknownRef, ts)
    else justEngine (OkTarget targetId None) ts
  else if bool_decide (kind = JStr (lit "press")) then
    if negb (truthy key) then (failed (lit "key is required"), ts)
    else justEngine (OkTarget targetId None) ts
  else if (bool_decide (kind = JStr (lit "scroll"))
           || bool_decide (kind = JStr (lit "scrollIntoView")))%bool then
    if unknown then (unknownRef, ts)
    else justEngine (OkTarget targetId None) ts
  else if bool_decide (kind = JStr (lit "hover")) then
    if needsTarget then (failed (lit "ref or selector required"), ts)
    else if unknown then (unknownRef, ts)
    else justEngine (OkTarget targetId None) ts
  else if bool_decide (kind = JStr (lit "wait")) then
    justEngine (OkTarget targetId (Some (pageUrl env (page ts)))) ts
  else (failed (lit "Unsupported action kind: " ++ toStr kind), ts).

(** *** Creating and closing *)

(** The registry after [session] has been stored under [key]. *)
Definition putSession (key : jstring) (session : Session) (st : ServerState)
    : ServerState :=
  mkServerState (<[key := session]> (sessions st)) (pagesCreated st).

(** POST /tabs and POST /tabs/open from [getSession] on; [validated] tells
    that the URL has been validated before (POST /tabs/open). *)
Definition createIn (userId groupKey url : jsval) (validated : bool)
    (reply : jstring -> nat -> body) (st : ServerState) : response * ServerState :=
  match getSession userId st with
  | (Throws message, st1) => (failed message, st1)
  | (Returns session, st1) =>
      if totalTabs session >=? MAX_TABS_PER_SESSION then (tooManyTabs, st1)
      else
        let key := normalizeUserId userId in
        let '(group, session1) := getTabGroup session groupKey in
        match newPage env with
        | Throws message => (failed message, putSession key session1 st1)
        | Returns p =>
            let tabId := randomUUID env in
            let register (ts : TabState) (s0 : ServerState) : ServerState :=
              mkServerState
                (<[key :=
                     mkSession (context session1)
                       (JsMap.set groupKey (JsMap.set tabId ts group)
                          (tabGroups session1))
                       (lastAccess session1)]> (sessions s0))
                (p :: pagesCreated s0) in
            let tabState := createTabState p in
            if truthy url then
              match (if validated then None else validateUrl url) with
              | Some urlErr => (badRequest urlErr, register tabState st1)
              | None =>
                  match engine env with
                  | Throws message => (failed message, register tabState st1)
                  | Returns _ =>
                      (ok (reply tabId p), register (addVisited url tabState) st1)
                  end
              end
            else (ok (reply tabId p), register tabState st1)
        end
  end.

(** DELETE /tabs/:tabId once the tab is found:
    [found.group.delete(tabId)], then
    [if (found.group.size === 0) session.tabGroups.delete(found.listItemId)]. *)
Definition closeFound (l : located) (tabId : jstring) (st : ServerState)
    : response * ServerState :=
  match closePage env with
  | Throws message => (failed message, st)
  | Returns _ =>
      let session := l_session l in
      let group := JsMap.delete tabId (f_group (l_found l)) in
      let groups := changeFoundGroup (tabGroups session) tabId (JsMap.delete tabId) in
      let groups' :=
        if JsMap.size group =? 0 then JsMap.delete (f_listItemId (l_found l)) groups
        else groups in
      (ok Ok,
       putSession (l_key l)
         (mkSession (context session) groups' (lastAccess session)) st)
  end.

(** The [close] case of POST /act, inside the lock:
    [found.group.delete(targetId)] and no more; the group stays in the
    session. *)
Definition actClose (l : located) (tabId : jstring) (targetId : jsval)
    (ts : TabState) (st : ServerState) : response * ServerState :=
  match closePage env with
  | Throws message => (failed message, storeTab l tabId ts st)
  | Returns _ =>
      (ok (OkTarget targetId None), storeGroup l tabId (JsMap.delete tabId) st)
  end.

(** *** The routes *)

Inductive request : Type :=
  | CreateTab (userId sessionKey listItemId url : jsval)
      (* POST /tabs *)
  | Navigate (tabId : jstring) (userId url macro query : jsval)
      (* POST /tabs/:tabId/navigate *)
  | Snapshot (tabId : jstring) (userId : jsval)
      (* GET /tabs/:tabId/snapshot *)
  | WaitReady (tabId : jstring) (userId : jsval)
      (* POST /tabs/:tabId/wait *)
  | Click (tabId : jstring) (userId ref selector : jsval)
      (* POST /tabs/:tabId/click *)
  | TypeText (tabId : jstring) (userId ref selector : jsval)
      (* POST /tabs/:tabId/type *)
  | Press (tabId : jstring) (userId : jsval)
      (* POST /tabs/:tabId/press *)
  | Scroll (tabId : jstring) (userId : jsval)
      (* POST /tabs/:tabId/scroll *)
  | Back (tabId : jstring) (userId : jsval)
      (* POST /tabs/:tabId/back *)
  | Forward (tabId : jstring) (userId : jsval)
      (* POST /tabs/:tabId/forward *)
  | Refresh (tabId : jstring) (userId : jsval)
      (* POST /tabs/:tabId/refresh *)
  | Links (tabId : jstring) (userId : jsval) (limit offset : Z)
      (* GET /tabs/:tabId/links, limit and offset after parseInt and default *)
  | Screenshot (tabId : jstring) (userId : jsval)
      (* GET /tabs/:tabId/screenshot *)
  | Stats (tabId : jstring) (userId : jsval)
      (* GET /tabs/:tabId/stats *)
  | CloseTab (tabId : jstring) (userId : jsval)
      (* DELETE /tabs/:tabId *)
  | CloseGroup (listItemId : jstring) (userId : jsval)
      (* DELETE /tabs/group/:listItemId *)
  | CloseSession (userId : jsval)
      (* DELETE /sessions/:userId *)
  | ListTabs (userId : jsval)
      (* GET /tabs *)
  | OpenTab (url userId listItemId : jsval)
      (* POST /tabs/open *)
  | NavigateAlias (targetId url userId : jsval)
      (* POST /navigate *)
  | SnapshotAlias (targetId userId : jsval)
      (* GET /snapshot *)
  | Act (kind targetId userId ref selector text key : jsval).
      (* POST /act *)

Definition handle (r : request) (st : ServerState) : response * ServerState :=
  match r with
  | CreateTab userId sessionKey listItemId url =>
      let resolvedSessionKey := orElse sessionKey listItemId in
      if (negb (truthy userId) || negb (truthy resolvedSessionKey))%bool then
        (badRequest (lit "userId and sessionKey required"), st)
      else
        createIn userId resolvedSessionKey url false
          (fun tabId p => Created tabId (pageUrl env p)) st
  | Navigate tabId userId url macro query =>
      onTab st userId tabId (navigateTab url macro query)
  | Snapshot tabId userId =>
      onTab st userId tabId (snapshotTab annotateMain SnapshotBody)
  | WaitReady tabId userId =>
      readTab st userId tabId (fun _ => ok (OkReady (pageReady env)))
  | Click tabId userId ref selector =>
      onTab st userId tabId (clickTab ref selector)
  | TypeText tabId userId ref selector =>
      onTab st userId tabId (typeTab ref selector)
  | Press tabId userId =>
      onTab st userId tabId (fun ts => justEngine Ok (countCall ts))
  | Scroll tabId userId =>
      onTab st userId tabId (fun ts => justEngine Ok (countCall ts))
  | Back tabId userId | Forward tabId userId | Refresh tabId userId =>
      onTab st userId tabId (fun ts => moveAndRebuild (countCall ts))
  | Links tabId userId limit offset =>
      onTab st userId tabId (linksTab limit offset)
  | Screenshot tabId userId =>
      readTab st userId tabId
        (fun _ => match engine env with
                  | Throws message => failed message
                  | Returns _ => ok Png
                  end)
  | Stats tabId userId =>
      readTab st userId tabId (statsOf tabId)
  | CloseTab tabId userId =>
      match locate st userId tabId with
      | Some l => closeFound l tabId st
      | None => (ok Ok, st)
      end
  | CloseGroup listItemId userId =>
      let key := normalizeUserId userId in
      match sessions st !! key with
      | Some session =>
          match JsMap.get (JStr listItemId) (tabGroups session) with
          | Some _ =>
              (ok Ok,
               putSession key
                 (mkSession (context session)
                    (JsMap.delete (JStr listItemId) (tabGroups session))
                    (lastAccess session)) st)
          | None => (ok Ok, st)
          end
      | None => (ok Ok, st)
      end
  | CloseSession userId =>
      let key := normalizeUserId userId in
      match sessions st !! key with
      | Some _ =>
          match closeContext env with
          | Throws message => (failed message, st)
          | Returns _ =>
              (ok Ok, mkServerState (delete key (sessions st)) (pagesCreated st))
          end
      | None => (ok Ok, st)
      end
  | ListTabs userId =>
      match sessions st !! normalizeUserId userId with
      | Some session =>
          (ok (TabsBody
                 (List.concat
                    (List.map
                       (fun '(listItemId, group) =>
                          List.map
                            (fun '(tabId, ts) =>
                               (tabId, pageUrl env (page ts), pageTitle env (page ts),
                                listItemId))
                            group)
                       (tabGroups session)))),
           st)
      | None => (ok (TabsBody []), st)
      end
  | OpenTab url userId listItemId =>
      if negb (truthy userId) then (badRequest (lit "userId is required"), st)
      else if negb (truthy url) then (badRequest (lit "url is required"), st)
      else
        match validateUrl url with
        | Some urlErr => (badRequest urlErr, st)
        | None =>
            createIn userId
              (match listItemId with JUndefined => JStr (lit "default") | v => v end)
              url true
              (fun tabId p => Opened tabId (pageUrl env p) (pageTitle env p)) st
        end
  | NavigateAlias targetId url userId =>
      if negb (truthy userId) then (badRequest (lit "userId is required"), st)
      else if negb (truthy url) then (badRequest (lit "url is required"), st)
      else
        match validateUrl url with
        | Some urlErr => (badRequest urlErr, st)
        | None =>
            match targetTab targetId with
            | Some tabId =>
                onTab st userId tabId
                  (fun ts => gotoAndRebuild url (fun u => OkTarget targetId (Some u))
                               (countCall ts))
            | None => (tabNotFound, st)
            end
        end
  | SnapshotAlias targetId userId =>
      if negb (truthy userId) then (badRequest (lit "userId is required"), st)
      else
        match targetTab targetId with
        | Some tabId =>
            onTab st userId tabId
              (snapshotTab annotateAlias (AliasSnapshotBody targetId))
        | None => (tabNotFound, st)
        end
  | Act kind targetId userId ref selector text key =>
      if negb (truthy userId) then (badRequest (lit "userId is required"), st)
      else if negb (truthy kind) then (badRequest (lit "kind is required"), st)
      else
        match targetTab targetId with
        | Some tabId =>
            match locate st userId tabId with
            | Some l =>
                let ts := countCall (f_tabState (l_found l)) in
                if bool_decide (kind = JStr (lit "close")) then
                  actClose l tabId targetId ts st
                else
                  let '(resp, ts') := actTab kind targetId ref selector text key ts in
                  (resp, storeTab l tabId ts' st)
            | None => (tabNotFound, st)
            end
        | None => (tabNotFound, st)
        end
  end.

End Handlers.

(** The server after a sequence of requests, each with its environment. *)
Definition run (steps : list (Env * request)) (st : ServerState) : ServerState :=
  fold_left (fun s '(env, r) => snd (handle env r s)) steps st.

(** The user and the tab that a per-tab request addresses. *)
Definition addressed (r : request) : option (jsval * jsval) :=
  match r with
  | Navigate tabId userId _ _ _ | Snapshot tabId userId | WaitReady tabId userId
  | Click tabId userId _ _ | TypeText tabId userId _ _ | Press tabId userId
  | Scroll tabId userId | Back tabId userId | Forward tabId userId
  | Refresh tabId userId | Links tabId userId _ _ | Screenshot tabId userId
  | Stats tabId userId | CloseTab tabId userId => Some (userId, JStr tabId)
  | NavigateAlias targetId _ userId | SnapshotAlias targetId userId
  | Act _ targetId userId _ _ _ _ => Some (userId, targetId)
  | CreateTab _ _ _ _ | CloseGroup _ _ | CloseSession _ | ListTabs _
  | OpenTab _ _ _ => None
  end.

(** The user a request is made for. *)
Definition userOf (r : request) : jsval :=
  match r with
  | CreateTab userId _ _ _ | Navigate _ userId _ _ _ | Snapshot _ userId
  | WaitReady _ userId | Click _ userId _ _ | TypeText _ userId _ _
  | Press _ userId | Scroll _ userId | Back _ userId | Forward _ userId
  | Refresh _ userId | Links _ userId _ _ | Screenshot _ userId | Stats _ userId
  | CloseTab _ userId | CloseGroup _ userId | CloseSession userId
  | ListTabs userId | OpenTab _ userId _ | NavigateAlias _ _ userId
  | SnapshotAlias _ userId | Act _ _ userId _ _ _ _ => userId
  end.

(** The same request from another spelling of the user. *)
Definition withUser (r : request) (u : jsval) : request :=
  match r with
  | CreateTab _ sessionKey listItemId url => CreateTab u sessionKey listItemId url
  | Navigate tabId _ url macro query => Navigate tabId u url macro query
  | Snapshot tabId _ => Snapshot tabId u
  | WaitReady tabId _ => WaitReady tabId u
  | Click tabId _ ref selector => Click tabId u ref selector
  | TypeText tabId _ ref selector => TypeText tabId u ref selector
  | Press tabId _ => Press tabId u
  | Scroll tabId _ => Scroll tabId u
  | Back tabId _ => Back tabId u
  | Forward tabId _ => Forward tabId u
  | Refresh tabId _ => Refresh tabId u
  | Links tabId _ limit offset => Links tabId u limit offset
  | Screenshot tabId _ => Screenshot tabId u
  | Stats tabId _ => Stats tabId u
  | CloseTab tabId _ => CloseTab tabId u
  | CloseGroup listItemId _ => CloseGroup listItemId u
  | CloseSession _ => CloseSession u
  | ListTabs _ => ListTabs u
  | OpenTab url _ listItemId => OpenTab url u listItemId
  | NavigateAlias targetId url _ => NavigateAlias targetId url u
  | SnapshotAlias targetId _ => SnapshotAlias targetId u
  | Act kind targetId _ ref selector text key =>
      Act kind targetId u ref selector text key
  end.

(** Whether the session of a user holds a tab. *)
Definition holdsTab (st : ServerState) (userId : jsval) (tabId : jsval) : bool :=
  match targetTab tabId with
  | Some t =>
      match sessions st !! normalizeUserId userId with
      | Some session =>
          match findTab session t with Some _ => true | None => false end
      | None => false
      end
  | None => false
  end.

(** Whether a session holds a group without tabs. *)
Definition hasEmptyGroup (session : Session) : bool :=
  existsb (fun group => JsMap.size group =? 0) (JsMap.values (tabGroups session)).

End Server.

(** ** server.js: the clean-up of stale sessions

    The callback that [setInterval] runs every minute, and the server as it
    goes through requests and clean-up ticks, one at a time. *)

Module Cleanup.
Import Server.

Definition SESSION_TIMEOUT_MS : Z := 30 * 60 * 1000.

(** The callback of [setInterval] that cleans up stale sessions, run at
    time [now]: a failure of [context.close()] is swallowed. *)
Definition sweep (now : Z) (st : ServerState) : ServerState :=
  mkServerState
    (filter (fun e : jstring * Session =>
               (now - lastAccess e.2 >? SESSION_TIMEOUT_MS) = false)
       (sessions st))
    (pagesCreated st).

Inductive event : Type :=
  | Request (env : Env) (r : request)
  | Tick (now : Z).

Definition after (e : event) (st : ServerState) : ServerState :=
  match e with
  | Request env r => snd (handle env r st)
  | Tick now => sweep now st
  end.

Definition runAll (events : list event) (st : ServerState) : ServerState :=
  fold_left (fun s e => after e s) events st.

End Cleanup.

(** ** server.js: POST /sessions/:userId/cookies

    The route from its first statement to its answer: the API key, the
    [Authorization] header, the checks of the body, the sanitizing of the
    cookies, [getSession] and [context.addCookies]. *)

Module Cookies.
Import Refs Server.

(** A value of a parsed JSON body.  An object holds its properties in
    order. *)
#[local] Unset Elimination Schemes.
Inductive json : Type :=
  | VNull
  | VBool (b : bool)
  | VNumber (repr : jstring)
  | VString (s : jstring)
  | VArray (items : list json)
  | VObject (fields : list (jstring * json)).
#[local] Set Elimination Schemes.

(** [c[k]] on a value for which [typeof c === 'object'] and [c] is truthy:
    a property of an object; an array has none of the names asked for.
    [None] is [undefined]. *)
Definition prop (c : json) (k : jstring) : option json :=
  match c with
  | VObject fields => JsMap.get k fields
  | _ => None
  end.

(** [!c || typeof c !== 'object'] is false. *)
Definition isObject (c : json) : bool :=
  match c with
  | VArray _ | VObject _ => true
  | _ => false
  end.

(** [typeof v === 'string']. *)
Definition isString (v : option json) : bool :=
  match v with
  | Some (VString _) => true
  | _ => false
  end.

(** [typeof v === 'string' && v]. *)
Definition isFilledString (v : option json) : bool :=
  match v with
  | Some (VString (_ :: _)) => true
  | _ => false
  end.

Inductive problem : Type :=
  | NotAnObject (index : Z)
  | Missing (index : Z) (missing : list jstring).

(** The names pushed to [missing] for one cookie. *)
Definition missingOf (c : json) : list jstring :=
  (if isFilledString (prop c (lit "name")) then [] else [lit "name"])
  ++ (if isString (prop c (lit "value")) then [] else [lit "value"])
  ++ (if isFilledString (prop c (lit "domain")) then [] else [lit "domain"]).

(** The loop that fills [invalid], from index [i] on. *)
Fixpoint invalidFrom (i : Z) (cookies : list json) : list problem :=
  match cookies with
  | [] => []
  | c :: rest =>
      if negb (isObject c) then NotAnObject i :: invalidFrom (i + 1) rest
      else
        match missingOf c with
        | [] => invalidFrom (i + 1) rest
        | missing => Missing i missing :: invalidFrom (i + 1) rest
        end
  end.

Definition allowedFields : list jstring :=
  [lit "name"; lit "value"; lit "domain"; lit "path"; lit "expires";
   lit "httpOnly"; lit "secure"; lit "sameSite"].

(** [clean]: the allowed properties of [c] that are not [undefined], in the
    order of [allowedFields]. *)
Fixpoint pick (c : json) (names : list jstring) : list (jstring * json) :=
  match names with
  | [] => []
  | k :: rest =>
      match prop c k with
      | Some v => (k, v) :: pick c rest
      | None => pick c rest
      end
  end.

Definition sanitize (c : json) : list (jstring * json) := pick c allowedFields.

(** The checks of [req.body.cookies], from [Array.isArray(cookies)] to
    [sanitized]: the first check that fails, or the sanitized list with
    which the route goes on. *)
Inductive checked : Type :=
  | NotAnArray                                  (* 400 cookies must be an array *)
  | TooMany                                     (* 400 Too many cookies *)
  | Invalid (invalid : list problem)            (* 400 Invalid cookie objects *)
  | Sanitized (cookies : list (list (jstring * json))).
                                                (* no check failed *)

Definition checkCookies (cookies : json) : checked :=
  match cookies with
  | VArray items =>
      if len items >? 500 then TooMany
      else
        match invalidFrom 0 items with
        | [] => Sanitized (List.map sanitize items)
        | invalid => Invalid invalid
        end
  | _ => NotAnArray
  end.

(** A cookie the checks let through. *)
Definition wellFormed (c : json) : bool :=
  (isObject c && isFilledString (prop c (lit "name"))
   && isString (prop c (lit "value"))
   && isFilledString (prop c (lit "domain")))%bool.

(** *** The caller *)

(** [auth.match(...)] and its group 1, the pattern being, in free-spacing
    notation with the [i] flag,

      ^ Bearer \s+ ( .+ ) $

    The white space after the word is taken as far as it goes, as long as
    one character is left for the group; the group runs to the end of the
    header, which it can unless a line terminator is in its way (the dot
    matches none, and without the [m] flag [$] is the end of the text).
    Giving back white space only moves the start of the group to the left,
    so what the longest white space cannot match, no shorter one can. *)
Definition bearerToken (auth : jstring) : option jstring :=
  if startsWithIgnoreCase (lit "Bearer") auth then
    let '(gap, token) := span isSpace (drop 6 auth) in
    match token with
    | _ :: _ =>
        if (nonEmpty gap && negb (existsb isLineTerminator token))%bool
        then Some token else None
    | [] =>
        match rev gap with
        | last :: _ :: _ => if isLineTerminator last then None else Some [last]
        | _ => None
        end
    end
  else None.

(** [timingSafeCompare(a, b)] on two strings; [utf8] is [Buffer.from]. *)
Definition timingSafeCompare (utf8 : jstring -> list N) (a b : jstring) : bool :=
  let bufA := utf8 a in
  let bufB := utf8 b in
  if negb (length bufA =? length bufB)%nat then false
  else bool_decide (bufA = bufB).

Inductive gate : Type :=
  | Disabled        (* 403 Cookie import is disabled *)
  | Forbidden       (* 403 Forbidden *)
  | Open.

(** The two checks in front of the route: [apiKey] is
    [process.env.CAMOFOX_API_KEY], [authorization] is
    [req.headers['authorization']]. *)
Definition authorize (apiKey : option jstring) (utf8 : jstring -> list N)
    (authorization : option jstring) : gate :=
  match apiKey with
  | None | Some [] => Disabled
  | Some key =>
      match bearerToken (default [] authorization) with
      | Some token => if timingSafeCompare utf8 token key then Open else Forbidden
      | None => Forbidden
      end
  end.

(** *** The route *)

(** [req.body] after [express.json()], which lets through objects and
    arrays only. *)
Inductive parsedBody : Type :=
  | NoBody
  | BodyArray (items : list json)
  | BodyObject (fields : list (jstring * json)).

Inductive answer : Type :=
  | ImportDisabled                            (* 403 *)
  | NotAllowed                                (* 403 *)
  | MissingCookies                            (* 400 Missing cookies field *)
  | Refused (why : checked)                   (* 400, [why] is not [Sanitized] *)
  | Failed (message : jstring)                (* 500 *)
  | Imported (userId : jstring) (count : Z).  (* 200 *)

Definition statusOf (a : answer) : Z :=
  match a with
  | ImportDisabled | NotAllowed => 403
  | MissingCookies | Refused _ => 400
  | Failed _ => 500
  | Imported _ _ => 200
  end.

(** What a request has done: its answer, the registry after it, and the
    list that [context.addCookies] was called with, if it was called. *)
Record result : Type := Result {
  answered : answer;
  stateAfter : ServerState;
  handedOver : option (list (list (jstring * json)))
}.

(** The handler; [addCookies] is the outcome of
    [session.context.addCookies(sanitized)]. *)
Definition importCookies (env : Env) (apiKey : option jstring)
    (utf8 : jstring -> list N) (addCookies : outcome unit)
    (authorization : option jstring) (userId : jstring) (body : parsedBody)
    (st : ServerState) : result :=
  match authorize apiKey utf8 authorization with
  | Disabled => Result ImportDisabled st None
  | Forbidden => Result NotAllowed st None
  | Open =>
      match body with
      | NoBody | BodyArray _ => Result MissingCookies st None
      | BodyObject fields =>
          match JsMap.get (lit "cookies") fields with
          | None => Result MissingCookies st None
          | Some cookies =>
              match checkCookies cookies with
              | Sanitized sanitized =>
                  match getSession env (JStr userId) st with
                  | (Throws message, st1) =>
                      Result (Failed (safeError env message)) st1 None
                  | (Returns session, st1) =>
                      match addCookies with
                      | Throws message =>
                          Result (Failed (safeError env message)) st1 (Some sanitized)
                      | Returns _ =>
                          Result (Imported userId (len sanitized)) st1 (Some sanitized)
                      end
                  end
              | why => Result (Refused why) st None
              end
          end
      end
  end.

End Cookies.

(** ** lib/youtube.js: the arguments and the environment of yt-dlp *)

Module Youtube.
Import Refs Server.

Definition SAFE_ENV_KEYS : list jstring :=
  [lit "PATH"; lit "HOME"; lit "LANG"; lit "LC_ALL"; lit "LC_CTYPE"; lit "TMPDIR"].

(** [buildSafeEnv()]: [processEnv] is [process.env], whose values are
    strings; the result lists its entries in the order they were set. *)
Fixpoint copySafe (processEnv : gmap jstring jstring) (names : list jstring)
    (env : JsMap.t jstring jstring) : JsMap.t jstring jstring :=
  match names with
  | [] => env
  | key :: rest =>
      match processEnv !! key with
      | Some value =>
          if len value >? 0 then copySafe processEnv rest (JsMap.set key value env)
          else copySafe processEnv rest env
      | None => copySafe processEnv rest env
      end
  end.

Definition buildSafeEnv (processEnv : gmap jstring jstring) : JsMap.t jstring jstring :=
  copySafe processEnv SAFE_ENV_KEYS JsMap.empty.

(** [s.trim()]: white space and line terminators go, at both ends; they
    are the characters of the class [\s]. *)
Fixpoint trimStart (s : jstring) : jstring :=
  match s with
  | c :: s' => if isSpace c then trimStart s' else s
  | [] => []
  end.

Definition trim (s : jstring) : jstring := rev (trimStart (rev (trimStart s))).

Definition isLower (c : char) : bool := inRange 97 122 c.

Definition isAlnum (c : char) : bool :=
  (inRange 97 122 c || inRange 65 90 c || inRange 48 57 c)%bool.

(** [LANG_RE.test(lang)], the pattern being, in free-spacing notation,

      ^ [a-z]{2,3} (?: - [a-zA-Z0-9]{2,8} )? $

    What follows the letters is the end or a dash, which is no letter: the
    letters matched are all the lower-case letters the text starts with,
    two or three.  After the dash come two to eight letters and digits, and
    the end: the pattern has no [m] flag, so [$] is the end of the text. *)
Definition LANG_RE_test (lang : jstring) : bool :=
  let '(letters, rest) := span isLower lang in
  ((2 <=? len letters) && (len letters <=? 3)
   && match rest with
      | [] => true
      | dash :: tail =>
          (isDash dash && (2 <=? len tail) && (len tail <=? 8)
           && forallb isAlnum tail)%bool
      end)%bool.

(** [normalizeLanguage(rawLang)]. *)
Definition normalizeLanguage (rawLang : jsval) : jstring :=
  let lang := trim (toStr (orElse rawLang (JStr (lit "en")))) in
  if LANG_RE_test lang then lang else lit "en".

End Youtube.

(** ** Properties of the snapshot window *)

Module SnapshotFacts.
Import Snapshot.

#[local] Arguments windowSnapshot : simpl never.

(** The text made of [n] letters X. *)
Definition xs (n : N) : jstring := repeat 88%N (N.to_nat n).

(** C9. A text of at most [MAX_SNAPSHOT_CHARS] characters comes back whole
    and unchanged from [windowSnapshot(text, 0)], with [truncated = false]. *)
Theorem windowSnapshot_short_text_unchanged (yaml : jstring) :
  len yaml <= MAX_SNAPSHOT_CHARS ->
  text (windowSnapshot (Some yaml) 0) = yaml /\
  truncated (windowSnapshot (Some yaml) 0) = false.
Proof.
  intros Hlen. unfold windowSnapshot.
  destruct yaml as [|c rest]; [split; reflexivity|].
  destruct (Z.leb_spec (len (c :: rest)) MAX_SNAPSHOT_CHARS) as [_|Hgt].
  - split; reflexivity.
  - lia.
Qed.

Lemma windowSnapshot_short_text_unchanged_witness :
  len (litq "- link `Home`") <= MAX_SNAPSHOT_CHARS /\
  text (windowSnapshot (Some (litq "- link `Home`")) 0) = litq "- link `Home`" /\
  truncated (windowSnapshot (Some (litq "- link `Home`")) 0) = false.
Proof.
  split; [vm_compute; discriminate|].
  apply (windowSnapshot_short_text_unchanged (litq "- link `Home`")).
  vm_compute; discriminate.
Defined.

Lemma len_nonneg (s : jstring) : 0 <= len s.
Proof. unfold len. lia. Qed.

Lemma len_app (s t : jstring) : len (s ++ t) = len s + len t.
Proof. unfold len. rewrite length_app. lia. Qed.

(** Inside the text, a content slice is [contentBudget] characters taken
    after dropping [o]. *)
Lemma chunkAt_take_drop (yaml : jstring) (o : Z) :
  0 <= o <= len yaml ->
  chunkAt yaml o = take (Z.to_nat contentBudget) (drop (Z.to_nat o) yaml).
Proof.
  intros Ho. unfold chunkAt, slice, slice_index.
  assert (Hb : 0 < contentBudget) by reflexivity.
  destruct (Z.ltb_spec o 0) as [?|_]; [lia|].
  destruct (Z.ltb_spec (o + contentBudget) 0) as [?|_]; [lia|].
  rewrite (Z.min_l o) by lia.
  destruct (Z.le_gt_cases (o + contentBudget) (len yaml)) as [Hin|Hout].
  - rewrite Z.min_l by lia. f_equal. lia.
  - rewrite Z.min_r by lia.
    rewrite !take_ge; [reflexivity| |]; rewrite length_drop; unfold len in *; lia.
Qed.

Lemma iterate_deterministic (yaml : jstring) (f1 : nat) :
  forall (f2 : nat) (o : Z) (ws1 ws2 : list window),
    iterate f1 yaml o = Some ws1 -> iterate f2 yaml o = Some ws2 -> ws1 = ws2.
Proof.
  induction f1 as [|f1 IH]; intros f2 o ws1 ws2 H1 H2; [discriminate H1|].
  destruct f2 as [|f2]; [discriminate H2|].
  simpl in H1, H2.
  destruct (hasMore (windowSnapshot (Some yaml) o)) as [[|]|];
    destruct (nextOffset (windowSnapshot (Some yaml) o)) as [next|];
    try congruence.
  destruct (iterate f1 yaml next) as [rs1|] eqn:E1; [|discriminate H1].
  destruct (iterate f2 yaml next) as [rs2|] eqn:E2; [|discriminate H2].
  rewrite (IH _ _ _ _ E1 E2) in H1. congruence.
Qed.

(** The window computed at an offset that is already inside
    [0, total - SNAPSHOT_TAIL_CHARS]. *)
Lemma windowSnapshot_long (yaml : jstring) (o : Z) :
  MAX_SNAPSHOT_CHARS < len yaml ->
  0 <= o <= len yaml - SNAPSHOT_TAIL_CHARS ->
  let more := o + contentBudget <? len yaml - SNAPSHOT_TAIL_CHARS in
  windowSnapshot (Some yaml) o =
    Window (chunkAt yaml o ++ marker more (o + contentBudget) (len yaml) ++ tailOf yaml)
      true (len yaml) o (Some more)
      (if more then Some (o + contentBudget) else None).
Proof.
  intros Hlen Ho more. unfold windowSnapshot.
  destruct yaml as [|c rest]; [vm_compute in Hlen; discriminate Hlen|].
  destruct (Z.leb_spec (len (c :: rest)) MAX_SNAPSHOT_CHARS) as [?|_]; [lia|].
  unfold clampOffset. rewrite Z.max_r, Z.min_l by lia. reflexivity.
Qed.

(** The iteration started inside the text ends, and delivers the text from
    its start offset on, slice after slice, up to a rest that lies within
    the tail. *)
Lemma iterate_from (yaml : jstring) (fuel : nat) :
  MAX_SNAPSHOT_CHARS < len yaml ->
  forall o : Z,
    0 <= o <= len yaml - SNAPSHOT_TAIL_CHARS ->
    len yaml - SNAPSHOT_TAIL_CHARS - o < Z.of_nat fuel * contentBudget ->
    exists (ws : list window) (rest : jstring),
      iterate fuel yaml o = Some ws /\
      drop (Z.to_nat o) yaml = concat (List.map (contentOf yaml) ws) ++ rest /\
      len rest <= SNAPSHOT_TAIL_CHARS /\
      contiguousFrom yaml o ws /\
      Forall (includesTail yaml) ws /\
      Forall (carriesSlice yaml) ws.
Proof.
  intros Hlen. induction fuel as [|fuel IH]; intros o Ho Hfuel; [lia|].
  assert (Hb : contentBudget = 74800) by reflexivity.
  assert (Ht : SNAPSHOT_TAIL_CHARS = 5000) by reflexivity.
  pose proof (windowSnapshot_long yaml o Hlen Ho) as Hw. simpl in Hw.
  simpl iterate. rewrite Hw. simpl hasMore. simpl nextOffset.
  assert (Htail : includesTail yaml (windowSnapshot (Some yaml) o)).
  { rewrite Hw. eexists. simpl. rewrite app_assoc. reflexivity. }
  rewrite Hw in Htail.
  assert (Hcarry : carriesSlice yaml (windowSnapshot (Some yaml) o)).
  { rewrite Hw. unfold carriesSlice, contentOf. cbn [text offset hasMore].
    destruct (o + contentBudget <? len yaml - SNAPSHOT_TAIL_CHARS); reflexivity. }
  rewrite Hw in Hcarry.
  assert (Hsplit : drop (Z.to_nat o) yaml =
            chunkAt yaml o ++ drop (Z.to_nat (o + contentBudget)) yaml).
  { rewrite chunkAt_take_drop by lia.
    replace (Z.to_nat (o + contentBudget))
      with (Z.to_nat o + Z.to_nat contentBudget)%nat by lia.
    rewrite <- drop_drop. symmetry. apply take_drop. }
  destruct (Z.ltb_spec (o + contentBudget) (len yaml - SNAPSHOT_TAIL_CHARS))
    as [Hmore|Hlast].
  - destruct (IH (o + contentBudget))
      as (ws & rest & Hit & Hcat & Hrest & Hcont & Hall & Hcar); [lia|lia|].
    rewrite Hit. eexists _, rest. split; [reflexivity|].
    split; [|split; [exact Hrest|split; [|split]]].
    + simpl. unfold contentOf at 1. simpl. rewrite <- app_assoc, <- Hcat. exact Hsplit.
    + intros [|i] w Hi; simpl in Hi.
      * injection Hi as <-. simpl. unfold len. simpl. lia.
      * specialize (Hcont i w Hi). rewrite Hcont. simpl.
        unfold contentOf at 2. simpl. rewrite len_app.
        rewrite chunkAt_take_drop by lia. unfold len in *.
        rewrite length_take, length_drop. lia.
    + constructor; assumption.
    + constructor; assumption.
  - eexists _, (drop (Z.to_nat (o + contentBudget)) yaml).
    split; [reflexivity|]. split; [|split; [|split; [|split]]].
    + simpl. unfold contentOf. simpl. rewrite app_nil_r. exact Hsplit.
    + unfold len in *. rewrite length_drop. lia.
    + intros [|i] w Hi; simpl in Hi; [|discriminate].
      injection Hi as <-. simpl. unfold len. simpl. lia.
    + constructor; [assumption|constructor].
    + constructor; [assumption|constructor].
Qed.

(** C3, as the code has it.  For a text longer than [MAX_SNAPSHOT_CHARS]
    the iteration from offset 0 through [nextOffset] ends; the text of every
    returned window is its content slice, the marker and the tail; the
    content slices are contiguous and disjoint, and put end to end they are
    a prefix of the text that stops at most [SNAPSHOT_TAIL_CHARS] characters
    before its end, so each character before the tail boundary is visited
    exactly once and the rest lies inside the tail; every returned chunk
    ends with the tail. *)
Theorem windowSnapshot_iteration_covers_up_to_tail (yaml : jstring) :
  MAX_SNAPSHOT_CHARS < len yaml ->
  exists (fuel : nat) (ws : list window) (rest : jstring),
    iterate fuel yaml 0 = Some ws /\
    Forall (carriesSlice yaml) ws /\
    yaml = concat (List.map (contentOf yaml) ws) ++ rest /\
    len rest <= SNAPSHOT_TAIL_CHARS /\
    contiguousFrom yaml 0 ws /\
    Forall (includesTail yaml) ws.
Proof.
  intros Hlen.
  assert (Hb : contentBudget = 74800) by reflexivity.
  assert (Ht : SNAPSHOT_TAIL_CHARS = 5000) by reflexivity.
  assert (Hm : MAX_SNAPSHOT_CHARS = 80000) by reflexivity.
  destruct (iterate_from yaml (S (length yaml)) Hlen 0)
    as (ws & rest & Hit & Hcat & Hrest & Hcont & Hall & Hcar).
  - lia.
  - unfold len in *. nia.
  - exists (S (length yaml)), ws, rest. simpl in Hcat.
    repeat split; assumption.
Qed.

Lemma windowSnapshot_iteration_covers_up_to_tail_witness :
  MAX_SNAPSHOT_CHARS < len (xs 80001) /\
  exists (fuel : nat) (ws : list window) (rest : jstring),
    iterate fuel (xs 80001) 0 = Some ws /\
    Forall (carriesSlice (xs 80001)) ws /\
    xs 80001
      = concat (List.map (contentOf (xs 80001)) ws) ++ rest /\
    len rest <= SNAPSHOT_TAIL_CHARS /\
    contiguousFrom (xs 80001) 0 ws /\
    Forall (includesTail (xs 80001)) ws.
Proof.
  split; [vm_compute; reflexivity|].
  apply (windowSnapshot_iteration_covers_up_to_tail (xs 80001)).
  vm_compute; reflexivity.
Defined.

(** The total length of the content slices of the iteration. *)
Lemma content_length_of_run (yaml : jstring) (f1 f2 : nat) (ws : list window) (n : Z) :
  option_map (fun rs => len (concat (List.map (contentOf yaml) rs))) (iterate f1 yaml 0)
    = Some n ->
  iterate f2 yaml 0 = Some ws ->
  len (concat (List.map (contentOf yaml) ws)) = n.
Proof.
  intros H1 H2. destruct (iterate f1 yaml 0) as [rs|] eqn:E; [|discriminate].
  rewrite (iterate_deterministic _ _ _ _ _ _ H2 E). simpl in H1. congruence.
Qed.

(** C3, as stated, fails: on a text of 149601 characters the iteration is
    offset 0, then 74800, and ends there; the two content slices hold
    characters 0 .. 149599, so the last character is in no content slice. *)
Lemma content_slices_miss_end_of_text :
  MAX_SNAPSHOT_CHARS < len (xs 149601) /\
  ~ coversWholeText (xs 149601).
Proof.
  split; [vm_compute; reflexivity|].
  intros (fuel & ws & Hit & Hcat & _).
  assert (Hn : len (concat (List.map (contentOf (xs 149601)) ws)) = 149600).
  { apply (content_length_of_run _ 2 fuel ws); [vm_compute; reflexivity|exact Hit]. }
  rewrite Hcat in Hn. vm_compute in Hn. discriminate Hn.
Qed.

End SnapshotFacts.

(** ** Properties of the reference resolver *)

Module RefsFacts.
Import Refs.

Lemma span_app (p : char -> bool) (s : jstring) :
  (span p s).1 ++ (span p s).2 = s.
Proof.
  induction s as [|c s IH]; simpl; [reflexivity|].
  destruct (p c); [|reflexivity].
  destruct (span p s) as [a b]. simpl in *. rewrite IH. reflexivity.
Qed.

(** What a match leaves over is the end of the line. *)
Lemma matchNode_suffix (line : jstring) (m : nodeMatch) :
  matchNode line = Some m -> exists before : jstring, line = before ++ m_suffix m.
Proof.
  unfold matchNode.
  pose proof (span_app isSpace line) as H0.
  destruct (span isSpace line) as [indent r0]. simpl in H0.
  destruct r0 as [|dash r1]; [discriminate|].
  pose proof (span_app isSpace r1) as H1.
  destruct (span isSpace r1) as [gap r2]. simpl in H1.
  pose proof (span_app isWord r2) as H2.
  destruct (span isWord r2) as [role r3]. simpl in H2.
  destruct (isDash dash && nonEmpty gap && nonEmpty role)%bool; [|discriminate].
  assert (Hplain : exists before : jstring, line = before ++ r3).
  { exists (indent ++ dash :: gap ++ role).
    rewrite <- H0, <- H1, <- H2, <- !app_assoc. simpl.
    rewrite <- !app_assoc. reflexivity. }
  pose proof (span_app isSpace r3) as H3.
  destruct (span isSpace r3) as [gap2 r4]. simpl in H3.
  destruct r4 as [|opening r5]; [intros H; injection H as <-; exact Hplain|].
  pose proof (span_app (fun c => negb (isQuote c)) r5) as H4.
  destruct (span (fun c => negb (isQuote c)) r5) as [name r6]. simpl in H4.
  destruct r6 as [|closing r7]; [intros H; injection H as <-; exact Hplain|].
  destruct (nonEmpty gap2 && isQuote opening)%bool;
    intros H; injection H as <-; [|exact Hplain].
  simpl. destruct Hplain as [before ->].
  exists (before ++ gap2 ++ opening :: name ++ [closing]).
  rewrite <- H3, <- H4, <- !app_assoc. simpl. rewrite <- !app_assoc. reflexivity.
Qed.

(** On a line without carriage return, line separator and paragraph
    separator, the pattern of the annotate pass matches what the pattern of
    the build pass matches. *)
Lemma matchAnnotate_agrees (line : jstring) :
  existsb isLineTerminator line = false -> matchAnnotate line = matchBuild line.
Proof.
  intros Hline. unfold matchAnnotate, matchBuild.
  destruct (matchNode line) as [m|] eqn:Hm; [|reflexivity].
  destruct (matchNode_suffix line m Hm) as [before ->].
  rewrite existsb_app in Hline. apply orb_false_elim in Hline as [_ Hs].
  rewrite Hs. reflexivity.
Qed.

(** Where the two patterns agree on a line, the two passes of the main
    route filter the line alike and count it alike: the build loop goes on
    with the occurrence counts that the annotate callback hands on. *)
Lemma passes_count_alike (refsByKey : JsMap.t jstring jstring) (line : jstring)
    (rest : list jstring) (refCounter : Z) (counts : JsMap.t jstring Z)
    (table : refTable) :
  matchAnnotate line = matchBuild line ->
  refCounter <= MAX_SNAPSHOT_NODES ->
  exists (refCounter' : Z) (table' : refTable),
    buildLoop (line :: rest) refCounter counts table
      = buildLoop rest refCounter'
          (annotateLineMain refsByKey counts line).2 table'.
Proof.
  intros Hsame Hcap. cbn [buildLoop]. unfold annotateLineMain. rewrite Hsame.
  replace (refCounter >? MAX_SNAPSHOT_NODES) with false
    by (symmetry; rewrite Z.gtb_ltb; apply Z.ltb_ge; exact Hcap).
  destruct (matchBuild line) as [m|]; [|eauto].
  destruct (bool_decide (toLowerCase (m_role m) = lit "combobox")); [eauto|].
  destruct (nameIsSkipped (m_name m)); [eauto|].
  destruct (includes INTERACTIVE_ROLES (toLowerCase (m_role m))); [|eauto].
  match goal with
  | |- context [JsMap.get ?k refsByKey] =>
      destruct (JsMap.get k refsByKey) as [refId|]; [destruct (nonEmpty refId)|]
  end; cbn [snd]; eauto.
Qed.

(** Two buttons with the same name, one per line. *)
Definition twoButtons : jstring :=
  litq "- button `OK`" ++ 10%N :: litq "- button `OK`".

(** The same two lines, the first one ending in a carriage return. *)
Definition twoButtonsCR : jstring :=
  litq "- button `OK`" ++ 13%N :: 10%N :: litq "- button `OK`".

(** The build pass gives the two buttons the references e1 and e2, told
    apart by their occurrence index. *)
Lemma buildRefs_twoButtons :
  buildRefsFrom (Some twoButtons) =
    [(lit "e1", RefInfo (lit "button") (lit "OK") 0);
     (lit "e2", RefInfo (lit "button") (lit "OK") 1)].
Proof. vm_compute. reflexivity. Qed.

(** The annotate pass of GET /tabs/:tabId/snapshot counts occurrences as the
    build pass does: the second button is shown with e2. *)
Lemma snapshotMain_twoButtons :
  snapshotMain twoButtons =
    litq "- button `OK` [e1]" ++ 10%N :: litq "- button `OK` [e2]".
Proof. vm_compute. reflexivity. Qed.

(** C1 fails on the alias route.  The annotate pass of GET /snapshot keys its
    table by role and name only, keeps the first reference of each key and
    counts no occurrences: on two buttons of the same name the build pass
    assigns e1 and e2, and the second line is shown with e1, the reference
    of the first button. *)
Theorem snapshotAlias_shows_first_ref_on_second_button :
  buildRefsFrom (Some twoButtons) =
    [(lit "e1", RefInfo (lit "button") (lit "OK") 0);
     (lit "e2", RefInfo (lit "button") (lit "OK") 1)] /\
  snapshotAlias twoButtons =
    litq "- button [e1] `OK`" ++ 10%N :: litq "- button [e1] `OK`" /\
  snapshotMain twoButtons =
    litq "- button `OK` [e1]" ++ 10%N :: litq "- button `OK` [e2]".
Proof. repeat split; vm_compute; reflexivity. Qed.

(** The two patterns of the main route differ as well: a line that ends in
    a carriage return is a node for the build pass and no node for the
    annotate pass, whose last group cannot take the carriage return.  The
    build pass counts the first button, the annotate pass does not, and the
    second button, e2 in the table, is shown with e1. *)
Lemma snapshotMain_drifts_after_carriage_return :
  buildRefsFrom (Some twoButtonsCR) =
    [(lit "e1", RefInfo (lit "button") (lit "OK") 0);
     (lit "e2", RefInfo (lit "button") (lit "OK") 1)] /\
  snapshotMain twoButtonsCR =
    litq "- button `OK`" ++ 13%N :: 10%N :: litq "- button `OK` [e1]".
Proof. split; vm_compute; reflexivity. Qed.

End RefsFacts.

(** ** Properties of the per-tab lock *)

Module TabLockFacts.
Import TabLock.

Definition tabT : jstring := lit "T".
Definition tabU : jstring := lit "U".

(** Two calls on one tab: the second operation begins after the first has
    settled, also when the first one fails. *)
Lemma two_calls_are_serialized (fulfilled : bool) :
  trace (run [Submit 1 tabT; Submit 2 tabT; Finish 1 fulfilled]) =
    [Begin 1 tabT; Settle 1 fulfilled; Begin 2 tabT].
Proof. destruct fulfilled; vm_compute; reflexivity. Qed.

(** A call on a tab that has no entry in [tabLocks] begins its operation at
    once, whatever is in flight on other tabs. *)
Lemma call_on_free_tab_begins_at_once (call : nat) (tabId : jstring) (st : state) :
  tabLocks st !! tabId = None ->
  trace (step st (Submit call tabId)) = trace st ++ [Begin call tabId].
Proof. intros Hfree. simpl. unfold withTabLock. rewrite Hfree. reflexivity. Qed.

(** Calls on different tabs do not wait for each other. *)
Lemma calls_on_two_tabs_overlap :
  trace (run [Submit 1 tabT; Submit 2 tabU]) = [Begin 1 tabT; Begin 2 tabU].
Proof. vm_compute. reflexivity. Qed.

(** C2 fails with two calls waiting.  Calls 2 and 3 arrive while operation 1
    is in flight; both await the promise of operation 1.  When it settles,
    the two continuations run one after the other: operation 2 begins, and
    operation 3 begins right after it, before operation 2 has settled. *)
Theorem third_call_begins_before_second_settles :
  trace (run [Submit 1 tabT; Submit 2 tabT; Submit 3 tabT; Finish 1 true]) =
    [Begin 1 tabT; Settle 1 true; Begin 2 tabT; Begin 3 tabT] /\
  oneAtATime []
    (trace (run [Submit 1 tabT; Submit 2 tabT; Submit 3 tabT; Finish 1 true]))
    = false.
Proof. split; vm_compute; reflexivity. Qed.

End TabLockFacts.

(** ** Properties of the insertion-ordered map *)

Module JsMapFacts.
Section JsMapFacts.
Context {K V : Type} `{EqDecision K}.
Implicit Types (m : JsMap.t K V) (k : K) (v : V).

Lemma get_set_eq k v m : JsMap.get k (JsMap.set k v m) = Some v.
Proof.
  induction m as [|[k' v'] m IH]; simpl.
  - destruct (decide (k = k)); [reflexivity|congruence].
  - destruct (decide (k' = k)) as [->|Hne]; simpl.
    + destruct (decide (k = k)); [reflexivity|congruence].
    + destruct (decide (k' = k)); [congruence|exact IH].
Qed.

Lemma get_set_ne k k' v m : k <> k' -> JsMap.get k' (JsMap.set k v m) = JsMap.get k' m.
Proof.
  intros Hne. induction m as [|[k0 v0] m IH]; simpl.
  - destruct (decide (k = k')); [congruence|reflexivity].
  - destruct (decide (k0 = k)) as [->|Hne0]; simpl.
    + destruct (decide (k = k')); [congruence|reflexivity].
    + destruct (decide (k0 = k')); [reflexivity|exact IH].
Qed.

Lemma size_nonneg m : 0 <= JsMap.size m.
Proof. unfold JsMap.size. lia. Qed.

Lemma size_set_known k v v0 m :
  JsMap.get k m = Some v0 -> JsMap.size (JsMap.set k v m) = JsMap.size m.
Proof.
  unfold JsMap.size. induction m as [|[k' v'] m IH]; simpl; [discriminate|].
  destruct (decide (k' = k)); simpl; [reflexivity|].
  intros Hget. specialize (IH Hget). lia.
Qed.

Lemma size_set_new k v m :
  JsMap.get k m = None -> JsMap.size (JsMap.set k v m) = JsMap.size m + 1.
Proof.
  unfold JsMap.size. induction m as [|[k' v'] m IH]; simpl; [reflexivity|].
  destruct (decide (k' = k)); simpl; [discriminate|].
  intros Hget. specialize (IH Hget). lia.
Qed.

Lemma size_delete_known k v0 m :
  JsMap.get k m = Some v0 -> JsMap.size (JsMap.delete k m) = JsMap.size m - 1.
Proof.
  unfold JsMap.size. induction m as [|[k' v'] m IH]; simpl; [discriminate|].
  destruct (decide (k' = k)); simpl; [lia|].
  intros Hget. specialize (IH Hget). lia.
Qed.

Lemma keys_set_known k v v0 m :
  JsMap.get k m = Some v0 -> JsMap.keys (JsMap.set k v m) = JsMap.keys m.
Proof.
  unfold JsMap.keys. induction m as [|[k' v'] m IH]; simpl; [discriminate|].
  destruct (decide (k' = k)) as [->|]; simpl; [reflexivity|].
  intros Hget. rewrite (IH Hget). reflexivity.
Qed.

End JsMapFacts.
End JsMapFacts.

(** ** Properties of the request handlers *)

Module ServerFacts.
Import Refs Server.

(** *** Sample data *)

(** An engine that does what it is asked: URLs that start with http:// or
    https:// parse, anything else does not. *)
Definition sampleProtocol (s : jstring) : option jstring :=
  if bool_decide (take 8 s = lit "https://") then Some (lit "https:")
  else if bool_decide (take 7 s = lit "http://") then Some (lit "http:")
  else if bool_decide (take 7 s = lit "file://") then Some (lit "file:")
  else None.

Definition calm (uuid : jstring) (p : nat) : Env :=
  mkEnv 1000 false sampleProtocol (fun _ _ => None) (Returns 7%nat) (Returns p) uuid
    (Returns tt) false (Returns None) (Returns None) true
    (fun _ => lit "about:blank") (fun _ => []) [] (Returns tt) (Returns tt).

(** The same engine, whose [context.newPage()] fails. *)
Definition noPage (uuid : jstring) : Env :=
  mkEnv 1000 false sampleProtocol (fun _ _ => None) (Returns 7%nat)
    (Throws (lit "Target closed")) uuid
    (Returns tt) false (Returns None) (Returns None) true
    (fun _ => lit "about:blank") (fun _ => []) [] (Returns tt) (Returns tt).

Definition alice : jsval := JStr (lit "alice").
Definition bob : jsval := JStr (lit "bob").
Definition task : jsval := JStr (lit "task-1").
Definition tab1 : jstring := lit "tab-1".

(** Alice has opened one tab, in one group. *)
Definition aliceHasOneTab : ServerState :=
  run [(calm tab1 1%nat, CreateTab alice task JUndefined JUndefined)] emptyServer.

(** The name of the [i]-th tab, and the requests by which Alice opens the
    tabs [1 .. n] in one group. *)
Definition tabName (i : nat) : jstring := lit "tab-" ++ nat_chars (N.of_nat i).

Definition openTabs (n : nat) : list (Env * request) :=
  List.map (fun i => (calm (tabName i) i, CreateTab alice task JUndefined JUndefined))
    (seq 1 n).

(** Alice has opened ten tabs. *)
Definition aliceIsFull : ServerState := run (openTabs 10) emptyServer.

Definition sessionOfAlice (st : ServerState) : Session :=
  default (mkSession 0 JsMap.empty 0) (sessions st !! lit "alice").

(** *** Tenant isolation *)

(** What a per-tab request is answered when the tab is not in the session of
    its user: 404 for the routes that look the tab up first; the alias
    routes check their required fields before, and answer 400 when one is
    missing; DELETE /tabs/:tabId answers 200 whether the tab is there or
    not. *)
Definition absentOutcome (env : Env) (r : request) : response :=
  match r with
  | CloseTab _ _ => ok Ok
  | NavigateAlias _ url userId =>
      if negb (truthy userId) then badRequest (lit "userId is required")
      else if negb (truthy url) then badRequest (lit "url is required")
      else match validateUrl env url with
           | Some urlErr => badRequest urlErr
           | None => tabNotFound
           end
  | SnapshotAlias _ userId =>
      if negb (truthy userId) then badRequest (lit "userId is required")
      else tabNotFound
  | Act kind _ userId _ _ _ _ =>
      if negb (truthy userId) then badRequest (lit "userId is required")
      else if negb (truthy kind) then badRequest (lit "kind is required")
      else tabNotFound
  | _ => tabNotFound
  end.

Lemma locate_absent (st : ServerState) (userId : jsval) (tabId : jstring) :
  holdsTab st userId (JStr tabId) = false -> locate st userId tabId = None.
Proof.
  unfold holdsTab, locate. simpl.
  destruct (sessions st !! normalizeUserId userId) as [session|]; [|reflexivity].
  destruct (findTab session tabId); [discriminate|reflexivity].
Qed.

(** C4, as the code has it.  A per-tab request for a tab that is not in the
    session of its user gets an answer that is a function of the request
    alone, and leaves the server as it was: the answer is the same whether
    the tab is in the session of another user or in no session.  The answer
    is 404 Tab not found, but for DELETE /tabs/:tabId (200) and for an alias
    request without its required fields (400). *)
Theorem foreign_tab_is_as_absent (env : Env) (r : request) (userId tabId : jsval)
    (st : ServerState) :
  addressed r = Some (userId, tabId) ->
  holdsTab st userId tabId = false ->
  handle env r st = (absentOutcome env r, st).
Proof.
  intros Haddr Hnot.
  destruct r; simpl in Haddr; try discriminate;
    injection Haddr as <- <-; simpl;
    unfold onTab, readTab;
    try (rewrite (locate_absent _ _ _ Hnot); reflexivity).
  - (* POST /navigate *)
    destruct (truthy userId0); simpl; [|reflexivity].
    destruct (truthy url); simpl; [|reflexivity].
    destruct (validateUrl env url); [reflexivity|].
    destruct targetId; simpl; try reflexivity.
    rewrite (locate_absent _ _ _ Hnot). reflexivity.
  - (* GET /snapshot *)
    destruct (truthy userId0); simpl; [|reflexivity].
    destruct targetId; simpl; try reflexivity.
    rewrite (locate_absent _ _ _ Hnot). reflexivity.
  - (* POST /act *)
    destruct (truthy userId0); simpl; [|reflexivity].
    destruct (truthy kind); simpl; [|reflexivity].
    destruct targetId; simpl; try reflexivity.
    rewrite (locate_absent _ _ _ Hnot). reflexivity.
Qed.

Lemma foreign_tab_is_as_absent_witness :
  addressed (Stats tab1 bob) = Some (bob, JStr tab1) /\
  holdsTab aliceHasOneTab alice (JStr tab1) = true /\
  holdsTab aliceHasOneTab bob (JStr tab1) = false /\
  handle (calm tab1 1%nat) (Stats tab1 bob) aliceHasOneTab
    = (absentOutcome (calm tab1 1%nat) (Stats tab1 bob), aliceHasOneTab).
Proof.
  split; [reflexivity|]. split; [vm_compute; reflexivity|].
  split; [vm_compute; reflexivity|].
  apply (foreign_tab_is_as_absent (calm tab1 1%nat) (Stats tab1 bob) bob (JStr tab1)
           aliceHasOneTab); vm_compute; reflexivity.
Defined.

(** C4, as stated, fails on DELETE /tabs/:tabId: Bob asks to close the tab
    of Alice and is answered 200 with ok: true, not 404. *)
Lemma closing_a_foreign_tab_answers_200 :
  addressed (CloseTab tab1 bob) = Some (bob, JStr tab1) /\
  holdsTab aliceHasOneTab alice (JStr tab1) = true /\
  holdsTab aliceHasOneTab bob (JStr tab1) = false /\
  fst (handle (calm tab1 1%nat) (CloseTab tab1 bob) aliceHasOneTab) = ok Ok /\
  fst (handle (calm tab1 1%nat) (CloseTab tab1 bob) aliceHasOneTab) <> tabNotFound.
Proof.
  split; [reflexivity|]. split; [vm_compute; reflexivity|].
  split; [vm_compute; reflexivity|].
  split; [vm_compute; reflexivity|]. vm_compute. discriminate.
Qed.

(** *** The user of a request *)

(** C10, as the code has it.  [getSession] gives the same session for a
    user and for the string of that user, and every route answers a request
    and changes the server alike for the two spellings, whenever the user
    and its string are both truthy or both falsy; so a tab opened under one
    spelling is found under the other. *)
Theorem userId_is_normalized (env : Env) (r : request) (u : jsval) (st : ServerState) :
  truthy (JStr (toStr u)) = truthy u ->
  getSession env u st = getSession env (JStr (toStr u)) st /\
  (forall t : jsval, holdsTab st u t = holdsTab st (JStr (toStr u)) t) /\
  handle env (withUser r u) st = handle env (withUser r (JStr (toStr u))) st.
Proof.
  intros Htruthy. split; [reflexivity|]. split; [reflexivity|].
  simpl in Htruthy.
  destruct r; simpl;
    unfold onTab, readTab, locate, createIn, getSession, normalizeUserId;
    simpl; try rewrite Htruthy; reflexivity.
Qed.

Lemma userId_is_normalized_witness :
  truthy (JStr (toStr (JNum (lit "42")))) = truthy (JNum (lit "42")) /\
  getSession (calm tab1 1%nat) (JNum (lit "42")) emptyServer
    = getSession (calm tab1 1%nat) (JStr (toStr (JNum (lit "42")))) emptyServer /\
  (forall t : jsval,
     holdsTab emptyServer (JNum (lit "42")) t
       = holdsTab emptyServer (JStr (toStr (JNum (lit "42")))) t) /\
  handle (calm tab1 1%nat) (withUser (ListTabs JNull) (JNum (lit "42"))) emptyServer
    = handle (calm tab1 1%nat)
        (withUser (ListTabs JNull) (JStr (toStr (JNum (lit "42"))))) emptyServer.
Proof.
  split; [reflexivity|].
  apply (userId_is_normalized (calm tab1 1%nat) (ListTabs JNull) (JNum (lit "42"))
           emptyServer).
  reflexivity.
Defined.

(** The number zero and its string. *)
Definition zero : jsval := JNum (lit "0").
Definition zeroString : jsval := JStr (lit "0").

(** The user "0" has opened one tab. *)
Definition zeroHasOneTab : ServerState :=
  run [(calm tab1 1%nat, CreateTab zeroString task JUndefined JUndefined)] emptyServer.

Definition pressEnter (userId : jsval) : request :=
  Act (JStr (lit "press")) (JStr tab1) userId JUndefined JUndefined JUndefined
    (JStr (lit "Enter")).

(** C10, as stated, fails for the number 0.  Its string is "0", and a tab
    opened under "0" is found by POST /act sent with "0"; sent with the
    number 0, the same request is answered 400 before any session is looked
    up, because 0 is falsy. *)
Lemma act_rejects_the_number_zero :
  zeroString = JStr (toStr zero) /\
  holdsTab zeroHasOneTab zeroString (JStr tab1) = true /\
  status (fst (handle (calm tab1 1%nat) (pressEnter zeroString) zeroHasOneTab)) = 200 /\
  fst (handle (calm tab1 1%nat) (pressEnter zero) zeroHasOneTab)
    = badRequest (lit "userId is required").
Proof. repeat split; vm_compute; reflexivity. Qed.

(** *** Empty groups *)

Definition closeByAct (userId : jsval) : request :=
  Act (JStr (lit "close")) (JStr tab1) userId JUndefined JUndefined JUndefined
    JUndefined.

(** C8 fails on POST /act with kind close.  Alice has one tab in one group;
    the action closes the page and takes the tab out of its group, answers
    200, and the group stays in her session with no tab in it.  DELETE
    /tabs/:tabId on the same state removes the group. *)
Theorem act_close_leaves_an_empty_group :
  hasEmptyGroup <$> (sessions aliceHasOneTab !! lit "alice") = Some false /\
  status (fst (handle (calm tab1 1%nat) (closeByAct alice) aliceHasOneTab)) = 200 /\
  hasEmptyGroup <$>
    (sessions (snd (handle (calm tab1 1%nat) (closeByAct alice) aliceHasOneTab))
       !! lit "alice") = Some true /\
  hasEmptyGroup <$>
    (sessions (snd (handle (calm tab1 1%nat) (CloseTab tab1 alice) aliceHasOneTab))
       !! lit "alice") = Some false.
Proof. repeat split; vm_compute; reflexivity. Qed.

(** The same state is reached by a creation that fails partway: the group is
    made before [context.newPage()] is called, and stays when that call
    throws. *)
Lemma failed_creation_leaves_an_empty_group :
  status (fst (handle (noPage tab1) (CreateTab alice task JUndefined JUndefined)
                 emptyServer)) = 500 /\
  hasEmptyGroup <$>
    (sessions (snd (handle (noPage tab1) (CreateTab alice task JUndefined JUndefined)
                      emptyServer)) !! lit "alice") = Some true.
Proof. split; vm_compute; reflexivity. Qed.

(** *** Rejected requests *)

(** POST /tabs checks the URL after the tab has been made: this tells a
    request that passes the required-field check with a URL that
    [validateUrl] rejects. *)
Definition rejectsUrlAfterCreating (env : Env) (r : request) : bool :=
  match r with
  | CreateTab userId sessionKey listItemId url =>
      (truthy userId && truthy (orElse sessionKey listItemId) && truthy url
       && match validateUrl env url with Some _ => true | None => false end)%bool
  | _ => false
  end.

(** The session with its [lastAccess] refreshed, as [getSession] leaves it. *)
Definition touched (env : Env) (session : Session) : Session :=
  mkSession (context session) (tabGroups session) (now env).

Ltac wrong_status H :=
  simpl in H; destruct H as [H|[H _]]; discriminate H.

Lemma gotoAndRebuild_status (env : Env) (url : jsval) (reply : jstring -> body)
    (ts : TabState) :
  status (fst (gotoAndRebuild env url reply ts)) = 500 \/
  status (fst (gotoAndRebuild env url reply ts)) = 200.
Proof.
  unfold gotoAndRebuild. destruct (engine env); [|left; reflexivity].
  destruct (buildRefs env); [right|left]; reflexivity.
Qed.

Lemma justEngine_status (env : Env) (reply : body) (ts : TabState) :
  status (fst (justEngine env reply ts)) = 500 \/
  status (fst (justEngine env reply ts)) = 200.
Proof. unfold justEngine. destruct (engine env); [right|left]; reflexivity. Qed.

Lemma moveAndRebuild_status (env : Env) (ts : TabState) :
  status (fst (moveAndRebuild env ts)) = 500 \/
  status (fst (moveAndRebuild env ts)) = 200.
Proof.
  unfold moveAndRebuild. destruct (engine env); [|left; reflexivity].
  destruct (buildRefs env); [right|left]; reflexivity.
Qed.

Lemma snapshotTab_status (env : Env) (annotate : refTable -> option jstring -> jstring)
    (reply : jstring -> jstring -> Z -> body) (ts : TabState) :
  status (fst (snapshotTab env annotate reply ts)) = 500 \/
  status (fst (snapshotTab env annotate reply ts)) = 200.
Proof.
  unfold snapshotTab. destruct (buildRefs env); [|left; reflexivity].
  destruct (ariaSnapshotAgain env); [right|left]; reflexivity.
Qed.

Lemma actTab_status (env : Env) (kind targetId ref selector text key : jsval)
    (ts : TabState) :
  status (fst (actTab env kind targetId ref selector text key ts)) = 500 \/
  status (fst (actTab env kind targetId ref selector text key ts)) = 200.
Proof.
  unfold actTab.
  repeat match goal with
         | |- context [if ?b then _ else _] => destruct b
         end;
    try (left; reflexivity); try apply justEngine_status.
  destruct (engine env); [|left; reflexivity].
  destruct (buildRefs env); [right|left]; reflexivity.
Qed.

(** A rejection by [navigateTab], [clickTab] or [typeTab] comes after the
    call has been counted and before anything else. *)
Lemma navigateTab_rejects (env : Env) (url macro query : jsval) (ts : TabState) :
  status (fst (navigateTab env url macro query ts)) = 429 \/
  status (fst (navigateTab env url macro query ts)) = 400 ->
  snd (navigateTab env url macro query ts) = countCall ts.
Proof.
  unfold navigateTab.
  destruct (negb (truthy _)); [reflexivity|].
  destruct (validateUrl env _); [reflexivity|].
  intros H. destruct (gotoAndRebuild_status env
    (if truthy macro
     then orElse match expandMacro env macro query with
                 | Some u => JStr u
                 | None => JNull
                 end url
     else url) OkUrl (countCall ts)) as [E|E]; rewrite E in H; destruct H; discriminate.
Qed.

Lemma clickTab_rejects (env : Env) (ref selector : jsval) (ts : TabState) :
  status (fst (clickTab env ref selector ts)) = 429 \/
  status (fst (clickTab env ref selector ts)) = 400 ->
  snd (clickTab env ref selector ts) = countCall ts.
Proof.
  unfold clickTab.
  destruct (negb (truthy ref) && negb (truthy selector))%bool; [reflexivity|].
  destruct (truthy ref && negb (refIsKnown ref (refs (countCall ts))))%bool;
    [reflexivity|].
  destruct (engine env); [|reflexivity].
  destruct (buildRefs env); simpl; intros [H|H]; discriminate H.
Qed.

Lemma typeTab_rejects (env : Env) (ref selector : jsval) (ts : TabState) :
  status (fst (typeTab env ref selector ts)) = 429 \/
  status (fst (typeTab env ref selector ts)) = 400 ->
  snd (typeTab env ref selector ts) = countCall ts.
Proof.
  unfold typeTab.
  destruct (negb (truthy ref) && negb (truthy selector))%bool; [reflexivity|].
  destruct (truthy ref && negb (refIsKnown ref (refs (countCall ts))))%bool;
    [reflexivity|].
  unfold justEngine. destruct (engine env); reflexivity.
Qed.

(** A rejection by the creation routes, once their own checks have passed,
    is the quota: the session is there, and only its [lastAccess] has
    changed. *)
Lemma createIn_rejects (env : Env) (userId groupKey url : jsval) (validated : bool)
    (reply : jstring -> nat -> body) (st : ServerState) :
  status (fst (createIn env userId groupKey url validated reply st)) = 429 \/
  (status (fst (createIn env userId groupKey url validated reply st)) = 400 /\
   (validated = true \/ truthy url = false \/ validateUrl env url = None)) ->
  exists session : Session,
    sessions st !! normalizeUserId userId = Some session /\
    snd (createIn env userId groupKey url validated reply st)
      = putSession (normalizeUserId userId) (touched env session) st.
Proof.
  unfold createIn, getSession.
  destruct (sessions st !! normalizeUserId userId) as [session|] eqn:Hs.
  - simpl. destruct (totalTabs _ >=? MAX_TABS_PER_SESSION).
    + intros _. exists session. split; reflexivity.
    + destruct (getTabGroup _ groupKey) as [group session1].
      destruct (newPage env); [|intros H; wrong_status H].
      destruct (truthy url) eqn:Hurl; [|intros H; wrong_status H].
      destruct validated.
      * destruct (engine env); intros H; wrong_status H.
      * destruct (validateUrl env url) eqn:Hv.
        -- intros [H|[_ [H|[H|H]]]]; discriminate H.
        -- destruct (engine env); intros H; wrong_status H.
  - destruct (Z.of_nat (size (sessions st)) >=? MAX_SESSIONS);
      [intros H; wrong_status H|].
    destruct (newContext env); [|intros H; wrong_status H].
    simpl.
    destruct (newPage env); [|intros H; wrong_status H].
    destruct (truthy url) eqn:Hurl; [|intros H; wrong_status H].
    destruct validated.
    + destruct (engine env); intros H; wrong_status H.
    + destruct (validateUrl env url) eqn:Hv.
      * intros [H|[_ [H|[H|H]]]]; discriminate H.
      * destruct (engine env); intros H; wrong_status H.
Qed.

Lemma onTab_rejects (st : ServerState) (userId : jsval) (tabId : jstring)
    (k : TabState -> response * TabState) :
  (forall ts : TabState,
     status (fst (k ts)) = 429 \/ status (fst (k ts)) = 400 ->
     snd (k ts) = countCall ts) ->
  status (fst (onTab st userId tabId k)) = 429 \/
  status (fst (onTab st userId tabId k)) = 400 ->
  exists l : located,
    locate st userId tabId = Some l /\
    snd (onTab st userId tabId k)
      = storeTab l tabId (countCall (f_tabState (l_found l))) st.
Proof.
  intros Hk. unfold onTab.
  destruct (locate st userId tabId) as [l|]; [|intros [H|H]; discriminate H].
  specialize (Hk (f_tabState (l_found l))).
  destruct (k (f_tabState (l_found l))) as [resp ts]. simpl in *.
  intros H. exists l. split; [reflexivity|]. rewrite (Hk H). reflexivity.
Qed.

Lemma onTab_never_rejects (st : ServerState) (userId : jsval) (tabId : jstring)
    (k : TabState -> response * TabState) :
  (forall ts : TabState,
     status (fst (k ts)) = 500 \/ status (fst (k ts)) = 200) ->
  status (fst (onTab st userId tabId k)) = 429 \/
  status (fst (onTab st userId tabId k)) = 400 ->
  False.
Proof.
  intros Hk. unfold onTab.
  destruct (locate st userId tabId) as [l|]; [|intros [H|H]; discriminate H].
  specialize (Hk (f_tabState (l_found l))).
  destruct (k (f_tabState (l_found l))) as [resp ts]. simpl in *.
  intros [H|H]; destruct Hk as [E|E]; rewrite E in H; discriminate H.
Qed.

Lemma onTab_no_429 (st : ServerState) (userId : jsval) (tabId : jstring)
    (k : TabState -> response * TabState) :
  (forall ts : TabState, status (fst (k ts)) <> 429) ->
  status (fst (onTab st userId tabId k)) <> 429.
Proof.
  intros Hk. unfold onTab.
  destruct (locate st userId tabId) as [l|]; [|discriminate].
  specialize (Hk (f_tabState (l_found l))).
  destruct (k (f_tabState (l_found l))) as [resp ts]. exact Hk.
Qed.

Lemma navigateTab_no_429 (env : Env) (url macro query : jsval) (ts : TabState) :
  status (fst (navigateTab env url macro query ts)) <> 429.
Proof.
  unfold navigateTab. cbn zeta.
  destruct (negb (truthy _)); [discriminate|].
  destruct (validateUrl env _); [discriminate|].
  match goal with
  | |- context [gotoAndRebuild env ?u ?reply ?t] =>
      destruct (gotoAndRebuild_status env u reply t) as [E|E]; rewrite E; discriminate
  end.
Qed.

Lemma clickTab_no_429 (env : Env) (ref selector : jsval) (ts : TabState) :
  status (fst (clickTab env ref selector ts)) <> 429.
Proof.
  unfold clickTab. cbn zeta.
  destruct (negb (truthy ref) && negb (truthy selector))%bool; [discriminate|].
  destruct (truthy ref && negb (refIsKnown ref (refs (countCall ts))))%bool;
    [discriminate|].
  destruct (engine env); [|discriminate].
  destruct (buildRefs env); discriminate.
Qed.

Lemma typeTab_no_429 (env : Env) (ref selector : jsval) (ts : TabState) :
  status (fst (typeTab env ref selector ts)) <> 429.
Proof.
  unfold typeTab. cbn zeta.
  destruct (negb (truthy ref) && negb (truthy selector))%bool; [discriminate|].
  destruct (truthy ref && negb (refIsKnown ref (refs (countCall ts))))%bool;
    [discriminate|].
  unfold justEngine. destruct (engine env); discriminate.
Qed.

(** The creation routes answer 400 only for a URL that [validateUrl]
    rejects, and only POST /tabs gets that far with such a URL. *)
Lemma createIn_400 (env : Env) (userId groupKey url : jsval) (validated : bool)
    (reply : jstring -> nat -> body) (st : ServerState) :
  status (fst (createIn env userId groupKey url validated reply st)) = 400 ->
  validated = false /\ truthy url = true /\
  exists urlErr : jstring, validateUrl env url = Some urlErr.
Proof.
  unfold createIn.
  destruct (getSession env userId st) as [[session|message] st1]; [|discriminate].
  destruct (totalTabs session >=? MAX_TABS_PER_SESSION); [discriminate|].
  destruct (getTabGroup session groupKey) as [group session1].
  destruct (newPage env); [|discriminate]. cbn zeta.
  destruct (truthy url); [|discriminate].
  destruct validated.
  - destruct (engine env); discriminate.
  - destruct (validateUrl env url) as [urlErr|]; [eauto|].
    destruct (engine env); discriminate.
Qed.

Ltac no_such_status H :=
  exfalso; revert H;
  repeat match goal with
         | |- context [match ?x with _ => _ end] => destruct x
         | |- context [if ?b then _ else _] => destruct b
         end;
  discriminate.

(** C6, as the code has it.  A request answered 429 leaves the server as
    it was but for [lastAccess] of the session of its own user, which
    [getSession] has refreshed before the quota is checked.  A request
    answered 400, other than POST /tabs for a URL it rejects, leaves the
    server as it was, or as it was but for [toolCalls] of the tab the
    request addresses, in the session of its own user: the per-tab routes
    count the call before they check the request. *)
Theorem rejection_changes_one_counter_at_most (env : Env) (r : request)
    (st : ServerState) :
  (status (fst (handle env r st)) = 429 ->
   exists session : Session,
     sessions st !! normalizeUserId (userOf r) = Some session /\
     snd (handle env r st)
       = putSession (normalizeUserId (userOf r)) (touched env session) st) /\
  (status (fst (handle env r st)) = 400 ->
   rejectsUrlAfterCreating env r = false ->
   snd (handle env r st) = st \/
   exists (tabId : jstring) (l : located),
     addressed r = Some (userOf r, JStr tabId) /\
     locate st (userOf r) tabId = Some l /\
     snd (handle env r st)
       = storeTab l tabId (countCall (f_tabState (l_found l))) st).
Proof.
  destruct r; cbn [handle userOf addressed rejectsUrlAfterCreating].
  - (* POST /tabs *)
    destruct (negb (truthy userId) || negb (truthy (orElse sessionKey listItemId)))%bool
      eqn:Hguard.
    { split; [discriminate|]. intros _ _. left. reflexivity. }
    apply orb_false_elim in Hguard as [Hu Hk].
    apply negb_false_iff in Hu, Hk. rewrite Hu, Hk. split.
    + intros H. apply createIn_rejects. left. exact H.
    + intros H Hurl. exfalso.
      apply createIn_400 in H as (_ & Ht & urlErr & Hv).
      rewrite Ht, Hv in Hurl. discriminate Hurl.
  - (* navigate *)
    split.
    + intros H. exfalso. revert H. apply onTab_no_429. apply navigateTab_no_429.
    + intros H _. right. exists tabId.
      destruct (onTab_rejects st userId tabId (navigateTab env url macro query)
                  (navigateTab_rejects env url macro query) (or_intror H))
        as (l & Hl & Hst).
      exists l. split; [reflexivity|]. split; assumption.
  - (* snapshot *)
    split; [intros H|intros H _]; exfalso;
      apply (onTab_never_rejects st userId tabId _
               (snapshotTab_status env annotateMain SnapshotBody)); auto.
  - (* wait *)
    unfold readTab. split; [intros H|intros H _]; no_such_status H.
  - (* click *)
    split.
    + intros H. exfalso. revert H. apply onTab_no_429. apply clickTab_no_429.
    + intros H _. right. exists tabId.
      destruct (onTab_rejects st userId tabId (clickTab env ref selector)
                  (clickTab_rejects env ref selector) (or_intror H))
        as (l & Hl & Hst).
      exists l. split; [reflexivity|]. split; assumption.
  - (* type *)
    split.
    + intros H. exfalso. revert H. apply onTab_no_429. apply typeTab_no_429.
    + intros H _. right. exists tabId.
      destruct (onTab_rejects st userId tabId (typeTab env ref selector)
                  (typeTab_rejects env ref selector) (or_intror H))
        as (l & Hl & Hst).
      exists l. split; [reflexivity|]. split; assumption.
  - (* press *)
    split; [intros H|intros H _]; exfalso;
      apply (onTab_never_rejects st userId tabId _
               (fun ts => justEngine_status env Ok (countCall ts))); auto.
  - (* scroll *)
    split; [intros H|intros H _]; exfalso;
      apply (onTab_never_rejects st userId tabId _
               (fun ts => justEngine_status env Ok (countCall ts))); auto.
  - (* back *)
    split; [intros H|intros H _]; exfalso;
      apply (onTab_never_rejects st userId tabId _
               (fun ts => moveAndRebuild_status env (countCall ts))); auto.
  - (* forward *)
    split; [intros H|intros H _]; exfalso;
      apply (onTab_never_rejects st userId tabId _
               (fun ts => moveAndRebuild_status env (countCall ts))); auto.
  - (* refresh *)
    split; [intros H|intros H _]; exfalso;
      apply (onTab_never_rejects st userId tabId _
               (fun ts => moveAndRebuild_status env (countCall ts))); auto.
  - (* links *)
    assert (Hk : forall ts : TabState,
              status (fst (linksTab env limit offset ts)) = 500 \/
              status (fst (linksTab env limit offset ts)) = 200).
    { intros ts. unfold linksTab. destruct (engine env); [right|left]; reflexivity. }
    split; [intros H|intros H _]; exfalso;
      apply (onTab_never_rejects st userId tabId _ Hk); auto.
  - (* screenshot *)
    unfold readTab. split; [intros H|intros H _]; no_such_status H.
  - (* stats *)
    unfold readTab, statsOf. split; [intros H|intros H _]; no_such_status H.
  - (* close tab *)
    unfold closeFound. split; [intros H|intros H _]; no_such_status H.
  - (* close group *)
    cbn zeta. split; [intros H|intros H _]; no_such_status H.
  - (* close session *)
    cbn zeta. split; [intros H|intros H _]; no_such_status H.
  - (* list tabs *)
    split; [intros H|intros H _]; no_such_status H.
  - (* POST /tabs/open *)
    destruct (negb (truthy userId));
      [split; [discriminate|intros _ _; left; reflexivity]|].
    destruct (negb (truthy url));
      [split; [discriminate|intros _ _; left; reflexivity]|].
    destruct (validateUrl env url);
      [split; [discriminate|intros _ _; left; reflexivity]|].
    split.
    + intros H. apply createIn_rejects. left. exact H.
    + intros H _. exfalso. apply createIn_400 in H as (Hv & _). discriminate Hv.
  - (* POST /navigate *)
    destruct (negb (truthy userId));
      [split; [discriminate|intros _ _; left; reflexivity]|].
    destruct (negb (truthy url));
      [split; [discriminate|intros _ _; left; reflexivity]|].
    destruct (validateUrl env url);
      [split; [discriminate|intros _ _; left; reflexivity]|].
    destruct (targetTab targetId) as [tabId|];
      [|split; [discriminate|intros H _; discriminate H]].
    split; [intros H|intros H _]; exfalso;
      apply (onTab_never_rejects st userId tabId _
               (fun ts => gotoAndRebuild_status env url
                            (fun u => OkTarget targetId (Some u)) (countCall ts)));
      auto.
  - (* GET /snapshot *)
    destruct (negb (truthy userId));
      [split; [discriminate|intros _ _; left; reflexivity]|].
    destruct (targetTab targetId) as [tabId|];
      [|split; [discriminate|intros H _; discriminate H]].
    split; [intros H|intros H _]; exfalso;
      apply (onTab_never_rejects st userId tabId _
               (snapshotTab_status env annotateAlias (AliasSnapshotBody targetId)));
      auto.
  - (* POST /act *)
    destruct (negb (truthy userId));
      [split; [discriminate|intros _ _; left; reflexivity]|].
    destruct (negb (truthy kind));
      [split; [discriminate|intros _ _; left; reflexivity]|].
    destruct (targetTab targetId) as [tabId|];
      [|split; [discriminate|intros H _; discriminate H]].
    destruct (locate st userId tabId) as [l|];
      [|split; [discriminate|intros H _; discriminate H]].
    cbn zeta.
    assert (Hnot : forall code : Z,
              code = 429 \/ code = 400 ->
              status
                (fst (if bool_decide (kind = JStr (lit "close"))
                      then actClose env l tabId targetId
                             (countCall (f_tabState (l_found l))) st
                      else
                        let '(resp, ts') :=
                          actTab env kind targetId ref selector text key
                            (countCall (f_tabState (l_found l))) in
                        (resp, storeTab l tabId ts' st))) = code ->
              False).
    { intros code Hcode.
      destruct (bool_decide (kind = JStr (lit "close"))).
      - unfold actClose. destruct (closePage env); simpl; intros <-;
          destruct Hcode as [E|E]; discriminate E.
      - pose proof (actTab_status env kind targetId ref selector text key
                      (countCall (f_tabState (l_found l)))) as Hs.
        destruct (actTab env kind targetId ref selector text key
                    (countCall (f_tabState (l_found l)))) as [resp ts'].
        simpl in *. intros <-.
        destruct Hs as [E|E]; rewrite E in Hcode;
          destruct Hcode as [E'|E']; discriminate E'. }
    split; [intros H|intros H _]; exfalso.
    + exact (Hnot 429 (or_introl eq_refl) H).
    + exact (Hnot 400 (or_intror eq_refl) H).
Qed.

(** Alice asks to navigate and gives neither a URL nor a macro. *)
Definition navigateNowhere : request :=
  Navigate tab1 alice JUndefined JUndefined JUndefined.

Lemma rejection_changes_one_counter_at_most_witness :
  (* a full session is asked for one more tab *)
  (status (fst (handle (calm (tabName 11) 11%nat)
                  (CreateTab alice task JUndefined JUndefined) aliceIsFull)) = 429 /\
   exists session : Session,
     sessions aliceIsFull !! lit "alice" = Some session /\
     snd (handle (calm (tabName 11) 11%nat)
            (CreateTab alice task JUndefined JUndefined) aliceIsFull)
       = putSession (lit "alice") (touched (calm (tabName 11) 11%nat) session)
           aliceIsFull) /\
  (* a navigation without URL and macro *)
  (status (fst (handle (calm tab1 1%nat) navigateNowhere aliceHasOneTab)) = 400 /\
   rejectsUrlAfterCreating (calm tab1 1%nat) navigateNowhere = false /\
   (snd (handle (calm tab1 1%nat) navigateNowhere aliceHasOneTab) = aliceHasOneTab \/
    exists (tabId : jstring) (l : located),
      addressed navigateNowhere = Some (userOf navigateNowhere, JStr tabId) /\
      locate aliceHasOneTab (userOf navigateNowhere) tabId = Some l /\
      snd (handle (calm tab1 1%nat) navigateNowhere aliceHasOneTab)
        = storeTab l tabId (countCall (f_tabState (l_found l))) aliceHasOneTab)).
Proof.
  assert (H429 : status (fst (handle (calm (tabName 11) 11%nat)
                   (CreateTab alice task JUndefined JUndefined) aliceIsFull)) = 429)
    by (vm_compute; reflexivity).
  assert (H400 : status (fst (handle (calm tab1 1%nat) navigateNowhere
                                aliceHasOneTab)) = 400)
    by (vm_compute; reflexivity).
  assert (Hurl : rejectsUrlAfterCreating (calm tab1 1%nat) navigateNowhere = false)
    by reflexivity.
  split.
  - split; [exact H429|].
    exact (proj1 (rejection_changes_one_counter_at_most (calm (tabName 11) 11%nat)
                    (CreateTab alice task JUndefined JUndefined) aliceIsFull) H429).
  - split; [exact H400|]. split; [exact Hurl|].
    exact (proj2 (rejection_changes_one_counter_at_most (calm tab1 1%nat)
                    navigateNowhere aliceHasOneTab) H400 Hurl).
Defined.

(** C6, as stated, fails: the navigate route answers 400 to a request with
    neither URL nor macro after it has counted the call, so the tab state is
    not what it was. *)
Lemma navigate_counts_the_call_it_rejects :
  status (fst (handle (calm tab1 1%nat) navigateNowhere aliceHasOneTab)) = 400 /\
  (toolCalls <$> (f_tabState <$> (l_found <$> locate aliceHasOneTab alice tab1)))
    = Some 0 /\
  (toolCalls <$> (f_tabState <$> (l_found <$>
     locate (snd (handle (calm tab1 1%nat) navigateNowhere aliceHasOneTab)) alice tab1)))
    = Some 1 /\
  snd (handle (calm tab1 1%nat) navigateNowhere aliceHasOneTab) <> aliceHasOneTab.
Proof.
  split; [vm_compute; reflexivity|]. split; [vm_compute; reflexivity|].
  split; [vm_compute; reflexivity|].
  intros Heq.
  assert (Hc : (toolCalls <$> (f_tabState <$> (l_found <$>
            locate (snd (handle (calm tab1 1%nat) navigateNowhere aliceHasOneTab))
              alice tab1))) = Some 0).
  { rewrite Heq. vm_compute. reflexivity. }
  vm_compute in Hc. discriminate Hc.
Qed.

(** *** Counting tabs *)

(** [totalTabs] on the list of groups. *)
Definition countTabs (groups : JsMap.t jsval Group) : Z :=
  fold_left (fun n group => n + JsMap.size group) (JsMap.values groups) 0.

Lemma totalTabs_countTabs (session : Session) :
  totalTabs session = countTabs (tabGroups session).
Proof. reflexivity. Qed.

Lemma fold_sizes_from (gs : list Group) (a : Z) :
  fold_left (fun n group => n + JsMap.size group) gs a
    = a + fold_left (fun n group => n + JsMap.size group) gs 0.
Proof.
  revert a. induction gs as [|g gs IH]; intros a; simpl; [lia|].
  rewrite (IH (a + JsMap.size g)), (IH (0 + JsMap.size g)). lia.
Qed.

Lemma countTabs_cons (k : jsval) (g : Group) (groups : JsMap.t jsval Group) :
  countTabs ((k, g) :: groups) = JsMap.size g + countTabs groups.
Proof. unfold countTabs. simpl. apply fold_sizes_from. Qed.

Lemma countTabs_set_known (k : jsval) (g g' : Group) (groups : JsMap.t jsval Group) :
  JsMap.get k groups = Some g ->
  countTabs (JsMap.set k g' groups) = countTabs groups - JsMap.size g + JsMap.size g'.
Proof.
  induction groups as [|[k0 g0] groups IH]; simpl; [discriminate|].
  destruct (decide (k0 = k)) as [->|Hne]; intros Hget.
  - injection Hget as ->. rewrite !countTabs_cons. lia.
  - rewrite !countTabs_cons, (IH Hget). lia.
Qed.

Lemma countTabs_set_new (k : jsval) (g' : Group) (groups : JsMap.t jsval Group) :
  JsMap.get k groups = None ->
  countTabs (JsMap.set k g' groups) = countTabs groups + JsMap.size g'.
Proof.
  induction groups as [|[k0 g0] groups IH]; simpl.
  - intros _. rewrite countTabs_cons. unfold countTabs. simpl. lia.
  - destruct (decide (k0 = k)) as [->|Hne]; intros Hget; [discriminate|].
    rewrite !countTabs_cons, (IH Hget). lia.
Qed.

Lemma countTabs_delete_known (k : jsval) (g : Group) (groups : JsMap.t jsval Group) :
  JsMap.get k groups = Some g ->
  countTabs (JsMap.delete k groups) = countTabs groups - JsMap.size g.
Proof.
  induction groups as [|[k0 g0] groups IH]; simpl; [discriminate|].
  destruct (decide (k0 = k)) as [->|Hne]; intros Hget.
  - injection Hget as ->. rewrite countTabs_cons. lia.
  - rewrite !countTabs_cons, (IH Hget). lia.
Qed.

(** *** Finding and changing a tab *)

Lemma findTabIn_none_get (groups : JsMap.t jsval Group) (tabId : jstring)
    (k : jsval) (g : Group) :
  findTabIn groups tabId = None ->
  JsMap.get k groups = Some g ->
  JsMap.get tabId g = None.
Proof.
  induction groups as [|[k0 g0] groups IH]; simpl; [discriminate|].
  destruct (JsMap.get tabId g0) eqn:Hg0; [discriminate|].
  intros Hnone. destruct (decide (k0 = k)); intros Hget.
  - injection Hget as <-. exact Hg0.
  - exact (IH Hnone Hget).
Qed.

Lemma findTabIn_some_get (groups : JsMap.t jsval Group) (tabId : jstring)
    (k : jsval) (g : Group) (ts : TabState) :
  JsMap.get k groups = Some g ->
  JsMap.get tabId g = Some ts ->
  exists f : found, findTabIn groups tabId = Some f.
Proof.
  induction groups as [|[k0 g0] groups IH]; simpl; [discriminate|].
  destruct (JsMap.get tabId g0) eqn:Hg0; [eauto|].
  destruct (decide (k0 = k)); intros Hget Hts.
  - injection Hget as <-. congruence.
  - exact (IH Hget Hts).
Qed.

(** What [findTabIn] returns is a tab of the group it returns. *)
Lemma findTabIn_sound (groups : JsMap.t jsval Group) (tabId : jstring) (f : found) :
  findTabIn groups tabId = Some f ->
  JsMap.get tabId (f_group f) = Some (f_tabState f).
Proof.
  induction groups as [|[k0 g0] groups IH]; simpl; [discriminate|].
  destruct (JsMap.get tabId g0) eqn:Hg0; [|exact IH].
  intros Hf. injection Hf as <-. exact Hg0.
Qed.

(** After a tab state has been stored, the tab is found with that state. *)
Lemma findTabIn_stored (groups : JsMap.t jsval Group) (tabId : jstring) (f : found)
    (ts : TabState) :
  findTabIn groups tabId = Some f ->
  findTabIn (changeFoundGroup groups tabId (JsMap.set tabId ts)) tabId
    = Some (mkFound ts (f_listItemId f) (JsMap.set tabId ts (f_group f))).
Proof.
  induction groups as [|[k0 g0] groups IH]; simpl; [discriminate|].
  destruct (JsMap.get tabId g0) eqn:Hg0; simpl.
  - intros Hf. injection Hf as <-. simpl.
    rewrite JsMapFacts.get_set_eq. reflexivity.
  - rewrite Hg0. exact IH.
Qed.

Lemma countTabs_changed (groups : JsMap.t jsval Group) (tabId : jstring) (f : found)
    (change : Group -> Group) :
  findTabIn groups tabId = Some f ->
  countTabs (changeFoundGroup groups tabId change)
    = countTabs groups - JsMap.size (f_group f) + JsMap.size (change (f_group f)).
Proof.
  induction groups as [|[k0 g0] groups IH]; simpl; [discriminate|].
  destruct (JsMap.get tabId g0) eqn:Hg0.
  - intros Hf. injection Hf as <-. simpl. rewrite !countTabs_cons. lia.
  - intros Hf. rewrite !countTabs_cons, (IH Hf). lia.
Qed.

(** With distinct group keys, the group that was changed is the one stored
    under the key [findTabIn] returned. *)
Lemma get_changed (groups : JsMap.t jsval Group) (tabId : jstring) (f : found)
    (change : Group -> Group) :
  NoDup (JsMap.keys groups) ->
  findTabIn groups tabId = Some f ->
  JsMap.get (f_listItemId f) (changeFoundGroup groups tabId change)
    = Some (change (f_group f)).
Proof.
  induction groups as [|[k0 g0] groups IH]; simpl; [discriminate|].
  intros Hnd. apply NoDup_cons in Hnd as [Hnotin Hnd].
  destruct (JsMap.get tabId g0) eqn:Hg0.
  - intros Hf. injection Hf as <-. simpl.
    destruct (decide (k0 = k0)); [reflexivity|congruence].
  - intros Hf. simpl. destruct (decide (k0 = f_listItemId f)) as [->|Hne].
    + exfalso. apply Hnotin. clear -Hf.
      induction groups as [|[k1 g1] groups IH]; simpl in *; [discriminate|].
      destruct (JsMap.get tabId g1).
      * injection Hf as <-. simpl. left.
      * right. exact (IH Hf).
    + exact (IH Hnd Hf).
Qed.

(** *** The tab quota *)

(** The engine opens the page, and the URL, when one is given, is allowed
    and loads. *)
Definition cooperative (env : Env) (url : jsval) : Prop :=
  (exists p : nat, newPage env = Returns p) /\
  (truthy url = false \/
   (validateUrl env url = None /\ exists u : unit, engine env = Returns u)).

Lemma quota_rejects (env : Env) (userId sessionKey listItemId url : jsval)
    (st : ServerState) (session : Session) :
  truthy userId = true ->
  truthy (orElse sessionKey listItemId) = true ->
  sessions st !! normalizeUserId userId = Some session ->
  MAX_TABS_PER_SESSION <= totalTabs session ->
  handle env (CreateTab userId sessionKey listItemId url) st
    = (tooManyTabs, putSession (normalizeUserId userId) (touched env session) st).
Proof.
  intros Hu Hk Hs Hfull. simpl. rewrite Hu, Hk. simpl.
  unfold createIn, getSession. rewrite Hs.
  replace (totalTabs _ >=? MAX_TABS_PER_SESSION) with true; [reflexivity|].
  symmetry. rewrite Z.geb_leb. apply Z.leb_le. exact Hfull.
Qed.

(** A new tab put into its group, the group made when the key is new: one
    tab more, and the tab is found. *)
Lemma register_counts (groups : JsMap.t jsval Group) (groupKey : jsval)
    (tabId : jstring) (ts : TabState) (session : Session) :
  findTabIn groups tabId = None ->
  let '(group, session1) :=
    getTabGroup (mkSession (context session) groups (lastAccess session)) groupKey in
  let groups' :=
    JsMap.set groupKey (JsMap.set tabId ts group) (tabGroups session1) in
  countTabs groups' = countTabs groups + 1 /\
  exists f : found, findTabIn groups' tabId = Some f.
Proof.
  intros Hfresh. unfold getTabGroup. simpl.
  destruct (JsMap.get groupKey groups) as [group|] eqn:Hg; simpl.
  - pose proof (findTabIn_none_get _ _ _ _ Hfresh Hg) as Hnew. split.
    + rewrite (countTabs_set_known _ _ _ _ Hg), (JsMapFacts.size_set_new _ _ _ Hnew).
      lia.
    + apply (findTabIn_some_get _ tabId groupKey (JsMap.set tabId ts group) ts).
      * apply JsMapFacts.get_set_eq.
      * apply JsMapFacts.get_set_eq.
  - split.
    + rewrite (countTabs_set_known groupKey JsMap.empty)
        by apply JsMapFacts.get_set_eq.
      rewrite (countTabs_set_new _ _ _ Hg). unfold JsMap.size. simpl.
      destruct (decide (tabId = tabId)); simpl; lia.
    + apply (findTabIn_some_get _ tabId groupKey (JsMap.set tabId ts JsMap.empty) ts).
      * apply JsMapFacts.get_set_eq.
      * apply JsMapFacts.get_set_eq.
Qed.

Lemma quota_admits (env : Env) (userId sessionKey listItemId url : jsval)
    (st : ServerState) (session : Session) :
  truthy userId = true ->
  truthy (orElse sessionKey listItemId) = true ->
  sessions st !! normalizeUserId userId = Some session ->
  cooperative env url ->
  totalTabs session < MAX_TABS_PER_SESSION ->
  holdsTab st userId (JStr (randomUUID env)) = false ->
  let result := handle env (CreateTab userId sessionKey listItemId url) st in
  exists (session' : Session) (p : nat),
    newPage env = Returns p /\
    fst result = ok (Created (randomUUID env) (pageUrl env p)) /\
    pagesCreated (snd result) = p :: pagesCreated st /\
    sessions (snd result) !! normalizeUserId userId = Some session' /\
    totalTabs session' = totalTabs session + 1 /\
    holdsTab (snd result) userId (JStr (randomUUID env)) = true.
Proof.
  intros Hu Hk Hs [[p Hp] Hurl] Hroom Hfresh.
  assert (Hnone : findTabIn (tabGroups session) (randomUUID env) = None).
  { unfold holdsTab in Hfresh. simpl in Hfresh. rewrite Hs in Hfresh.
    unfold findTab in Hfresh.
    destruct (findTabIn (tabGroups session) (randomUUID env)); [discriminate|reflexivity]. }
  simpl. rewrite Hu, Hk. simpl. unfold createIn, getSession. rewrite Hs.
  replace (totalTabs _ >=? MAX_TABS_PER_SESSION) with false
    by (symmetry; rewrite Z.geb_leb; apply Z.leb_gt; exact Hroom).
  assert (Hreg : forall ts : TabState,
    let '(group, session1) :=
      getTabGroup (mkSession (context session) (tabGroups session) (now env))
        (orElse sessionKey listItemId) in
    let groups' :=
      JsMap.set (orElse sessionKey listItemId)
        (JsMap.set (randomUUID env) ts group) (tabGroups session1) in
    countTabs groups' = countTabs (tabGroups session) + 1 /\
    exists f : found, findTabIn groups' (randomUUID env) = Some f).
  { intros ts.
    exact (register_counts (tabGroups session) (orElse sessionKey listItemId)
             (randomUUID env) ts
             (mkSession (context session) (tabGroups session) (now env)) Hnone). }
  destruct (getTabGroup _ (orElse sessionKey listItemId)) as [group session1].
  rewrite Hp.
  assert (Hdone : forall ts : TabState,
    let st' :=
      mkServerState
        (<[normalizeUserId userId :=
             mkSession (context session1)
               (JsMap.set (orElse sessionKey listItemId)
                  (JsMap.set (randomUUID env) ts group) (tabGroups session1))
               (lastAccess session1)]>
           (<[normalizeUserId userId :=
                mkSession (context session) (tabGroups session) (now env)]>
              (sessions st)))
        (p :: pagesCreated st) in
    exists session' : Session,
      sessions st' !! normalizeUserId userId = Some session' /\
      totalTabs session' = totalTabs session + 1 /\
      holdsTab st' userId (JStr (randomUUID env)) = true).
  { intros ts. destruct (Hreg ts) as [Hcount [f Hf]].
    eexists. split; [apply lookup_insert_eq|]. split.
    - rewrite !totalTabs_countTabs. simpl. exact Hcount.
    - unfold holdsTab. simpl. rewrite lookup_insert_eq. unfold findTab. simpl.
      rewrite Hf. reflexivity. }
  destruct Hurl as [Hno|[Hvalid [u Hgo]]].
  - rewrite Hno. destruct (Hdone (createTabState p)) as (session' & H1 & H2 & H3).
    exists session', p. simpl. repeat split; assumption || reflexivity.
  - destruct (truthy url).
    + rewrite Hvalid, Hgo.
      destruct (Hdone (addVisited url (createTabState p))) as (session' & H1 & H2 & H3).
      exists session', p. simpl. repeat split; assumption || reflexivity.
    + destruct (Hdone (createTabState p)) as (session' & H1 & H2 & H3).
      exists session', p. simpl. repeat split; assumption || reflexivity.
Qed.

(** DELETE /tabs/:tabId on a tab of the session: one tab less. *)
Lemma close_frees_one_slot (env : Env) (userId : jsval) (tabId : jstring)
    (st : ServerState) (session : Session) :
  sessions st !! normalizeUserId userId = Some session ->
  NoDup (JsMap.keys (tabGroups session)) ->
  holdsTab st userId (JStr tabId) = true ->
  (exists u : unit, closePage env = Returns u) ->
  let result := handle env (CloseTab tabId userId) st in
  exists session' : Session,
    fst result = ok Ok /\
    sessions (snd result) !! normalizeUserId userId = Some session' /\
    totalTabs session' = totalTabs session - 1.
Proof.
  intros Hs Hnd Hheld [u Hclose].
  unfold holdsTab in Hheld. simpl in Hheld. rewrite Hs in Hheld.
  destruct (findTab session tabId) as [f|] eqn:Hf; [clear Hheld|discriminate].
  simpl. unfold locate. rewrite Hs, Hf. unfold closeFound. rewrite Hclose. simpl.
  unfold findTab in Hf.
  pose proof (findTabIn_sound _ _ _ Hf) as Hin.
  pose proof (countTabs_changed _ _ _ (JsMap.delete tabId) Hf) as Hcount.
  rewrite (JsMapFacts.size_delete_known _ _ _ Hin) in Hcount.
  eexists. split; [reflexivity|]. split; [apply lookup_insert_eq|].
  rewrite !totalTabs_countTabs. simpl.
  destruct (JsMap.size (JsMap.delete tabId (f_group f)) =? 0) eqn:Hempty.
  - apply Z.eqb_eq in Hempty.
    rewrite (countTabs_delete_known _ _ _
               (get_changed _ _ _ (JsMap.delete tabId) Hnd Hf)).
    lia.
  - lia.
Qed.


(** C5.  For a session that holds fewer than [MAX_TABS_PER_SESSION] tabs,
    summed over its groups, POST /tabs with its required fields succeeds
    (the engine opening the page and loading the URL, the new identifier not
    yet in the session): the answer is 200, the new tab is in the session,
    which now holds one tab more.  For a session that holds
    [MAX_TABS_PER_SESSION] tabs or more the answer is 429, whatever the URL
    and whatever the engine would do, and the server is as before but for
    [lastAccess] of the session: no tab, no group, no page.  From a full
    session, after DELETE /tabs/:tabId has closed one of its tabs, one
    creation succeeds and the next one is answered 429. *)
Theorem tab_quota (envC env1 env2 : Env) (userId sessionKey listItemId url : jsval)
    (tabId : jstring) (st : ServerState) (session : Session) :
  truthy userId = true ->
  truthy (orElse sessionKey listItemId) = true ->
  sessions st !! normalizeUserId userId = Some session ->
  let create :=
    fun (env : Env) (s : ServerState) =>
      handle env (CreateTab userId sessionKey listItemId url) s in
  (cooperative env1 url ->
   totalTabs session < MAX_TABS_PER_SESSION ->
   holdsTab st userId (JStr (randomUUID env1)) = false ->
   status (fst (create env1 st)) = 200 /\
   holdsTab (snd (create env1 st)) userId (JStr (randomUUID env1)) = true /\
   totalTabs <$> (sessions (snd (create env1 st)) !! normalizeUserId userId)
     = Some (totalTabs session + 1)) /\
  (MAX_TABS_PER_SESSION <= totalTabs session ->
   create env1 st
     = (tooManyTabs, putSession (normalizeUserId userId) (touched env1 session) st)) /\
  (cooperative env1 url ->
   totalTabs session = MAX_TABS_PER_SESSION ->
   NoDup (JsMap.keys (tabGroups session)) ->
   holdsTab st userId (JStr tabId) = true ->
   (exists u : unit, closePage envC = Returns u) ->
   holdsTab (snd (handle envC (CloseTab tabId userId) st)) userId
     (JStr (randomUUID env1)) = false ->
   fst (handle envC (CloseTab tabId userId) st) = ok Ok /\
   status (fst (create env1 (snd (handle envC (CloseTab tabId userId) st)))) = 200 /\
   fst (create env2
          (snd (create env1 (snd (handle envC (CloseTab tabId userId) st)))))
     = tooManyTabs).
Proof.
  intros Hu Hk Hs create. split; [|split].
  - intros Hcoop Hroom Hfresh.
    destruct (quota_admits env1 userId sessionKey listItemId url st session
                Hu Hk Hs Hcoop Hroom Hfresh)
      as (session' & p & _ & Hresp & _ & Hs' & Hcount & Hheld).
    unfold create. rewrite Hresp, Hs', Hheld. simpl. rewrite Hcount. auto.
  - intros Hfull. apply quota_rejects; assumption.
  - intros Hcoop Hfull Hnd Hheld Hclose Hfresh.
    destruct (close_frees_one_slot envC userId tabId st session Hs Hnd Hheld Hclose)
      as (session1 & Hresp1 & Hs1 & Hcount1).
    split; [exact Hresp1|].
    assert (Hroom : totalTabs session1 < MAX_TABS_PER_SESSION) by lia.
    destruct (quota_admits env1 userId sessionKey listItemId url _ session1
                Hu Hk Hs1 Hcoop Hroom Hfresh)
      as (session2 & p & _ & Hresp2 & _ & Hs2 & Hcount2 & _).
    unfold create. rewrite Hresp2. split; [reflexivity|].
    rewrite (quota_rejects env2 userId sessionKey listItemId url _ session2 Hu Hk Hs2)
      by lia.
    reflexivity.
Qed.

Lemma tab_quota_witness :
  (* a full session: the next creation is turned away, also one for a file:
     URL from an engine that cannot open a page; after a close exactly one
     creation is let in *)
  (totalTabs (sessionOfAlice aliceIsFull) = MAX_TABS_PER_SESSION /\
   fst (handle (calm (tabName 11) 11%nat) (CreateTab alice task JUndefined JUndefined)
          aliceIsFull) = tooManyTabs /\
   fst (handle (noPage (tabName 11))
          (CreateTab alice task JUndefined (JStr (lit "file:///etc/passwd")))
          aliceIsFull) = tooManyTabs /\
   status (fst (handle (calm (tabName 11) 11%nat)
                  (CreateTab alice task JUndefined JUndefined)
                  (snd (handle (calm tab1 0%nat) (CloseTab (tabName 3) alice)
                          aliceIsFull)))) = 200 /\
   fst (handle (calm (tabName 12) 12%nat) (CreateTab alice task JUndefined JUndefined)
          (snd (handle (calm (tabName 11) 11%nat)
                  (CreateTab alice task JUndefined JUndefined)
                  (snd (handle (calm tab1 0%nat) (CloseTab (tabName 3) alice)
                          aliceIsFull))))) = tooManyTabs) /\
  (* a session with one tab: the creation succeeds *)
  (totalTabs (sessionOfAlice aliceHasOneTab) < MAX_TABS_PER_SESSION /\
   status (fst (handle (calm (tabName 2) 2%nat)
                  (CreateTab alice task JUndefined JUndefined) aliceHasOneTab)) = 200).
Proof.
  assert (Hcoop : forall (uuid : jstring) (p : nat), cooperative (calm uuid p) JUndefined).
  { intros uuid p. split; [exists p; reflexivity|left; reflexivity]. }
  split.
  - destruct (tab_quota (calm tab1 0%nat) (calm (tabName 11) 11%nat)
                (calm (tabName 12) 12%nat) alice task JUndefined JUndefined
                (tabName 3) aliceIsFull (sessionOfAlice aliceIsFull))
      as (_ & Hfull & Hclose);
      [reflexivity|reflexivity|vm_compute; reflexivity|].
    destruct (tab_quota (calm tab1 0%nat) (noPage (tabName 11))
                (calm (tabName 12) 12%nat) alice task JUndefined
                (JStr (lit "file:///etc/passwd"))
                (tabName 3) aliceIsFull (sessionOfAlice aliceIsFull))
      as (_ & Hfile & _);
      [reflexivity|reflexivity|vm_compute; reflexivity|].
    split; [vm_compute; reflexivity|].
    split; [rewrite Hfull; [reflexivity|vm_compute; discriminate]|].
    split; [rewrite Hfile; [reflexivity|vm_compute; discriminate]|].
    destruct Hclose as (_ & Hone & Hnext).
    + apply Hcoop.
    + vm_compute; reflexivity.
    + apply (bool_decide_unpack _). vm_compute. exact I.
    + vm_compute; reflexivity.
    + exists tt. reflexivity.
    + vm_compute; reflexivity.
    + split; [exact Hone|exact Hnext].
  - destruct (tab_quota (calm tab1 0%nat) (calm (tabName 2) 2%nat)
                (calm (tabName 12) 12%nat) alice task JUndefined JUndefined
                tab1 aliceHasOneTab (sessionOfAlice aliceHasOneTab))
      as (Hroom & _ & _);
      [reflexivity|reflexivity|vm_compute; reflexivity|].
    split; [vm_compute; reflexivity|].
    destruct Hroom as (Hok & _ & _);
      [apply Hcoop|vm_compute; reflexivity|vm_compute; reflexivity|exact Hok].
Defined.

(** *** The reference table across a page-changing request *)

(** The routes that change the page and then rebuild the table: navigate,
    click, back, forward, refresh, and the alias forms of navigate and
    click; with the user and the tab they address. *)
Definition rebuilds (r : request) : option (jsval * jstring) :=
  match r with
  | Navigate tabId userId _ _ _ | Click tabId userId _ _ | Back tabId userId
  | Forward tabId userId | Refresh tabId userId => Some (userId, tabId)
  | NavigateAlias (JStr tabId) _ userId => Some (userId, tabId)
  | Act kind (JStr tabId) userId _ _ _ _ =>
      if bool_decide (kind = JStr (lit "click")) then Some (userId, tabId) else None
  | _ => None
  end.

(** The reference table of a tab of a user. *)
Definition refsAt (st : ServerState) (userId : jsval) (tabId : jstring)
    : option refTable :=
  (fun l => refs (f_tabState (l_found l))) <$> locate st userId tabId.

(** What the claim asks of the body of a route: on 200 the table is the one
    [buildRefs] has just built, otherwise it is the table of before. *)
Definition replacesOnSuccess (env : Env) (k : TabState -> response * TabState) : Prop :=
  forall ts : TabState,
    (status (fst (k ts)) = 200 ->
     exists fresh : refTable,
       buildRefs env = Returns fresh /\ refs (snd (k ts)) = fresh) /\
    (status (fst (k ts)) <> 200 -> refs (snd (k ts)) = refs ts).

Ltac settle_replaces :=
  split; simpl; intros Hst;
  first [ discriminate Hst
        | exfalso; apply Hst; reflexivity
        | reflexivity
        | eexists; split; reflexivity ].

Lemma gotoAndRebuild_replaces (env : Env) (url : jsval) (reply : jstring -> body) :
  replacesOnSuccess env (fun ts => gotoAndRebuild env url reply (countCall ts)).
Proof.
  intros ts. unfold gotoAndRebuild.
  destruct (engine env); [|settle_replaces].
  destruct (buildRefs env); settle_replaces.
Qed.

Lemma moveAndRebuild_replaces (env : Env) :
  replacesOnSuccess env (fun ts => moveAndRebuild env (countCall ts)).
Proof.
  intros ts. unfold moveAndRebuild.
  destruct (engine env); [|settle_replaces].
  destruct (buildRefs env); settle_replaces.
Qed.

Lemma navigateTab_replaces (env : Env) (url macro query : jsval) :
  replacesOnSuccess env (navigateTab env url macro query).
Proof.
  intros ts. unfold navigateTab.
  destruct (negb (truthy _)); [settle_replaces|].
  destruct (validateUrl env _); [settle_replaces|].
  apply (gotoAndRebuild_replaces env _ OkUrl ts).
Qed.

Lemma clickTab_replaces (env : Env) (ref selector : jsval) :
  replacesOnSuccess env (clickTab env ref selector).
Proof.
  intros ts. unfold clickTab.
  destruct (negb (truthy ref) && negb (truthy selector))%bool; [settle_replaces|].
  destruct (truthy ref && negb (refIsKnown ref (refs (countCall ts))))%bool;
    [settle_replaces|].
  destruct (engine env); [|settle_replaces].
  destruct (buildRefs env); settle_replaces.
Qed.

Lemma actClick_replaces (env : Env) (targetId ref selector text key : jsval) :
  replacesOnSuccess env
    (fun ts => actTab env (JStr (lit "click")) targetId ref selector text key
                 (countCall ts)).
Proof.
  intros ts. unfold actTab.
  replace (bool_decide (JStr (lit "click") = JStr (lit "click"))) with true
    by (vm_compute; reflexivity).
  destruct (negb (truthy ref) && negb (truthy selector))%bool; [settle_replaces|].
  destruct (truthy ref && negb (refIsKnown ref (refs (countCall ts))))%bool;
    [settle_replaces|].
  destruct (engine env); [|settle_replaces].
  destruct (buildRefs env); settle_replaces.
Qed.

Lemma refsAt_storeTab (st : ServerState) (userId : jsval) (tabId : jstring)
    (l : located) (ts : TabState) :
  locate st userId tabId = Some l ->
  refsAt (storeTab l tabId ts st) userId tabId = Some (refs ts).
Proof.
  unfold refsAt, locate.
  destruct (sessions st !! normalizeUserId userId) as [session|] eqn:Hs;
    [|discriminate].
  destruct (findTab session tabId) as [f|] eqn:Hf; [|discriminate].
  intros Hl. injection Hl as <-. simpl. rewrite lookup_insert_eq.
  unfold findTab in *. simpl. rewrite (findTabIn_stored _ _ _ ts Hf). reflexivity.
Qed.

(** A route through [onTab] passes the property of its body on to the
    server state. *)
Lemma onTab_replaces (env : Env) (st : ServerState) (userId : jsval)
    (tabId : jstring) (k : TabState -> response * TabState) (table : refTable) :
  replacesOnSuccess env k ->
  refsAt st userId tabId = Some table ->
  (status (fst (onTab st userId tabId k)) = 200 ->
   exists fresh : refTable,
     buildRefs env = Returns fresh /\
     refsAt (snd (onTab st userId tabId k)) userId tabId = Some fresh) /\
  (status (fst (onTab st userId tabId k)) <> 200 ->
   refsAt (snd (onTab st userId tabId k)) userId tabId = Some table).
Proof.
  intros Hk Hrefs. unfold onTab.
  destruct (locate st userId tabId) as [l|] eqn:Hl.
  - assert (Htable : refs (f_tabState (l_found l)) = table).
    { unfold refsAt in Hrefs. rewrite Hl in Hrefs. injection Hrefs as <-. reflexivity. }
    destruct (Hk (f_tabState (l_found l))) as [Hok Hfail].
    destruct (k (f_tabState (l_found l))) as [resp ts]. simpl in *.
    rewrite (refsAt_storeTab _ _ _ _ ts Hl). split.
    + intros H200. destruct (Hok H200) as (fresh & Hb & Hr).
      exists fresh. split; [exact Hb|]. rewrite Hr. reflexivity.
    + intros H. rewrite (Hfail H), Htable. reflexivity.
  - unfold refsAt in Hrefs. rewrite Hl in Hrefs. discriminate Hrefs.
Qed.

(** C7.  For a request that changes the page of a tab (navigate, click,
    back, forward, refresh, also sent through the alias routes): if the
    answer is not 200, the reference table of the tab is the table of before
    the request; if it is 200, the table is the one [buildRefs] built after
    the page had changed, whole. *)
Theorem refs_are_replaced_on_success_only (env : Env) (r : request) (userId : jsval)
    (tabId : jstring) (st : ServerState) (table : refTable) :
  rebuilds r = Some (userId, tabId) ->
  refsAt st userId tabId = Some table ->
  (status (fst (handle env r st)) = 200 ->
   exists fresh : refTable,
     buildRefs env = Returns fresh /\
     refsAt (snd (handle env r st)) userId tabId = Some fresh) /\
  (status (fst (handle env r st)) <> 200 ->
   refsAt (snd (handle env r st)) userId tabId = Some table).
Proof.
  intros Hr Hrefs.
  assert (Hkeep : forall resp : response,
            status resp = 400 ->
            (status resp = 200 ->
             exists fresh : refTable,
               buildRefs env = Returns fresh /\ refsAt st userId tabId = Some fresh) /\
            (status resp <> 200 -> refsAt st userId tabId = Some table)).
  { intros resp H400. split; [intros H; rewrite H in H400; discriminate H400|].
    intros _. exact Hrefs. }
  destruct r; simpl in Hr; try discriminate Hr.
  - injection Hr as <- <-. simpl.
    apply onTab_replaces; [apply navigateTab_replaces|exact Hrefs].
  - injection Hr as <- <-. simpl.
    apply onTab_replaces; [apply clickTab_replaces|exact Hrefs].
  - injection Hr as <- <-. simpl.
    apply onTab_replaces; [apply moveAndRebuild_replaces|exact Hrefs].
  - injection Hr as <- <-. simpl.
    apply onTab_replaces; [apply moveAndRebuild_replaces|exact Hrefs].
  - injection Hr as <- <-. simpl.
    apply onTab_replaces; [apply moveAndRebuild_replaces|exact Hrefs].
  - destruct targetId; try discriminate Hr. injection Hr as <- <-. simpl.
    destruct (negb (truthy userId0)); [apply Hkeep; reflexivity|].
    destruct (negb (truthy url)); [apply Hkeep; reflexivity|].
    destruct (validateUrl env url); [apply Hkeep; reflexivity|].
    apply onTab_replaces; [|exact Hrefs].
    apply (gotoAndRebuild_replaces env url (fun u => OkTarget (JStr s) (Some u))).
  - destruct targetId; try discriminate Hr.
    destruct (bool_decide (kind = JStr (lit "click"))) eqn:Hkind; [|discriminate Hr].
    apply bool_decide_eq_true in Hkind. subst kind.
    injection Hr as <- <-. simpl.
    destruct (negb (truthy userId0)); [apply Hkeep; reflexivity|].
    pose proof (onTab_replaces env st userId0 s
                  (fun ts => actTab env (JStr (lit "click")) (JStr s) ref selector
                               text key (countCall ts))
                  table (actClick_replaces env (JStr s) ref selector text key) Hrefs)
      as Hon.
    unfold onTab in Hon. exact Hon.
Qed.

(** A page on which the engine finds one button. *)
Definition oneButton : Env :=
  mkEnv 2000 false sampleProtocol (fun _ _ => None) (Returns 7%nat) (Returns 1%nat) tab1
    (Returns tt) false (Returns (Some (litq "- button `OK`")))
    (Returns (Some (litq "- button `OK`"))) true
    (fun _ => lit "https://example.com/") (fun _ => []) [] (Returns tt) (Returns tt).

Lemma refs_are_replaced_on_success_only_witness :
  rebuilds (Refresh tab1 alice) = Some (alice, tab1) /\
  refsAt aliceHasOneTab alice tab1 = Some JsMap.empty /\
  (status (fst (handle oneButton (Refresh tab1 alice) aliceHasOneTab)) = 200 ->
   exists fresh : refTable,
     buildRefs oneButton = Returns fresh /\
     refsAt (snd (handle oneButton (Refresh tab1 alice) aliceHasOneTab)) alice tab1
       = Some fresh) /\
  (status (fst (handle oneButton (Refresh tab1 alice) aliceHasOneTab)) <> 200 ->
   refsAt (snd (handle oneButton (Refresh tab1 alice) aliceHasOneTab)) alice tab1
     = Some JsMap.empty).
Proof.
  split; [reflexivity|]. split; [vm_compute; reflexivity|].
  apply (refs_are_replaced_on_success_only oneButton (Refresh tab1 alice) alice tab1
           aliceHasOneTab JsMap.empty); vm_compute; reflexivity.
Defined.

End ServerFacts.

(** ** Decimal numerals *)

Module JsFacts.

Lemma uint_chars_length (d : Decimal.uint) :
  length (uint_chars d) = Decimal.nb_digits d.
Proof. induction d; simpl; congruence. Qed.

Lemma uint_chars_inj (d d' : Decimal.uint) :
  uint_chars d = uint_chars d' -> d = d'.
Proof.
  revert d'. induction d; intros d' H; destruct d'; simpl in H;
    try discriminate H; try reflexivity;
    injection H as H; f_equal; auto.
Qed.

(** The characters of a numeral are digits. *)
Lemma uint_chars_digits (d : Decimal.uint) :
  Forall (fun c : char => (48 <= c <= 57)%N) (uint_chars d).
Proof. induction d; simpl; constructor; try assumption; lia. Qed.

Lemma nat_chars_inj (n m : N) : nat_chars n = nat_chars m -> n = m.
Proof.
  unfold nat_chars. intros H. apply uint_chars_inj in H.
  rewrite <- (DecimalN.Unsigned.of_to n), <- (DecimalN.Unsigned.of_to m), H.
  reflexivity.
Qed.

Lemma int_chars_nonneg (z : Z) : 0 <= z -> int_chars z = nat_chars (Z.to_N z).
Proof.
  intros Hz. unfold int_chars.
  destruct (Z.ltb_spec z 0) as [?|_]; [lia|reflexivity].
Qed.

(** Different non-negative integers have different numerals. *)
Lemma int_chars_inj (a b : Z) :
  0 <= a -> 0 <= b -> int_chars a = int_chars b -> a = b.
Proof.
  intros Ha Hb. rewrite !int_chars_nonneg by assumption.
  intros H. apply nat_chars_inj in H. lia.
Qed.

Lemma int_chars_digits (z : Z) :
  0 <= z -> Forall (fun c : char => (48 <= c <= 57)%N) (int_chars z).
Proof.
  intros Hz. rewrite int_chars_nonneg by assumption. apply uint_chars_digits.
Qed.

Lemma of_uint_acc_lower (d : Decimal.uint) (acc : positive) :
  (N.pos acc * 10 ^ N.of_nat (Decimal.nb_digits d) <= N.pos (Pos.of_uint_acc d acc))%N.
Proof.
  revert acc.
  induction d as [|d IH|d IH|d IH|d IH|d IH|d IH|d IH|d IH|d IH|d IH];
    intros acc; cbn [Pos.of_uint_acc Decimal.nb_digits];
    [rewrite N.pow_0_r; lia| | | | | | | | | | ];
    rewrite Nat2N.inj_succ, N.pow_succ_r';
    (etransitivity; [|apply IH]);
    rewrite N.mul_assoc; apply N.mul_le_mono_r; lia.
Qed.

(** A number below [10 ^ k] has at most [k] digits. *)
Lemma nat_chars_length (n : N) (k : nat) :
  (0 < k)%nat -> (n < 10 ^ N.of_nat k)%N -> (length (nat_chars n) <= k)%nat.
Proof.
  intros Hk Hn. unfold nat_chars. rewrite uint_chars_length.
  destruct n as [|p]; [simpl; lia|].
  pose proof (DecimalN.Unsigned.of_to (N.pos p)) as Hof.
  pose proof (DecimalN.Unsigned.to_of (N.to_uint (N.pos p))) as Hnorm.
  rewrite Hof in Hnorm.
  assert (Hhead : forall (l : Decimal.uint) (h : positive),
            N.of_uint (N.to_uint (N.pos p)) = N.pos (Pos.of_uint_acc l h) ->
            (S (Decimal.nb_digits l) <= k)%nat).
  { intros l h E. rewrite Hof in E.
    pose proof (of_uint_acc_lower l h) as Hlow. rewrite <- E in Hlow.
    assert (Hlt : (10 ^ N.of_nat (Decimal.nb_digits l) < 10 ^ N.of_nat k)%N).
    { eapply N.le_lt_trans; [|exact Hn].
      eapply N.le_trans; [|exact Hlow].
      rewrite <- (N.mul_1_l (10 ^ _)) at 1. apply N.mul_le_mono_r. lia. }
    apply N.pow_lt_mono_r_iff in Hlt; lia. }
  destruct (N.to_uint (N.pos p)) as [|l|l|l|l|l|l|l|l|l|l] eqn:Hd;
    cbn [Decimal.nb_digits];
    try (apply (Hhead l _ eq_refl)).
  - lia.
  - (* a leading zero is not there *)
    exfalso. unfold Decimal.unorm in Hnorm. cbn [Decimal.nzhead] in Hnorm.
    pose proof (nb_digits_nzhead l) as Hle.
    destruct (Decimal.nzhead l) eqn:Hz; try discriminate Hnorm.
    + injection Hnorm as Hl. rewrite Hl in Hof. discriminate Hof.
    + injection Hnorm as Hl. rewrite Hl in Hle. simpl in Hle. lia.
Qed.

Lemma int_chars_length (z : Z) (k : nat) :
  (0 < k)%nat -> 0 <= z < 10 ^ Z.of_nat k -> len (int_chars z) <= Z.of_nat k.
Proof.
  intros Hk [Hz Hlt]. rewrite int_chars_nonneg by assumption.
  unfold len. apply Nat2Z.inj_le. apply nat_chars_length; [exact Hk|].
  apply N2Z.inj_lt. rewrite Z2N.id by assumption.
  rewrite N2Z.inj_pow, nat_N_Z. exact Hlt.
Qed.

End JsFacts.

(** ** More on the snapshot window *)

Module SnapshotMore.
Import Snapshot.

#[local] Arguments windowSnapshot : simpl never.

Lemma clampOffset_range (total off : Z) :
  SNAPSHOT_TAIL_CHARS <= total ->
  0 <= clampOffset total off <= total - SNAPSHOT_TAIL_CHARS.
Proof. unfold clampOffset. lia. Qed.

Lemma clampOffset_idem (total off : Z) :
  SNAPSHOT_TAIL_CHARS <= total ->
  clampOffset total (clampOffset total off) = clampOffset total off.
Proof. unfold clampOffset. lia. Qed.

(** The window depends on the offset through its clamped value only. *)
Lemma windowSnapshot_clamped (yaml : jstring) (off : Z) :
  windowSnapshot (Some yaml) off
    = windowSnapshot (Some yaml) (clampOffset (len yaml) off).
Proof.
  unfold windowSnapshot. destruct yaml as [|c rest]; [reflexivity|].
  destruct (Z.leb_spec (len (c :: rest)) MAX_SNAPSHOT_CHARS) as [|Hlong];
    [reflexivity|].
  rewrite clampOffset_idem; [reflexivity|].
  assert (MAX_SNAPSHOT_CHARS = 80000) by reflexivity.
  assert (SNAPSHOT_TAIL_CHARS = 5000) by reflexivity. lia.
Qed.

Lemma tailOf_drop (yaml : jstring) :
  SNAPSHOT_TAIL_CHARS <= len yaml ->
  tailOf yaml = drop (length yaml - Z.to_nat SNAPSHOT_TAIL_CHARS) yaml.
Proof.
  intros Hlen. unfold tailOf, slice_from, slice, slice_index.
  assert (Ht : SNAPSHOT_TAIL_CHARS = 5000) by reflexivity.
  destruct (Z.ltb_spec (- SNAPSHOT_TAIL_CHARS) 0) as [_|?]; [|lia].
  destruct (Z.ltb_spec (len yaml) 0) as [?|_]; [unfold len in *; lia|].
  rewrite Z.max_l, Z.min_l by lia.
  replace (Z.to_nat (len yaml + - SNAPSHOT_TAIL_CHARS))
    with (length yaml - Z.to_nat SNAPSHOT_TAIL_CHARS)%nat by (unfold len in *; lia).
  apply take_ge. rewrite length_drop. unfold len in *. lia.
Qed.

(** X1.  Whatever the offset, the window of a text longer than
    [MAX_SNAPSHOT_CHARS] is truncated, reports the length of the text, starts
    at the offset clamped into [0, length - 5000] (a negative offset is 0, an
    offset past the tail boundary is the tail boundary), and is made of up to
    74800 characters of the text from there, a marker, and the last 5000
    characters of the text. *)
Theorem window_at_any_offset (yaml : jstring) (off : Z) :
  MAX_SNAPSHOT_CHARS < len yaml ->
  truncated (windowSnapshot (Some yaml) off) = true /\
  totalChars (windowSnapshot (Some yaml) off) = len yaml /\
  (off <= 0 -> offset (windowSnapshot (Some yaml) off) = 0) /\
  (0 <= off <= len yaml - 5000 -> offset (windowSnapshot (Some yaml) off) = off) /\
  (len yaml - 5000 <= off ->
   offset (windowSnapshot (Some yaml) off) = len yaml - 5000) /\
  exists mark : jstring,
    text (windowSnapshot (Some yaml) off)
      = take (Z.to_nat 74800)
          (drop (Z.to_nat (offset (windowSnapshot (Some yaml) off))) yaml)
          ++ mark ++ drop (length yaml - Z.to_nat 5000) yaml.
Proof.
  intros Hlong.
  assert (Hm : MAX_SNAPSHOT_CHARS = 80000) by reflexivity.
  assert (Ht : SNAPSHOT_TAIL_CHARS = 5000) by reflexivity.
  pose proof (clampOffset_range (len yaml) off ltac:(lia)) as Hrange.
  rewrite (windowSnapshot_clamped yaml off).
  rewrite (SnapshotFacts.windowSnapshot_long yaml _ Hlong Hrange). simpl.
  split; [reflexivity|]. split; [reflexivity|].
  split; [unfold clampOffset; lia|]. split; [unfold clampOffset; lia|].
  split; [unfold clampOffset; lia|].
  eexists. rewrite (SnapshotFacts.chunkAt_take_drop yaml) by lia.
  rewrite (tailOf_drop yaml) by lia.
  reflexivity.
Qed.

Lemma window_at_any_offset_witness :
  MAX_SNAPSHOT_CHARS < len (SnapshotFacts.xs 100000) /\
  offset (windowSnapshot (Some (SnapshotFacts.xs 100000)) (-1000)) = 0 /\
  offset (windowSnapshot (Some (SnapshotFacts.xs 100000)) 200000) = 95000.
Proof.
  split; [vm_compute; reflexivity|].
  destruct (window_at_any_offset (SnapshotFacts.xs 100000) (-1000))
    as (_ & _ & Hneg & _); [vm_compute; reflexivity|].
  destruct (window_at_any_offset (SnapshotFacts.xs 100000) 200000)
    as (_ & _ & _ & _ & Hpast & _); [vm_compute; reflexivity|].
  split; [apply Hneg; lia|].
  rewrite Hpast; [vm_compute; reflexivity|vm_compute; discriminate].
Defined.

Lemma marker_length (chunkEnd total : Z) :
  len (marker true chunkEnd total)
    = 99 + 2 * len (int_chars chunkEnd) + len (int_chars total).
Proof.
  unfold marker. rewrite !SnapshotFacts.len_app.
  replace (len (lit (String "010" "[... truncated at char "))) with 24
    by (vm_compute; reflexivity).
  replace (len (lit " of ")) with 4 by (vm_compute; reflexivity).
  replace (len (lit ". Call snapshot with offset=")) with 28
    by (vm_compute; reflexivity).
  replace (len (lit (" to see more. Pagination links below. ...]" ++ String "010" "")))
    with 43 by (vm_compute; reflexivity).
  lia.
Qed.

(** X2.  No window is longer than [MAX_SNAPSHOT_CHARS]: for every text a
    JavaScript string can hold (fewer than 2^53 characters) and every offset,
    content, marker and tail together stay within the budget; the 200
    characters set aside for the marker are enough. *)
Theorem window_fits_the_budget (yaml : jstring) (off : Z) :
  len yaml < 2 ^ 53 ->
  len (text (windowSnapshot (Some yaml) off)) <= MAX_SNAPSHOT_CHARS.
Proof.
  intros Hjs.
  assert (Hm : MAX_SNAPSHOT_CHARS = 80000) by reflexivity.
  assert (Ht : SNAPSHOT_TAIL_CHARS = 5000) by reflexivity.
  assert (Hb : contentBudget = 74800) by reflexivity.
  destruct (Z.le_gt_cases (len yaml) MAX_SNAPSHOT_CHARS) as [Hshort|Hlong].
  - destruct (SnapshotFacts.windowSnapshot_short_text_unchanged yaml Hshort)
      as [Htext _].
    rewrite (windowSnapshot_clamped yaml off).
    unfold windowSnapshot in *. destruct yaml as [|c rest]; [simpl; lia|].
    destruct (Z.leb_spec (len (c :: rest)) MAX_SNAPSHOT_CHARS); [simpl; lia|lia].
  - pose proof (clampOffset_range (len yaml) off ltac:(lia)) as Hrange.
    rewrite (windowSnapshot_clamped yaml off).
    rewrite (SnapshotFacts.windowSnapshot_long yaml _ Hlong Hrange). simpl.
    set (o := clampOffset (len yaml) off) in *.
    rewrite !SnapshotFacts.len_app.
    assert (Hchunk : len (chunkAt yaml o) <= 74800).
    { rewrite (SnapshotFacts.chunkAt_take_drop yaml o) by lia.
      unfold len. rewrite length_take. rewrite Hb. lia. }
    assert (Htail : len (tailOf yaml) <= 5000).
    { rewrite (tailOf_drop yaml) by lia. unfold len in *.
      rewrite length_drop. lia. }
    destruct (Z.ltb_spec (o + contentBudget) (len yaml - SNAPSHOT_TAIL_CHARS))
      as [Hmore|Hlast].
    + rewrite marker_length.
      assert (H16 : (2 : Z) ^ 53 < 10 ^ Z.of_nat 16) by (vm_compute; reflexivity).
      pose proof (JsFacts.int_chars_length (o + contentBudget) 16 ltac:(lia)
                    ltac:(lia)) as He.
      pose proof (JsFacts.int_chars_length (len yaml) 16 ltac:(lia) ltac:(lia)) as Hl.
      lia.
    + replace (len (marker false (o + contentBudget) (len yaml))) with 1
        by reflexivity.
      lia.
Qed.

Lemma window_fits_the_budget_witness :
  len (SnapshotFacts.xs 100000) < 2 ^ 53 /\
  len (text (windowSnapshot (Some (SnapshotFacts.xs 100000)) 0)) <= MAX_SNAPSHOT_CHARS.
Proof.
  split; [vm_compute; reflexivity|].
  apply (window_fits_the_budget (SnapshotFacts.xs 100000) 0).
  vm_compute; reflexivity.
Defined.

(** X3.  A client may start, or start again, at any offset: the iteration
    through [nextOffset] ends; the text of every returned window is its
    content slice, the marker and the tail; the content slices, put end to
    end, are the text from the clamped offset on, up to a rest of at most
    5000 characters that lies in the tail; every chunk ends with the tail. *)
Theorem iteration_from_any_offset (yaml : jstring) (off : Z) :
  MAX_SNAPSHOT_CHARS < len yaml ->
  exists (fuel : nat) (ws : list window) (rest : jstring),
    iterate fuel yaml off = Some ws /\
    Forall (carriesSlice yaml) ws /\
    drop (Z.to_nat (clampOffset (len yaml) off)) yaml
      = concat (List.map (contentOf yaml) ws) ++ rest /\
    len rest <= SNAPSHOT_TAIL_CHARS /\
    Forall (includesTail yaml) ws.
Proof.
  intros Hlong.
  assert (Hm : MAX_SNAPSHOT_CHARS = 80000) by reflexivity.
  assert (Ht : SNAPSHOT_TAIL_CHARS = 5000) by reflexivity.
  assert (Hb : contentBudget = 74800) by reflexivity.
  pose proof (clampOffset_range (len yaml) off ltac:(lia)) as Hrange.
  destruct (SnapshotFacts.iterate_from yaml (S (length yaml)) Hlong
              (clampOffset (len yaml) off) Hrange)
    as (ws & rest & Hit & Hcat & Hrest & _ & Hall & Hcar); [unfold len in *; nia|].
  exists (S (length yaml)), ws, rest.
  split; [|auto].
  rewrite <- Hit. cbn [iterate]. rewrite (windowSnapshot_clamped yaml off).
  reflexivity.
Qed.

Lemma iteration_from_any_offset_witness :
  MAX_SNAPSHOT_CHARS < len (SnapshotFacts.xs 100000) /\
  exists (fuel : nat) (ws : list window) (rest : jstring),
    iterate fuel (SnapshotFacts.xs 100000) 50000 = Some ws /\
    Forall (carriesSlice (SnapshotFacts.xs 100000)) ws /\
    drop (Z.to_nat (clampOffset (len (SnapshotFacts.xs 100000)) 50000))
         (SnapshotFacts.xs 100000)
      = concat (List.map (contentOf (SnapshotFacts.xs 100000)) ws) ++ rest /\
    len rest <= SNAPSHOT_TAIL_CHARS /\
    Forall (includesTail (SnapshotFacts.xs 100000)) ws.
Proof.
  split; [vm_compute; reflexivity|].
  apply (iteration_from_any_offset (SnapshotFacts.xs 100000) 50000).
  vm_compute; reflexivity.
Defined.

End SnapshotMore.

(** ** More on the reference resolver *)

Module RefsMore.
Import Refs.

#[local] Arguments colon : simpl never.
#[local] Arguments lit : simpl never.

(** *** What the passes take from a line *)

(** The lower-cased role and the name of a line that the passes act on: a
    node line whose role is not combobox, whose name holds none of the
    skipped words, and whose role is an interactive one. *)
Definition interactiveNode (line : jstring) : option (jstring * jstring) :=
  match matchBuild line with
  | Some m =>
      let r := toLowerCase (m_role m) in
      if bool_decide (r = lit "combobox") then None
      else if nameIsSkipped (m_name m) then None
      else if includes INTERACTIVE_ROLES r then Some (r, default [] (m_name m))
      else None
  | None => None
  end.

(** The nodes of a list of lines, in document order. *)
Fixpoint nodesOf (lines : list jstring) : list (jstring * jstring) :=
  match lines with
  | [] => []
  | line :: rest =>
      match interactiveNode line with
      | Some p => p :: nodesOf rest
      | None => nodesOf rest
      end
  end.

(** The reference of the [i]-th node, counted from 1. *)
Definition refId (i : nat) : jstring := lit "e" ++ int_chars (Z.of_nat i).

(** How often a role and name occur in a list of nodes. *)
Fixpoint occurrences (p : jstring * jstring) (ps : list (jstring * jstring)) : Z :=
  match ps with
  | [] => 0
  | q :: ps' => (if decide (q = p) then 1 else 0) + occurrences p ps'
  end.

(** The table that numbers the nodes [todo] after the nodes [done]. *)
Fixpoint tableFrom (done todo : list (jstring * jstring)) : refTable :=
  match todo with
  | [] => []
  | p :: todo' =>
      (refId (S (length done)), RefInfo p.1 p.2 (occurrences p done))
        :: tableFrom (done ++ [p]) todo'
  end.

Definition noColon (s : jstring) : Prop := Forall (fun c : char => c <> 58%N) s.

(** *** Keys *)

Lemma occurrences_app (p : jstring * jstring) (a b : list (jstring * jstring)) :
  occurrences p (a ++ b) = occurrences p a + occurrences p b.
Proof. induction a as [|q a IH]; simpl; [reflexivity|]. rewrite IH. lia. Qed.

Lemma occurrences_nonneg (p : jstring * jstring) (a : list (jstring * jstring)) :
  0 <= occurrences p a.
Proof. induction a as [|q a IH]; simpl; [lia|]. destruct (decide (q = p)); lia. Qed.

(** A key [role:name] tells the role and the name, the role having no
    colon. *)
Lemma pairKey_inj (r r' n n' : jstring) :
  noColon r -> noColon r' ->
  r ++ colon ++ n = r' ++ colon ++ n' -> r = r' /\ n = n'.
Proof.
  change colon with [58%N].
  revert r'. induction r as [|c r IH]; intros r' Hr Hr' Heq.
  - destruct r' as [|c' r']; simpl in Heq.
    + injection Heq as ->. auto.
    + injection Heq as <- _. apply Forall_cons in Hr' as [Hc _]. congruence.
  - apply Forall_cons in Hr as [Hc Hr].
    destruct r' as [|c' r']; simpl in Heq.
    + injection Heq as -> _. congruence.
    + injection Heq as <- Heq. apply Forall_cons in Hr' as [_ Hr'].
      destruct (IH r' Hr Hr' Heq) as [-> ->]. auto.
Qed.

Lemma refId_inj (i j : nat) : refId i = refId j -> i = j.
Proof.
  unfold refId. intros H. apply app_inv_head in H.
  apply JsFacts.int_chars_inj in H; lia.
Qed.

Lemma interactive_roles_noColon (r : jstring) :
  includes INTERACTIVE_ROLES r = true -> noColon r.
Proof.
  unfold includes. rewrite existsb_exists. intros (y & Hin & Hy).
  apply bool_decide_eq_true in Hy. subst y.
  assert (Hall : Forall noColon INTERACTIVE_ROLES).
  { unfold INTERACTIVE_ROLES, noColon. simpl.
    repeat (constructor; [repeat (constructor; [discriminate|]); constructor|]).
    constructor. }
  rewrite Forall_forall in Hall. apply Hall. apply list_elem_of_In. exact Hin.
Qed.

Lemma interactiveNode_role (line r n : jstring) :
  interactiveNode line = Some (r, n) -> includes INTERACTIVE_ROLES r = true.
Proof.
  unfold interactiveNode. destruct (matchBuild line) as [m|]; [|discriminate].
  cbn zeta.
  destruct (bool_decide (toLowerCase (m_role m) = lit "combobox")); [discriminate|].
  destruct (nameIsSkipped (m_name m)); [discriminate|].
  destruct (includes INTERACTIVE_ROLES (toLowerCase (m_role m))) eqn:Hi;
    [|discriminate].
  intros H. injection H as <- _. exact Hi.
Qed.

(** *** The table of the build pass *)

Lemma set_fresh (k : jstring) (v : refInfo) (m : refTable) :
  JsMap.get k m = None -> JsMap.set k v m = m ++ [(k, v)].
Proof.
  induction m as [|[k' v'] m IH]; simpl; [reflexivity|].
  destruct (decide (k' = k)); [discriminate|].
  intros H. rewrite (IH H). reflexivity.
Qed.

Lemma tableFrom_app (done a b : list (jstring * jstring)) :
  tableFrom done (a ++ b) = tableFrom done a ++ tableFrom (done ++ a) b.
Proof.
  revert done. induction a as [|p a IH]; intros done; simpl.
  - rewrite app_nil_r. reflexivity.
  - rewrite IH, <- app_assoc. reflexivity.
Qed.

Lemma tableFrom_keys (done todo : list (jstring * jstring)) (i : nat) :
  (length done + length todo < i)%nat ->
  JsMap.get (refId i) (tableFrom done todo) = None.
Proof.
  revert done. induction todo as [|p todo IH]; intros done Hi; simpl; [reflexivity|].
  destruct (decide (refId (S (length done)) = refId i)) as [E|_].
  - apply refId_inj in E. simpl in Hi. lia.
  - apply IH. rewrite length_app. simpl in *. lia.
Qed.

(** The occurrence counts of the loop, read at the key of a node. *)
Definition countsOf (counts : JsMap.t jstring Z) (done : list (jstring * jstring)) : Prop :=
  forall p : jstring * jstring,
    noColon p.1 ->
    default 0 (JsMap.get (p.1 ++ colon ++ p.2) counts) = occurrences p done.

Lemma default_some (z x : Z) : default z (Some x) = x.
Proof. reflexivity. Qed.

Lemma countsOf_step (counts : JsMap.t jstring Z) (done : list (jstring * jstring))
    (p : jstring * jstring) :
  noColon p.1 ->
  countsOf counts done ->
  countsOf
    (JsMap.set (p.1 ++ colon ++ p.2)
       (default 0 (JsMap.get (p.1 ++ colon ++ p.2) counts) + 1) counts)
    (done ++ [p]).
Proof.
  intros Hp Hinv q Hq. rewrite occurrences_app. cbn [occurrences].
  destruct (decide (p = q)) as [->|Hne].
  - rewrite JsMapFacts.get_set_eq, default_some, (Hinv q Hq). lia.
  - rewrite JsMapFacts.get_set_ne.
    + rewrite (Hinv q Hq). lia.
    + intros E. apply pairKey_inj in E as [E1 E2]; [|assumption|assumption].
      apply Hne. destruct p, q. simpl in *. congruence.
Qed.

(** The loop of [buildRefs], started after the nodes [done], numbers the
    nodes of the lines that follow, up to the 500th. *)
Lemma buildLoop_table (lines : list jstring) :
  forall (done : list (jstring * jstring)) (counts : JsMap.t jstring Z),
    countsOf counts done ->
    buildLoop lines (Z.of_nat (S (length done))) counts (tableFrom [] done)
      = tableFrom []
          (done ++ take (Z.to_nat MAX_SNAPSHOT_NODES - length done) (nodesOf lines)).
Proof.
  induction lines as [|line rest IH]; intros done counts Hinv.
  - simpl. rewrite take_nil, app_nil_r. reflexivity.
  - cbn [buildLoop].
    destruct (Z.gtb_spec (Z.of_nat (S (length done))) MAX_SNAPSHOT_NODES) as [Hcap|Hcap].
    + replace (Z.to_nat MAX_SNAPSHOT_NODES - length done)%nat with 0%nat by lia.
      rewrite take_0, app_nil_r. reflexivity.
    + assert (Hskip : interactiveNode line = None ->
                buildLoop rest (Z.of_nat (S (length done))) counts (tableFrom [] done)
                  = tableFrom []
                      (done ++ take (Z.to_nat MAX_SNAPSHOT_NODES - length done)
                                 (nodesOf (line :: rest)))).
      { intros Hnone. cbn [nodesOf]. rewrite Hnone. apply IH. exact Hinv. }
      assert (Htake : forall p : jstring * jstring,
                interactiveNode line = Some p ->
                noColon p.1 ->
                buildLoop rest (Z.of_nat (S (length done)) + 1)
                  (JsMap.set (p.1 ++ colon ++ p.2)
                     (default 0 (JsMap.get (p.1 ++ colon ++ p.2) counts) + 1) counts)
                  (JsMap.set (lit "e" ++ int_chars (Z.of_nat (S (length done))))
                     (RefInfo p.1 p.2
                        (default 0 (JsMap.get (p.1 ++ colon ++ p.2) counts)))
                     (tableFrom [] done))
                  = tableFrom []
                      (done ++ take (Z.to_nat MAX_SNAPSHOT_NODES - length done)
                                 (nodesOf (line :: rest)))).
      { intros p Hsome Hp. cbn [nodesOf]. rewrite Hsome.
        pose proof (countsOf_step counts done p Hp Hinv) as Hinv'.
        specialize (IH (done ++ [p]) _ Hinv').
        rewrite (Hinv p Hp) in IH |- *.
        rewrite set_fresh by (apply (tableFrom_keys [] done); simpl; lia).
        replace (Z.of_nat (S (length done)) + 1)
          with (Z.of_nat (S (length (done ++ [p]))))
          by (rewrite length_app; simpl; lia).
        assert (E : tableFrom [] (done ++ [p])
                    = tableFrom [] done ++
                        [(lit "e" ++ int_chars (Z.of_nat (S (length done))),
                          RefInfo p.1 p.2 (occurrences p done))])
          by (rewrite tableFrom_app; reflexivity).
        rewrite E in IH. etransitivity; [exact IH|].
        f_equal. rewrite <- app_assoc. f_equal.
        rewrite length_app. simpl.
        replace (Z.to_nat MAX_SNAPSHOT_NODES - length done)%nat
          with (S (Z.to_nat MAX_SNAPSHOT_NODES - (length done + 1)))%nat by lia.
        reflexivity. }
      unfold interactiveNode in Hskip, Htake.
      destruct (matchBuild line) as [m|]; [|apply Hskip; reflexivity].
      cbn zeta in *.
      destruct (bool_decide (toLowerCase (m_role m) = lit "combobox"));
        [apply Hskip; reflexivity|].
      destruct (nameIsSkipped (m_name m)); [apply Hskip; reflexivity|].
      destruct (includes INTERACTIVE_ROLES (toLowerCase (m_role m))) eqn:Hrole;
        [|apply Hskip; reflexivity].
      apply (Htake (toLowerCase (m_role m), default [] (m_name m)) eq_refl).
      apply interactive_roles_noColon. exact Hrole.
Qed.

Lemma tableFrom_length (done todo : list (jstring * jstring)) :
  length (tableFrom done todo) = length todo.
Proof.
  revert done. induction todo as [|p todo IH]; intros done; simpl; [reflexivity|].
  rewrite IH. reflexivity.
Qed.

Lemma tableFrom_lookup (todo : list (jstring * jstring)) :
  forall (done : list (jstring * jstring)) (i : nat) (p : jstring * jstring),
    todo !! i = Some p ->
    tableFrom done todo !! i
      = Some (refId (S (length done + i)),
              RefInfo p.1 p.2 (occurrences p (done ++ take i todo))).
Proof.
  induction todo as [|q todo IH]; intros done i p Hi; [discriminate|].
  destruct i as [|i]; simpl in *.
  - injection Hi as ->. rewrite app_nil_r, Nat.add_0_r. reflexivity.
  - etransitivity; [exact (IH (done ++ [q]) i p Hi)|].
    rewrite length_app, <- app_assoc. simpl.
    replace (S (length done + 1 + i)) with (S (length done + S i)) by lia.
    reflexivity.
Qed.

(** The nodes that get a reference: the first 500 of the text. *)
Definition numbered (text : jstring) : list (jstring * jstring) :=
  take (Z.to_nat MAX_SNAPSHOT_NODES) (nodesOf (splitLines text)).

Lemma buildRefsFrom_table (text : jstring) :
  text <> [] -> buildRefsFrom (Some text) = tableFrom [] (numbered text).
Proof.
  intros Hne. unfold buildRefsFrom, numbered.
  destruct text as [|c text]; [congruence|].
  etransitivity;
    [exact (buildLoop_table (splitLines (c :: text)) [] JsMap.empty
              (fun p _ => eq_refl))|].
  reflexivity.
Qed.

(** X4.  The build pass numbers the interactive nodes of the tree text in
    document order: the table has one entry for each of the first 500
    interactive nodes and none beyond; entry [i] (from 0) has the reference
    e(i+1), the lower-cased role and the name of node [i], and as [nth] the
    number of earlier numbered nodes with the same role and name. *)
Theorem buildRefs_numbers_the_nodes (text : jstring) :
  text <> [] ->
  length (buildRefsFrom (Some text)) = length (numbered text) /\
  forall (i : nat) (p : jstring * jstring),
    numbered text !! i = Some p ->
    buildRefsFrom (Some text) !! i
      = Some (refId (S i), RefInfo p.1 p.2 (occurrences p (take i (numbered text)))).
Proof.
  intros Hne. rewrite (buildRefsFrom_table text Hne). split.
  - apply tableFrom_length.
  - intros i p Hi. rewrite (tableFrom_lookup _ [] i p Hi). reflexivity.
Qed.

Lemma buildRefs_numbers_the_nodes_witness :
  RefsFacts.twoButtons <> [] /\
  length (buildRefsFrom (Some RefsFacts.twoButtons))
    = length (numbered RefsFacts.twoButtons) /\
  forall (i : nat) (p : jstring * jstring),
    numbered RefsFacts.twoButtons !! i = Some p ->
    buildRefsFrom (Some RefsFacts.twoButtons) !! i
      = Some (refId (S i),
              RefInfo p.1 p.2 (occurrences p (take i (numbered RefsFacts.twoButtons)))).
Proof.
  split; [discriminate|].
  apply (buildRefs_numbers_the_nodes RefsFacts.twoButtons). discriminate.
Defined.

(** X5.  The table never has more than [MAX_SNAPSHOT_NODES] entries, for
    any tree text, also an absent or empty one. *)
Theorem buildRefs_is_capped (ariaYaml : option jstring) :
  JsMap.size (buildRefsFrom ariaYaml) <= MAX_SNAPSHOT_NODES.
Proof.
  destruct ariaYaml as [[|c text]|]; try (vm_compute; discriminate).
  unfold JsMap.size.
  rewrite (buildRefsFrom_table (c :: text)) by discriminate.
  rewrite tableFrom_length. unfold numbered. rewrite length_take.
  unfold MAX_SNAPSHOT_NODES. lia.
Qed.

Lemma occurrences_take_le (p : jstring * jstring) (l : list (jstring * jstring))
    (i j : nat) :
  (i <= j)%nat -> occurrences p (take i l) <= occurrences p (take j l).
Proof.
  intros Hij. rewrite <- (take_drop i (take j l)).
  rewrite take_take, Nat.min_l by exact Hij.
  rewrite occurrences_app.
  pose proof (occurrences_nonneg p (drop i (take j l))). lia.
Qed.

Lemma occurrences_take_S (p : jstring * jstring) (l : list (jstring * jstring))
    (i : nat) :
  l !! i = Some p -> occurrences p (take (S i) l) = occurrences p (take i l) + 1.
Proof.
  intros Hi. rewrite (take_S_r l i p Hi), occurrences_app. simpl.
  destruct (decide (p = p)); [lia|congruence].
Qed.

(** X6.  No two references of a table stand for the same role, name and
    occurrence index: what [refToLocator] builds from an entry singles out one
    node. *)
Theorem buildRefs_entries_differ (ariaYaml : option jstring) (i j : nat)
    (k k' : jstring) (info : refInfo) :
  buildRefsFrom ariaYaml !! i = Some (k, info) ->
  buildRefsFrom ariaYaml !! j = Some (k', info) ->
  i = j.
Proof.
  destruct ariaYaml as [[|c text]|]; try discriminate.
  rewrite (buildRefsFrom_table (c :: text)) by discriminate.
  set (nodes := numbered (c :: text)).
  assert (Hlt : forall (a b : nat) (ka kb : jstring),
            (a < b)%nat ->
            tableFrom [] nodes !! a = Some (ka, info) ->
            tableFrom [] nodes !! b = Some (kb, info) -> False).
  { intros a b ka kb Hab Ha Hb.
    destruct (nodes !! a) as [p|] eqn:Hpa.
    2:{ apply lookup_ge_None in Hpa.
        apply lookup_lt_Some in Ha. rewrite tableFrom_length in Ha. lia. }
    destruct (nodes !! b) as [q|] eqn:Hqb.
    2:{ apply lookup_ge_None in Hqb.
        apply lookup_lt_Some in Hb. rewrite tableFrom_length in Hb. lia. }
    rewrite (tableFrom_lookup _ [] a p Hpa) in Ha.
    rewrite (tableFrom_lookup _ [] b q Hqb) in Hb.
    injection Ha as _ Ha. injection Hb as _ Hb. rewrite <- Ha in Hb.
    injection Hb as H1 H2 H3. simpl in H3.
    assert (q = p) by (destruct p, q; simpl in *; congruence). subst q.
    pose proof (occurrences_take_S p nodes a Hpa).
    pose proof (occurrences_take_le p nodes (S a) b ltac:(lia)). lia. }
  intros Hi Hj.
  destruct (Nat.lt_trichotomy i j) as [H|[H|H]]; [|exact H|].
  - exfalso. exact (Hlt i j k k' H Hi Hj).
  - exfalso. exact (Hlt j i k' k H Hj Hi).
Qed.

Lemma buildRefs_entries_differ_witness :
  buildRefsFrom (Some RefsFacts.twoButtons) !! 1%nat
    = Some (lit "e2", RefInfo (lit "button") (lit "OK") 1) /\
  1%nat = 1%nat.
Proof.
  split; [vm_compute; reflexivity|].
  apply (buildRefs_entries_differ (Some RefsFacts.twoButtons) 1 1 (lit "e2") (lit "e2")
           (RefInfo (lit "button") (lit "OK") 1));
    vm_compute; reflexivity.
Defined.

Lemma interactiveNode_filtered (line : jstring) (p : jstring * jstring) :
  interactiveNode line = Some p ->
  includes INTERACTIVE_ROLES p.1 = true /\
  p.1 <> lit "combobox" /\
  nameIsSkipped (Some p.2) = false.
Proof.
  unfold interactiveNode. destruct (matchBuild line) as [m|]; [|discriminate].
  cbn zeta.
  destruct (bool_decide (toLowerCase (m_role m) = lit "combobox")) eqn:Hc;
    [discriminate|].
  destruct (nameIsSkipped (m_name m)) eqn:Hs; [discriminate|].
  destruct (includes INTERACTIVE_ROLES (toLowerCase (m_role m))) eqn:Hi;
    [|discriminate].
  intros H. injection H as <-. simpl. split; [exact Hi|]. split.
  - apply bool_decide_eq_false in Hc. exact Hc.
  - destruct (m_name m) as [n|]; [exact Hs|reflexivity].
Qed.

Lemma nodesOf_filtered (lines : list jstring) (p : jstring * jstring) :
  p ∈ nodesOf lines ->
  includes INTERACTIVE_ROLES p.1 = true /\
  p.1 <> lit "combobox" /\
  nameIsSkipped (Some p.2) = false.
Proof.
  induction lines as [|line rest IH]; simpl; [intros H; inversion H|].
  destruct (interactiveNode line) as [q|] eqn:Hq; [|exact IH].
  intros Hin. apply elem_of_cons in Hin as [->|Hin]; [|exact (IH Hin)].
  exact (interactiveNode_filtered line q Hq).
Qed.

(** X7.  Every entry of a table has one of the eleven interactive roles,
    in lower case as listed, is no combobox, and has a name that holds none of
    the words date, calendar, picker in any letter case. *)
Theorem buildRefs_entries_are_filtered (ariaYaml : option jstring) (i : nat)
    (k : jstring) (info : refInfo) :
  buildRefsFrom ariaYaml !! i = Some (k, info) ->
  includes INTERACTIVE_ROLES (role info) = true /\
  role info <> lit "combobox" /\
  nameIsSkipped (Some (name info)) = false.
Proof.
  destruct ariaYaml as [[|c text]|]; try discriminate.
  rewrite (buildRefsFrom_table (c :: text)) by discriminate. intros Hi.
  destruct (numbered (c :: text) !! i) as [p|] eqn:Hp.
  - rewrite (tableFrom_lookup _ [] i p Hp) in Hi. injection Hi as _ <-. simpl.
    apply (nodesOf_filtered (splitLines (c :: text))).
    apply list_elem_of_lookup_2 in Hp. unfold numbered in Hp.
    apply (subseteq_take _ _ _ Hp).
  - apply lookup_ge_None in Hp. apply lookup_lt_Some in Hi.
    rewrite tableFrom_length in Hi. lia.
Qed.

Lemma buildRefs_entries_are_filtered_witness :
  buildRefsFrom (Some RefsFacts.twoButtons) !! 0%nat
    = Some (lit "e1", RefInfo (lit "button") (lit "OK") 0) /\
  includes INTERACTIVE_ROLES (lit "button") = true /\
  lit "button" <> lit "combobox" /\
  nameIsSkipped (Some (lit "OK")) = false.
Proof.
  split; [vm_compute; reflexivity|].
  apply (buildRefs_entries_are_filtered (Some RefsFacts.twoButtons) 0 (lit "e1")
           (RefInfo (lit "button") (lit "OK") 0)).
  vm_compute; reflexivity.
Defined.

Lemma has_keys {V : Type} (k : jstring) (m : JsMap.t jstring V) :
  JsMap.has k m = true <-> k ∈ JsMap.keys m.
Proof.
  unfold JsMap.has, JsMap.keys. induction m as [|[k' v] m IH]; simpl.
  - split; [discriminate|]. intros H. inversion H.
  - destruct (decide (k' = k)) as [->|Hne].
    + split; [intros _; apply list_elem_of_here|reflexivity].
    + rewrite IH. split.
      * intros H. apply list_elem_of_further. exact H.
      * intros H. apply elem_of_cons in H as [->|H]; [congruence|exact H].
Qed.

Lemma tableFrom_keys_seq (todo done : list (jstring * jstring)) :
  JsMap.keys (tableFrom done todo)
    = List.map refId (seq (S (length done)) (length todo)).
Proof.
  revert done. induction todo as [|p todo IH]; intros done; [reflexivity|].
  cbn [tableFrom]. unfold JsMap.keys in *. cbn [List.map length seq fst].
  f_equal. etransitivity; [exact (IH (done ++ [p]))|].
  rewrite length_app. simpl. replace (length done + 1)%nat with (S (length done)) by lia.
  reflexivity.
Qed.

(** X8.  The references a table knows are e1 up to eN, N being the number of
    its entries: a request with another reference, e0 or e(N+1) for one, is
    answered as an unknown reference. *)
Theorem known_references (ariaYaml : option jstring) (k : jstring) :
  JsMap.has k (buildRefsFrom ariaYaml) = true
  <-> exists i : nat,
        (1 <= i <= length (buildRefsFrom ariaYaml))%nat /\ k = refId i.
Proof.
  assert (Hempty : JsMap.has k (@JsMap.empty jstring refInfo) = true
            <-> exists i : nat, (1 <= i <= 0)%nat /\ k = refId i).
  { split; [discriminate|]. intros (i & Hi & _). lia. }
  destruct ariaYaml as [[|c text]|]; try exact Hempty.
  rewrite (buildRefsFrom_table (c :: text)) by discriminate.
  rewrite has_keys, tableFrom_keys_seq, tableFrom_length.
  rewrite list_elem_of_fmap. split.
  - intros (i & -> & Hi). apply elem_of_seq in Hi. exists i. split; [simpl in *; lia|reflexivity].
  - intros (i & Hi & ->). exists i. split; [reflexivity|]. apply elem_of_seq. simpl. lia.
Qed.

(** *** The annotate pass of the main route *)

(** The key of [refsByKey] for a node and an occurrence index. *)
Definition tripleKey (p : jstring * jstring) (z : Z) : jstring :=
  p.1 ++ colon ++ p.2 ++ colon ++ int_chars z.

Lemma digits_noColon (z : Z) : 0 <= z -> noColon (int_chars z).
Proof.
  intros Hz. eapply Forall_impl; [apply JsFacts.int_chars_digits, Hz|].
  intros c Hc. simpl in Hc. lia.
Qed.

Lemma noColon_rev (s : jstring) : noColon s -> noColon (rev s).
Proof.
  unfold noColon. apply List.Forall_rev.
Qed.

(** The name may hold colons; the key is still read in one way only,
    because the role holds none and the index is a numeral. *)
Lemma tripleKey_inj (p q : jstring * jstring) (a b : Z) :
  noColon p.1 -> noColon q.1 -> 0 <= a -> 0 <= b ->
  tripleKey p a = tripleKey q b -> p = q /\ a = b.
Proof.
  unfold tripleKey. intros Hp Hq Ha Hb E.
  apply pairKey_inj in E as [E1 E2]; try assumption.
  apply (f_equal (@rev char)) in E2. rewrite !rev_app_distr in E2.
  change (rev colon) with colon in E2. rewrite <- !app_assoc in E2.
  apply pairKey_inj in E2 as [E3 E4];
    try (apply noColon_rev, digits_noColon; assumption).
  apply (f_equal (@rev char)) in E3, E4. rewrite !rev_involutive in E3, E4.
  apply JsFacts.int_chars_inj in E3; try assumption.
  split; [|exact E3]. destruct p, q. simpl in *. congruence.
Qed.

Definition keyOf (info : refInfo) : jstring :=
  role info ++ colon ++ name info ++ colon ++ int_chars (nth info).

Definition addKey (acc : JsMap.t jstring jstring) (e : jstring * refInfo)
    : JsMap.t jstring jstring :=
  JsMap.set (keyOf e.2) e.1 acc.

Lemma refsByKeyMain_fold (refs : refTable) :
  refsByKeyMain refs = fold_left addKey refs JsMap.empty.
Proof.
  unfold refsByKeyMain. set (acc := JsMap.empty). clearbody acc. revert acc.
  induction refs as [|[id info] refs IH]; intros acc; [reflexivity|].
  simpl. apply IH.
Qed.

Lemma addKey_miss (refs : refTable) (acc : JsMap.t jstring jstring) (k : jstring) :
  Forall (fun e : jstring * refInfo => keyOf e.2 <> k) refs ->
  JsMap.get k (fold_left addKey refs acc) = JsMap.get k acc.
Proof.
  revert acc. induction refs as [|e refs IH]; intros acc Hall; [reflexivity|].
  apply Forall_cons in Hall as [He Hall]. simpl.
  rewrite (IH _ Hall). unfold addKey. apply JsMapFacts.get_set_ne. exact He.
Qed.

Lemma addKey_hit (before after : refTable) (id : jstring) (info : refInfo)
    (acc : JsMap.t jstring jstring) :
  Forall (fun e : jstring * refInfo => keyOf e.2 <> keyOf info) after ->
  JsMap.get (keyOf info) (fold_left addKey (before ++ (id, info) :: after) acc)
    = Some id.
Proof.
  intros Hall. rewrite fold_left_app. simpl.
  rewrite (addKey_miss after _ _ Hall). unfold addKey at 1. simpl.
  apply JsMapFacts.get_set_eq.
Qed.

Lemma tableFrom_entries (todo done : list (jstring * jstring)) (e : jstring * refInfo) :
  e ∈ tableFrom done todo ->
  exists (j : nat) (q : jstring * jstring),
    todo !! j = Some q /\
    e.2 = RefInfo q.1 q.2 (occurrences q (done ++ take j todo)).
Proof.
  intros He. apply list_elem_of_lookup_1 in He as [j Hj].
  destruct (todo !! j) as [q|] eqn:Hq.
  - pose proof (eq_trans (eq_sym Hj) (tableFrom_lookup todo done j q Hq)) as E.
    injection E as ->. exists j, q. split; [exact Hq|reflexivity].
  - apply lookup_ge_None in Hq. apply lookup_lt_Some in Hj.
    rewrite tableFrom_length in Hj. lia.
Qed.

Definition rolesClean (nodes : list (jstring * jstring)) : Prop :=
  Forall (fun q : jstring * jstring => noColon q.1) nodes.

Lemma keyOf_entry (q : jstring * jstring) (z : Z) :
  keyOf (RefInfo q.1 q.2 z) = tripleKey q z.
Proof. reflexivity. Qed.

(** Looking up the key of the node at place [i] gives its reference. *)
Lemma refsByKey_hit (nodes : list (jstring * jstring)) (i : nat)
    (p : jstring * jstring) :
  rolesClean nodes ->
  nodes !! i = Some p ->
  JsMap.get (tripleKey p (occurrences p (take i nodes)))
    (refsByKeyMain (tableFrom [] nodes)) = Some (refId (S i)).
Proof.
  intros Hclean Hi. rewrite refsByKeyMain_fold.
  pose proof (take_drop_middle nodes i p Hi) as Hsplit.
  assert (Hp : noColon p.1).
  { unfold rolesClean in Hclean. rewrite Forall_forall in Hclean.
    apply Hclean. apply (list_elem_of_lookup_2 _ _ _ Hi). }
  assert (Hlen : length (take i nodes) = i).
  { apply length_take_le. apply lookup_lt_Some in Hi. lia. }
  rewrite <- Hsplit at 2.
  rewrite tableFrom_app. cbn [tableFrom app]. rewrite Hlen.
  rewrite <- keyOf_entry.
  apply addKey_hit. rewrite Forall_forall. intros e He.
  apply tableFrom_entries in He as (j & q & Hq & ->).
  rewrite !keyOf_entry. intros E.
  assert (Hq' : noColon q.1).
  { unfold rolesClean in Hclean. rewrite Forall_forall in Hclean.
    apply Hclean. rewrite <- Hsplit. apply elem_of_app. right.
    apply list_elem_of_further. apply (list_elem_of_lookup_2 _ _ _ Hq). }
  apply tripleKey_inj in E as [-> E]; try assumption;
    try apply occurrences_nonneg.
  rewrite !occurrences_app in E. cbn [occurrences] in E.
  destruct (decide (p = p)); [|congruence].
  pose proof (occurrences_nonneg p (take j (drop (S i) nodes))). lia.
Qed.

(** A key that belongs to no numbered node is not in [refsByKey]. *)
Lemma refsByKey_miss (nodes : list (jstring * jstring)) (p : jstring * jstring)
    (z : Z) :
  rolesClean nodes -> noColon p.1 -> 0 <= z ->
  (forall i : nat, nodes !! i = Some p -> occurrences p (take i nodes) <> z) ->
  JsMap.get (tripleKey p z) (refsByKeyMain (tableFrom [] nodes)) = None.
Proof.
  intros Hclean Hp Hz Hno. rewrite refsByKeyMain_fold.
  rewrite addKey_miss; [reflexivity|].
  rewrite Forall_forall. intros e He.
  apply tableFrom_entries in He as (j & q & Hq & ->).
  rewrite keyOf_entry. intros E.
  assert (Hq' : noColon q.1).
  { unfold rolesClean in Hclean. rewrite Forall_forall in Hclean.
    apply Hclean. apply (list_elem_of_lookup_2 _ _ _ Hq). }
  apply tripleKey_inj in E as [-> E]; try assumption;
    try apply occurrences_nonneg.
  exact (Hno j Hq E).
Qed.

(** The replacement the annotate callback returns for a node. *)
Definition withRef (m : nodeMatch) (r : jstring) : jstring :=
  m_prefix m ++ m_role m ++ default [] (m_nameMatch m)
    ++ lit " [" ++ r ++ lit "]" ++ m_suffix m.

(** The lines with the reference of the [k+1]-th, [k+2]-th, ... node put
    on the lines of these nodes, as far as references go. *)
Fixpoint labelFrom (k : nat) (lines : list jstring) : list jstring :=
  match lines with
  | [] => []
  | line :: rest =>
      match interactiveNode line, matchNode line with
      | Some _, Some m =>
          (if (k <? Z.to_nat MAX_SNAPSHOT_NODES)%nat
           then withRef m (refId (S k)) else line)
            :: labelFrom (S k) rest
      | _, _ => line :: labelFrom k rest
      end
  end.

Lemma annotateLineMain_node (refsByKey : JsMap.t jstring jstring)
    (counts : JsMap.t jstring Z) (line : jstring) (p : jstring * jstring)
    (m : nodeMatch) :
  existsb isLineTerminator line = false ->
  interactiveNode line = Some p ->
  matchNode line = Some m ->
  annotateLineMain refsByKey counts line
    = (match JsMap.get
               (tripleKey p (default 0 (JsMap.get (p.1 ++ colon ++ p.2) counts)))
               refsByKey with
       | Some r => if nonEmpty r then withRef m r else line
       | None => line
       end,
       JsMap.set (p.1 ++ colon ++ p.2)
         (default 0 (JsMap.get (p.1 ++ colon ++ p.2) counts) + 1) counts).
Proof.
  intros Hline Hp Hm. unfold annotateLineMain, interactiveNode in *.
  rewrite (RefsFacts.matchAnnotate_agrees line Hline). unfold matchBuild in *.
  rewrite Hm in *. cbn zeta in *.
  destruct (bool_decide (toLowerCase (m_role m) = lit "combobox")); [discriminate|].
  destruct (nameIsSkipped (m_name m)); [discriminate|].
  destruct (includes INTERACTIVE_ROLES (toLowerCase (m_role m))); [|discriminate].
  injection Hp as <-. unfold tripleKey, withRef. cbn [fst snd].
  unfold jstring.
  match goal with
  | |- context [@JsMap.get ?K ?V ?E ?k refsByKey] =>
      destruct (@JsMap.get K V E k refsByKey) as [r|]; [|reflexivity]
  end.
  destruct (nonEmpty r); reflexivity.
Qed.

Lemma annotateLineMain_other (refsByKey : JsMap.t jstring jstring)
    (counts : JsMap.t jstring Z) (line : jstring) :
  existsb isLineTerminator line = false ->
  interactiveNode line = None ->
  annotateLineMain refsByKey counts line = (line, counts).
Proof.
  intros Hline Hp. unfold annotateLineMain, interactiveNode in *.
  rewrite (RefsFacts.matchAnnotate_agrees line Hline). unfold matchBuild in *.
  destruct (matchNode line) as [m|]; [|reflexivity]. cbn zeta in *.
  destruct (bool_decide (toLowerCase (m_role m) = lit "combobox")); [reflexivity|].
  destruct (nameIsSkipped (m_name m)); [reflexivity|].
  destruct (includes INTERACTIVE_ROLES (toLowerCase (m_role m))); [discriminate|].
  reflexivity.
Qed.

Lemma interactiveNode_matches (line : jstring) (p : jstring * jstring) :
  interactiveNode line = Some p -> exists m : nodeMatch, matchNode line = Some m.
Proof.
  unfold interactiveNode, matchBuild.
  destruct (matchNode line) as [m|]; [eauto|discriminate].
Qed.

Lemma nodesOf_rolesClean (lines : list jstring) : rolesClean (nodesOf lines).
Proof.
  unfold rolesClean. rewrite Forall_forall. intros q Hq.
  apply interactive_roles_noColon. apply (nodesOf_filtered lines q Hq).
Qed.

Lemma rolesClean_take (n : nat) (nodes : list (jstring * jstring)) :
  rolesClean nodes -> rolesClean (take n nodes).
Proof. apply Forall_take. Qed.

(** The annotate pass, run with the table of the build pass over the same
    lines: after the lines that hold the nodes [done], it labels the lines
    that follow. *)
Lemma annotateLines_label (all : list (jstring * jstring)) (rest : list jstring) :
  forall (done : list (jstring * jstring)) (counts : JsMap.t jstring Z),
    Forall (fun line => existsb isLineTerminator line = false) rest ->
    rolesClean all ->
    countsOf counts done ->
    done ++ nodesOf rest = all ->
    annotateLinesMain
      (refsByKeyMain (tableFrom [] (take (Z.to_nat MAX_SNAPSHOT_NODES) all)))
      counts rest
    = labelFrom (length done) rest.
Proof.
  induction rest as [|line rest IH]; intros done counts Hlines Hclean Hinv Hall;
    [reflexivity|].
  apply Forall_cons in Hlines as [Hline Hlines].
  cbn [annotateLinesMain labelFrom]. cbn [nodesOf] in Hall.
  destruct (interactiveNode line) as [p|] eqn:Hp.
  - destruct (interactiveNode_matches line p Hp) as [m Hm]. rewrite Hm.
    rewrite (annotateLineMain_node _ counts line p m Hline Hp Hm).
    assert (Hrole : noColon p.1).
    { apply interactive_roles_noColon. apply (interactiveNode_filtered line p Hp). }
    assert (Hat : all !! length done = Some p).
    { rewrite <- Hall. rewrite lookup_app_r by lia.
      rewrite Nat.sub_diag. reflexivity. }
    assert (Hdone : take (length done) all = done).
    { rewrite <- Hall. rewrite take_app_length. reflexivity. }
    f_equal.
    + rewrite (Hinv p Hrole). set (cap := Z.to_nat MAX_SNAPSHOT_NODES).
      destruct (Nat.ltb_spec (length done) cap) as [Hlt|Hge].
      * assert (Hocc : occurrences p done
                  = occurrences p (take (length done) (take cap all))).
        { rewrite take_take, Nat.min_l by lia. rewrite Hdone. reflexivity. }
        rewrite Hocc.
        rewrite (refsByKey_hit (take cap all) (length done) p).
        -- reflexivity.
        -- apply rolesClean_take, Hclean.
        -- rewrite lookup_take_lt by exact Hlt. exact Hat.
      * rewrite (refsByKey_miss (take cap all) p (occurrences p done)).
        -- reflexivity.
        -- apply rolesClean_take, Hclean.
        -- exact Hrole.
        -- apply occurrences_nonneg.
        -- intros i Hi.
           assert (Hicap : (i < cap)%nat).
           { apply lookup_lt_Some in Hi. rewrite length_take in Hi. lia. }
           rewrite lookup_take_lt in Hi by exact Hicap.
           rewrite take_take, Nat.min_l by lia.
           assert (Hidone : done !! i = Some p).
           { rewrite <- Hall in Hi. rewrite lookup_app_l in Hi by lia. exact Hi. }
           replace (take i all) with (take i done)
             by (rewrite <- Hall, take_app_le by lia; reflexivity).
           pose proof (occurrences_take_S p done i Hidone) as HS.
           pose proof (occurrences_take_le p done (S i) (length done)
                         ltac:(lia)) as Hle.
           rewrite firstn_all in Hle. lia.
    + replace (S (length done)) with (length (done ++ [p]))
        by (rewrite length_app; simpl; lia).
      apply IH; try assumption.
      * apply countsOf_step; assumption.
      * rewrite <- app_assoc. exact Hall.
  - rewrite (annotateLineMain_other _ counts line Hline Hp).
    replace (match matchNode line with Some _ | _ => line :: labelFrom (length done) rest end)
      with (line :: labelFrom (length done) rest) by (destruct (matchNode line); reflexivity).
    f_equal. apply IH; assumption.
Qed.

Lemma splitLines_nonempty (s : jstring) : splitLines s <> [].
Proof.
  destruct s as [|c s]; simpl; [discriminate|].
  destruct (N.eqb c 10); [discriminate|].
  destruct (splitLines s); discriminate.
Qed.

Lemma joinLines_cons (c : char) (l : jstring) (ls : list jstring) :
  joinLines ((c :: l) :: ls) = c :: joinLines (l :: ls).
Proof. destruct ls; reflexivity. Qed.

(** Joining the lines of a text gives the text back. *)
Lemma joinLines_splitLines (s : jstring) : joinLines (splitLines s) = s.
Proof.
  induction s as [|c s IH]; [reflexivity|]. cbn [splitLines].
  pose proof (splitLines_nonempty s) as Hne.
  destruct (N.eqb_spec c 10) as [->|_].
  - destruct (splitLines s) as [|l ls]; [congruence|].
    change (joinLines ([] :: l :: ls)) with (10%N :: joinLines (l :: ls)).
    rewrite IH. reflexivity.
  - destruct (splitLines s) as [|l ls]; [congruence|].
    rewrite joinLines_cons, IH. reflexivity.
Qed.

Lemma splitLines_clean (s : jstring) :
  Forall (fun c : char => c <> 13%N /\ c <> 8232%N /\ c <> 8233%N) s ->
  Forall (fun line => existsb isLineTerminator line = false) (splitLines s).
Proof.
  induction s as [|c s IH]; intros Hs.
  - repeat constructor.
  - apply Forall_cons in Hs as [(H1 & H2 & H3) Hs]. specialize (IH Hs).
    cbn [splitLines].
    destruct (N.eqb_spec c 10) as [->|Hc].
    + constructor; [reflexivity|exact IH].
    + destruct (splitLines s) as [|l ls]; [repeat constructor|].
      * cbn [existsb]. unfold isLineTerminator.
        apply N.eqb_neq in Hc, H1, H2, H3. rewrite Hc, H1, H2, H3. reflexivity.
      * apply Forall_cons in IH as [Hl Hls]. constructor; [|exact Hls].
        cbn [existsb]. rewrite Hl. unfold isLineTerminator.
        apply N.eqb_neq in Hc, H1, H2, H3. rewrite Hc, H1, H2, H3. reflexivity.
Qed.

Lemma labelFrom_no_nodes (lines : list jstring) (k : nat) :
  nodesOf lines = [] -> labelFrom k lines = lines.
Proof.
  induction lines as [|line rest IH]; [reflexivity|]. cbn [nodesOf labelFrom].
  destruct (interactiveNode line); [discriminate|].
  intros H. rewrite (IH H). reflexivity.
Qed.

(** X9.  When the tree text that GET /tabs/:tabId/snapshot annotates is the
    text its table was built from, and holds no carriage return, line
    separator or paragraph separator, the annotated text has the reference
    e(k+1) on the line of the (k+1)-th interactive node, for each of the
    first 500 nodes, and every other line as it was. *)
Theorem main_route_labels_nodes_in_order (text : jstring) :
  text <> [] ->
  Forall (fun c : char => c <> 13%N /\ c <> 8232%N /\ c <> 8233%N) text ->
  annotateMain (buildRefsFrom (Some text)) (Some text)
    = joinLines (labelFrom 0 (splitLines text)).
Proof.
  intros Hne Hclean. unfold annotateMain. cbn [default from_option id].
  destruct text as [|c text]; [congruence|].
  rewrite (buildRefsFrom_table (c :: text)) by discriminate.
  unfold JsMap.size. rewrite tableFrom_length.
  destruct (Z.gtb_spec (Z.of_nat (length (numbered (c :: text)))) 0) as [Hpos|Hzero].
  - f_equal. unfold numbered.
    apply (annotateLines_label (nodesOf (splitLines (c :: text)))
             (splitLines (c :: text)) [] JsMap.empty).
    + apply splitLines_clean, Hclean.
    + apply nodesOf_rolesClean.
    + intros p _. reflexivity.
    + reflexivity.
  - assert (Hnone : nodesOf (splitLines (c :: text)) = []).
    { unfold numbered in Hzero. rewrite length_take in Hzero.
      unfold MAX_SNAPSHOT_NODES in Hzero.
      destruct (nodesOf (splitLines (c :: text))); [reflexivity|].
      simpl length in Hzero. lia. }
    rewrite (labelFrom_no_nodes _ 0%nat Hnone), joinLines_splitLines. reflexivity.
Qed.

Lemma main_route_labels_nodes_in_order_witness :
  RefsFacts.twoButtons <> [] /\
  Forall (fun c : char => c <> 13%N /\ c <> 8232%N /\ c <> 8233%N)
    RefsFacts.twoButtons /\
  annotateMain (buildRefsFrom (Some RefsFacts.twoButtons)) (Some RefsFacts.twoButtons)
    = joinLines (labelFrom 0 (splitLines RefsFacts.twoButtons)).
Proof.
  assert (Hclean : Forall (fun c : char => c <> 13%N /\ c <> 8232%N /\ c <> 8233%N)
                     RefsFacts.twoButtons).
  { apply Forall_forall. intros c Hc. vm_compute in Hc.
    repeat (apply elem_of_cons in Hc as [->|Hc]; [repeat split; discriminate|]).
    inversion Hc. }
  split; [discriminate|]. split; [exact Hclean|].
  apply (main_route_labels_nodes_in_order RefsFacts.twoButtons);
    [discriminate|exact Hclean].
Defined.



End RefsMore.

(** ** More on the request handlers: the registry over time *)

Module ServerMore.
Import Refs Server ServerFacts Cleanup.

(** The routes that call [getSession]. *)
Definition callsGetSession (r : request) : bool :=
  match r with
  | CreateTab _ _ _ _ | OpenTab _ _ _ => true
  | _ => false
  end.

(** *** What a request does to the registry *)

(** The session is the same browser context, was last accessed when it was
    before, and holds no more tabs. *)
Definition keeps (s s' : Session) : Prop :=
  context s' = context s /\ lastAccess s' = lastAccess s /\
  totalTabs s' <= totalTabs s.

Inductive change (env : Env) (key : jstring) (viaGetSession : bool)
    (st st' : ServerState) : Prop :=
  | Unchanged :
      sessions st' = sessions st -> change env key viaGetSession st st'
  | Stored (s s' : Session) :
      sessions st !! key = Some s ->
      sessions st' = <[key := s']> (sessions st) ->
      keeps s s' ->
      change env key viaGetSession st st'
  | Dropped :
      sessions st' = delete key (sessions st) ->
      change env key viaGetSession st st'
  | Refreshed (s s' : Session) :
      viaGetSession = true ->
      sessions st !! key = Some s ->
      sessions st' = <[key := s']> (sessions st) ->
      context s' = context s ->
      lastAccess s' = now env ->
      totalTabs s' <= Z.max (totalTabs s) MAX_TABS_PER_SESSION ->
      change env key viaGetSession st st'
  | Started (s' : Session) :
      viaGetSession = true ->
      sessions st !! key = None ->
      Z.of_nat (size (sessions st)) < MAX_SESSIONS ->
      sessions st' = <[key := s']> (sessions st) ->
      lastAccess s' = now env ->
      totalTabs s' <= 1 ->
      change env key viaGetSession st st'.

Lemma located_facts (st : ServerState) (userId : jsval) (tabId : jstring)
    (l : located) :
  locate st userId tabId = Some l ->
  l_key l = normalizeUserId userId /\
  sessions st !! normalizeUserId userId = Some (l_session l) /\
  findTabIn (tabGroups (l_session l)) tabId = Some (l_found l).
Proof.
  unfold locate. cbn zeta.
  destruct (sessions st !! normalizeUserId userId) as [session|]; [|discriminate].
  destruct (findTab session tabId) as [f|] eqn:Hf; [|discriminate].
  intros H. injection H as <-. simpl. auto.
Qed.

Lemma size_delete_le {V : Type} (k : jstring) (m : JsMap.t jstring V) :
  JsMap.size (JsMap.delete k m) <= JsMap.size m.
Proof.
  unfold JsMap.size. induction m as [|[k' v'] m IH]; simpl; [lia|].
  destruct (decide (k' = k)); simpl; lia.
Qed.

Lemma countTabs_nonneg (groups : JsMap.t jsval Group) : 0 <= countTabs groups.
Proof.
  induction groups as [|[k g] groups IH]; [unfold countTabs; simpl; lia|].
  rewrite countTabs_cons. pose proof (JsMapFacts.size_nonneg g). lia.
Qed.

Lemma countTabs_delete_le (k : jsval) (groups : JsMap.t jsval Group) :
  countTabs (JsMap.delete k groups) <= countTabs groups.
Proof.
  induction groups as [|[k0 g0] groups IH]; simpl; [lia|].
  destruct (decide (k0 = k)).
  - rewrite countTabs_cons. pose proof (JsMapFacts.size_nonneg g0). lia.
  - rewrite !countTabs_cons. lia.
Qed.

(** Changing the group of the found tab by a change that adds no tab. *)
Lemma storeGroup_change (env : Env) (b : bool) (st : ServerState) (userId : jsval)
    (tabId : jstring) (l : located) (c : Group -> Group) :
  locate st userId tabId = Some l ->
  JsMap.size (c (f_group (l_found l))) <= JsMap.size (f_group (l_found l)) ->
  change env (normalizeUserId userId) b st (storeGroup l tabId c st).
Proof.
  intros Hl Hc. destruct (located_facts _ _ _ _ Hl) as (Hk & Hs & Hf).
  eapply Stored; [exact Hs| |].
  - unfold storeGroup. simpl. rewrite Hk. reflexivity.
  - repeat split. rewrite !totalTabs_countTabs. simpl.
    rewrite (countTabs_changed _ _ _ c Hf). lia.
Qed.

Lemma storeTab_change (env : Env) (b : bool) (st : ServerState) (userId : jsval)
    (tabId : jstring) (l : located) (ts : TabState) :
  locate st userId tabId = Some l ->
  change env (normalizeUserId userId) b st (storeTab l tabId ts st).
Proof.
  intros Hl. apply storeGroup_change; [exact Hl|].
  destruct (located_facts _ _ _ _ Hl) as (_ & _ & Hf).
  rewrite (JsMapFacts.size_set_known _ _ _ _ (findTabIn_sound _ _ _ Hf)). lia.
Qed.

Lemma onTab_change (env : Env) (b : bool) (st : ServerState) (userId : jsval)
    (tabId : jstring) (k : TabState -> response * TabState) :
  change env (normalizeUserId userId) b st (snd (onTab st userId tabId k)).
Proof.
  unfold onTab. destruct (locate st userId tabId) as [l|] eqn:Hl.
  - destruct (k (f_tabState (l_found l))) as [resp ts]. simpl.
    apply storeTab_change. exact Hl.
  - apply Unchanged. reflexivity.
Qed.

Lemma readTab_change (env : Env) (b : bool) (st : ServerState) (userId : jsval)
    (tabId : jstring) (k : found -> response) :
  change env (normalizeUserId userId) b st (snd (readTab st userId tabId k)).
Proof.
  unfold readTab. destruct (locate st userId tabId); apply Unchanged; reflexivity.
Qed.

Lemma closeFound_change (env : Env) (b : bool) (st : ServerState) (userId : jsval)
    (tabId : jstring) (l : located) :
  locate st userId tabId = Some l ->
  change env (normalizeUserId userId) b st (snd (closeFound env l tabId st)).
Proof.
  intros Hl. destruct (located_facts _ _ _ _ Hl) as (Hk & Hs & Hf).
  unfold closeFound. destruct (closePage env); [|apply Unchanged; reflexivity].
  cbn zeta. cbn [snd].
  eapply Stored; [exact Hs| |].
  - unfold putSession. simpl. rewrite Hk. reflexivity.
  - repeat split. rewrite !totalTabs_countTabs. cbn [tabGroups].
    pose proof (countTabs_changed _ _ _ (JsMap.delete tabId) Hf) as Hcount.
    pose proof (size_delete_le tabId (f_group (l_found l))) as Hle.
    destruct (JsMap.size (JsMap.delete tabId (f_group (l_found l))) =? 0).
    + pose proof (countTabs_delete_le (f_listItemId (l_found l))
                    (changeFoundGroup (tabGroups (l_session l)) tabId
                       (JsMap.delete tabId))).
      lia.
    + lia.
Qed.

Lemma actClose_change (env : Env) (b : bool) (st : ServerState) (userId : jsval)
    (tabId : jstring) (l : located) (targetId : jsval) (ts : TabState) :
  locate st userId tabId = Some l ->
  change env (normalizeUserId userId) b st
    (snd (actClose env l tabId targetId ts st)).
Proof.
  intros Hl. unfold actClose. destruct (closePage env); cbn [snd].
  - apply storeGroup_change; [exact Hl|]. apply size_delete_le.
  - apply storeTab_change. exact Hl.
Qed.

Lemma getTabGroup_count (session : Session) (groupKey : jsval) :
  let '(group, session1) := getTabGroup session groupKey in
  context session1 = context session /\
  lastAccess session1 = lastAccess session /\
  totalTabs session1 = totalTabs session /\
  JsMap.get groupKey (tabGroups session1) = Some group.
Proof.
  unfold getTabGroup.
  destruct (JsMap.get groupKey (tabGroups session)) as [group|] eqn:Hg.
  - auto.
  - simpl. repeat split.
    + rewrite !totalTabs_countTabs. simpl.
      rewrite (countTabs_set_new _ _ _ Hg). unfold JsMap.size. simpl. lia.
    + apply JsMapFacts.get_set_eq.
Qed.

Lemma size_set_le {V : Type} (k : jstring) (v : V) (m : JsMap.t jstring V) :
  JsMap.size (JsMap.set k v m) <= JsMap.size m + 1.
Proof.
  destruct (JsMap.get k m) as [v0|] eqn:Hg.
  - rewrite (JsMapFacts.size_set_known _ _ _ _ Hg). lia.
  - rewrite (JsMapFacts.size_set_new _ _ _ Hg). lia.
Qed.

(** The session after [createIn], whatever the outcome: what [getSession]
    returned, with one tab more at most. *)
Lemma createIn_session (env : Env) (userId groupKey url : jsval) (validated : bool)
    (reply : jstring -> nat -> body) (st : ServerState) (session : Session)
    (st1 : ServerState) :
  getSession env userId st = (Returns session, st1) ->
  exists s' : Session,
    sessions (snd (createIn env userId groupKey url validated reply st))
      = <[normalizeUserId userId := s']> (sessions st1) /\
    context s' = context session /\
    lastAccess s' = lastAccess session /\
    totalTabs s' <= Z.max (totalTabs session) MAX_TABS_PER_SESSION /\
    totalTabs s' <= totalTabs session + 1.
Proof.
  intros Hget.
  assert (Hst1 : sessions st1 !! normalizeUserId userId = Some session).
  { revert Hget. unfold getSession. cbn zeta.
    destruct (sessions st !! normalizeUserId userId) as [s|].
    - intros H. injection H as <- <-. simpl. apply lookup_insert_eq.
    - destruct (Z.of_nat (size (sessions st)) >=? MAX_SESSIONS); [discriminate|].
      destruct (newContext env); [|discriminate].
      intros H. injection H as <- <-. simpl. apply lookup_insert_eq. }
  unfold createIn. rewrite Hget.
  destruct (Z.geb_spec (totalTabs session) MAX_TABS_PER_SESSION) as [Hfull|Hroom].
  { exists session. cbn [snd]. split; [|repeat split; lia].
    symmetry. apply insert_id. exact Hst1. }
  pose proof (getTabGroup_count session groupKey) as Hgroup.
  destruct (getTabGroup session groupKey) as [group session1].
  destruct Hgroup as (Hctx & Hla & Hcount & Hgot).
  destruct (newPage env) as [p|message].
  2:{ exists session1. cbn [snd]. split; [reflexivity|]. repeat split; try assumption; lia. }
  cbn zeta.
  assert (Hreg : forall ts : TabState,
    exists s' : Session,
      <[normalizeUserId userId :=
          mkSession (context session1)
            (JsMap.set groupKey (JsMap.set (randomUUID env) ts group)
               (tabGroups session1))
            (lastAccess session1)]> (sessions st1)
        = <[normalizeUserId userId := s']> (sessions st1) /\
      context s' = context session /\
      lastAccess s' = lastAccess session /\
      totalTabs s' <= Z.max (totalTabs session) MAX_TABS_PER_SESSION /\
      totalTabs s' <= totalTabs session + 1).
  { intros ts. eexists. split; [reflexivity|]. simpl.
    assert (Hle : totalTabs
                    (mkSession (context session1)
                       (JsMap.set groupKey (JsMap.set (randomUUID env) ts group)
                          (tabGroups session1))
                       (lastAccess session1)) <= totalTabs session + 1).
    { rewrite !totalTabs_countTabs in Hcount |- *. cbn [tabGroups].
      rewrite (countTabs_set_known _ _ _ _ Hgot).
      pose proof (size_set_le (randomUUID env) ts group). lia. }
    repeat split; try assumption; lia. }
  destruct (truthy url).
  - destruct (if validated then None else validateUrl env url); [apply Hreg|].
    destruct (engine env); apply Hreg.
  - apply Hreg.
Qed.

Lemma createIn_change (env : Env) (userId groupKey url : jsval) (validated : bool)
    (reply : jstring -> nat -> body) (st : ServerState) :
  change env (normalizeUserId userId) true st
    (snd (createIn env userId groupKey url validated reply st)).
Proof.
  destruct (getSession env userId st) as [[session|message] st1] eqn:Hget.
  2:{ unfold createIn. rewrite Hget. cbn [snd]. apply Unchanged.
      revert Hget. unfold getSession. cbn zeta.
      destruct (sessions st !! normalizeUserId userId); [discriminate|].
      destruct (Z.of_nat (size (sessions st)) >=? MAX_SESSIONS).
      - intros H. injection H as _ <-. reflexivity.
      - destruct (newContext env); [discriminate|].
        intros H. injection H as _ <-. reflexivity. }
  destruct (createIn_session env userId groupKey url validated reply st session st1 Hget)
    as (s' & Hs' & Hctx & Hla & Hmax & Hone).
  revert Hget. unfold getSession. cbn zeta.
  destruct (sessions st !! normalizeUserId userId) as [s|] eqn:Hs.
  - intros H. injection H as <- <-. simpl in *.
    rewrite insert_insert_eq in Hs'.
    eapply Refreshed; eauto.
  - destruct (Z.geb_spec (Z.of_nat (size (sessions st))) MAX_SESSIONS) as [|Hcap];
      [discriminate|].
    destruct (newContext env) as [ctx|]; [|discriminate].
    intros H. injection H as <- <-. simpl in *.
    rewrite insert_insert_eq in Hs'.
    eapply Started; eauto.
Qed.

(** Every request changes the registry in one of five ways, and only under
    the key of its user. *)
Lemma handle_change (env : Env) (r : request) (st : ServerState) :
  change env (normalizeUserId (userOf r)) (callsGetSession r) st
    (snd (handle env r st)).
Proof.
  destruct r; cbn [handle userOf callsGetSession];
    try apply onTab_change; try apply readTab_change.
  - (* POST /tabs *)
    destruct (negb (truthy userId) || negb (truthy (orElse sessionKey listItemId)))%bool;
      [apply Unchanged; reflexivity|apply createIn_change].
  - (* DELETE /tabs/:tabId *)
    destruct (locate st userId tabId) as [l|] eqn:Hl;
      [apply closeFound_change; exact Hl|apply Unchanged; reflexivity].
  - (* DELETE /tabs/group/:listItemId *)
    cbn zeta.
    destruct (sessions st !! normalizeUserId userId) as [session|] eqn:Hs;
      [|apply Unchanged; reflexivity].
    destruct (JsMap.get (JStr listItemId) (tabGroups session));
      [|apply Unchanged; reflexivity].
    eapply Stored; [exact Hs|reflexivity|].
    repeat split. rewrite !totalTabs_countTabs. apply countTabs_delete_le.
  - (* DELETE /sessions/:userId *)
    cbn zeta.
    destruct (sessions st !! normalizeUserId userId); [|apply Unchanged; reflexivity].
    destruct (closeContext env); [|apply Unchanged; reflexivity].
    apply Dropped. reflexivity.
  - (* GET /tabs *)
    destruct (sessions st !! normalizeUserId userId); apply Unchanged; reflexivity.
  - (* POST /tabs/open *)
    destruct (negb (truthy userId)); [apply Unchanged; reflexivity|].
    destruct (negb (truthy url)); [apply Unchanged; reflexivity|].
    destruct (validateUrl env url); [apply Unchanged; reflexivity|].
    apply createIn_change.
  - (* POST /navigate *)
    destruct (negb (truthy userId)); [apply Unchanged; reflexivity|].
    destruct (negb (truthy url)); [apply Unchanged; reflexivity|].
    destruct (validateUrl env url); [apply Unchanged; reflexivity|].
    destruct (targetTab targetId); [apply onTab_change|apply Unchanged; reflexivity].
  - (* GET /snapshot *)
    destruct (negb (truthy userId)); [apply Unchanged; reflexivity|].
    destruct (targetTab targetId); [apply onTab_change|apply Unchanged; reflexivity].
  - (* POST /act *)
    destruct (negb (truthy userId)); [apply Unchanged; reflexivity|].
    destruct (negb (truthy kind)); [apply Unchanged; reflexivity|].
    destruct (targetTab targetId) as [tabId|]; [|apply Unchanged; reflexivity].
    destruct (locate st userId tabId) as [l|] eqn:Hl; [|apply Unchanged; reflexivity].
    cbn zeta.
    destruct (bool_decide (kind = JStr (lit "close"))).
    + apply actClose_change. exact Hl.
    + destruct (actTab env kind targetId ref selector text key _) as [resp ts'].
      cbn [snd]. apply storeTab_change. exact Hl.
Qed.

(** *** The server over time *)

(** No session holds more tabs than the quota. *)
Definition withinQuota (st : ServerState) : Prop :=
  forall (key : jstring) (session : Session),
    sessions st !! key = Some session -> totalTabs session <= MAX_TABS_PER_SESSION.

(** A request that does not call [getSession]. *)
Definition quiet (e : event) : Prop :=
  match e with
  | Request _ r => callsGetSession r = false
  | Tick _ => True
  end.

Lemma sweep_lookup (now : Z) (st : ServerState) (key : jstring) (session : Session) :
  sessions (sweep now st) !! key = Some session
  <-> sessions st !! key = Some session /\
      now - lastAccess session <= SESSION_TIMEOUT_MS.
Proof.
  unfold sweep. cbn [sessions]. rewrite map_lookup_filter_Some. cbn [snd].
  rewrite Z.gtb_ltb, Z.ltb_ge. reflexivity.
Qed.

Lemma sweep_size (now : Z) (st : ServerState) :
  (size (sessions (sweep now st)) <= size (sessions st))%nat.
Proof.
  unfold sweep. cbn [sessions]. apply map_subseteq_size, map_filter_subseteq.
Qed.

Lemma runAll_app (es es' : list event) (st : ServerState) :
  runAll (es ++ es') st = runAll es' (runAll es st).
Proof. apply fold_left_app. Qed.

Lemma runAll_invariant (P : ServerState -> Prop) :
  (forall (e : event) (st : ServerState), P st -> P (after e st)) ->
  forall (es : list event) (st : ServerState), P st -> P (runAll es st).
Proof.
  intros Hstep es. induction es as [|e es IH]; intros st Hst; [exact Hst|].
  simpl. apply IH, Hstep, Hst.
Qed.

Lemma change_other (env : Env) (key : jstring) (b : bool) (st st' : ServerState)
    (other : jstring) :
  change env key b st st' ->
  other <> key ->
  sessions st' !! other = sessions st !! other.
Proof.
  intros [E|s s' _ E _|E|s s' _ _ E _ _ _|s' _ _ _ E _ _] Hne; rewrite E.
  - reflexivity.
  - apply lookup_insert_ne. congruence.
  - apply lookup_delete_ne. congruence.
  - apply lookup_insert_ne. congruence.
  - apply lookup_insert_ne. congruence.
Qed.

(** X11.  A request reads and writes the session of its own user only:
    the sessions of all other users are after the request what they were
    before, whatever the request, its outcome and the engine. *)
Theorem a_request_changes_its_own_session_only (env : Env) (r : request)
    (st : ServerState) (key : jstring) :
  key <> normalizeUserId (userOf r) ->
  sessions (snd (handle env r st)) !! key = sessions st !! key.
Proof. intros Hne. exact (change_other _ _ _ _ _ _ (handle_change env r st) Hne). Qed.

Lemma a_request_changes_its_own_session_only_witness :
  lit "alice" <> normalizeUserId (userOf (CloseSession bob)) /\
  sessions (snd (handle (calm tab1 1%nat) (CloseSession bob) aliceHasOneTab))
    !! lit "alice"
    = sessions aliceHasOneTab !! lit "alice".
Proof.
  assert (H : lit "alice" <> normalizeUserId (userOf (CloseSession bob)))
    by (vm_compute; discriminate).
  split; [exact H|].
  apply (a_request_changes_its_own_session_only (calm tab1 1%nat) (CloseSession bob)
           aliceHasOneTab (lit "alice") H).
Defined.

Lemma after_cap (e : event) (st : ServerState) :
  Z.of_nat (size (sessions st)) <= MAX_SESSIONS ->
  Z.of_nat (size (sessions (after e st))) <= MAX_SESSIONS.
Proof.
  intros Hcap. destruct e as [env r|t]; cbn [after].
  - destruct (handle_change env r st)
      as [E|s s' Hs E _|E|s s' _ Hs E _ _ _|s' _ Hs Hroom E _ _]; rewrite E.
    + exact Hcap.
    + rewrite map_size_insert_Some by (rewrite Hs; eauto). exact Hcap.
    + rewrite map_size_delete.
      destruct (sessions st !! normalizeUserId (userOf r)); simpl; lia.
    + rewrite map_size_insert_Some by (rewrite Hs; eauto). exact Hcap.
    + rewrite map_size_insert_None by exact Hs. lia.
  - pose proof (sweep_size t st). lia.
Qed.

(** X12.  With requests handled one at a time, the registry never holds
    more than [MAX_SESSIONS] sessions, whatever the requests, the engine's
    outcomes and the clean-up ticks in between. *)
Theorem sessions_stay_within_the_cap (events : list event) (st : ServerState) :
  Z.of_nat (size (sessions st)) <= MAX_SESSIONS ->
  Z.of_nat (size (sessions (runAll events st))) <= MAX_SESSIONS.
Proof.
  apply (runAll_invariant
           (fun s => Z.of_nat (size (sessions s)) <= MAX_SESSIONS)).
  exact after_cap.
Qed.

Lemma sessions_stay_within_the_cap_witness :
  Z.of_nat (size (sessions emptyServer)) <= MAX_SESSIONS /\
  Z.of_nat
    (size (sessions
             (runAll [Request (calm tab1 1%nat) (CreateTab alice task JUndefined JUndefined);
                      Tick 5000000] emptyServer)))
    <= MAX_SESSIONS.
Proof.
  assert (H : Z.of_nat (size (sessions emptyServer)) <= MAX_SESSIONS)
    by (vm_compute; discriminate).
  split; [exact H|].
  apply (sessions_stay_within_the_cap
           [Request (calm tab1 1%nat) (CreateTab alice task JUndefined JUndefined);
            Tick 5000000] emptyServer H).
Defined.

Lemma after_quota (e : event) (st : ServerState) :
  withinQuota st -> withinQuota (after e st).
Proof.
  intros Hq key session. destruct e as [env r|t]; cbn [after].
  - destruct (decide (key = normalizeUserId (userOf r))) as [->|Hne].
    2:{ rewrite (change_other _ _ _ _ _ key (handle_change env r st) Hne).
        apply Hq. }
    destruct (handle_change env r st)
      as [E|s s' Hs E (_ & _ & Hle)|E|s s' _ Hs E _ _ Hle|s' _ Hs _ E _ Hle];
      rewrite E.
    + apply Hq.
    + rewrite lookup_insert_eq. intros H. injection H as <-.
      specialize (Hq _ _ Hs). lia.
    + rewrite lookup_delete_eq. discriminate.
    + rewrite lookup_insert_eq. intros H. injection H as <-.
      specialize (Hq _ _ Hs). lia.
    + rewrite lookup_insert_eq. intros H. injection H as <-.
      unfold MAX_TABS_PER_SESSION. lia.
  - intros H. apply sweep_lookup in H as [H _]. exact (Hq _ _ H).
Qed.

(** X13.  With requests handled one at a time, no session ever holds more
    than [MAX_TABS_PER_SESSION] tabs, summed over its groups: the quota
    holds after every request of every route, and after every clean-up
    tick. *)
Theorem tabs_stay_within_the_quota (events : list event) (st : ServerState) :
  withinQuota st -> withinQuota (runAll events st).
Proof. apply (runAll_invariant withinQuota). exact after_quota. Qed.

Lemma tabs_stay_within_the_quota_witness :
  withinQuota emptyServer /\
  withinQuota
    (runAll [Request (calm tab1 1%nat) (CreateTab alice task JUndefined JUndefined)]
       emptyServer).
Proof.
  assert (H : withinQuota emptyServer).
  { intros key session Hs. vm_compute in Hs. discriminate Hs. }
  split; [exact H|].
  apply (tabs_stay_within_the_quota
           [Request (calm tab1 1%nat) (CreateTab alice task JUndefined JUndefined)]
           emptyServer H).
Defined.

Lemma after_quiet (e : event) (st : ServerState) (key : jstring) (s' : Session) :
  quiet e ->
  sessions (after e st) !! key = Some s' ->
  exists s : Session,
    sessions st !! key = Some s /\
    context s' = context s /\ lastAccess s' = lastAccess s.
Proof.
  intros Hq. destruct e as [env r|t]; cbn [after quiet] in *.
  - destruct (decide (key = normalizeUserId (userOf r))) as [->|Hne].
    2:{ rewrite (change_other _ _ _ _ _ key (handle_change env r st) Hne). eauto. }
    destruct (handle_change env r st)
      as [E|s s1 Hs E (Hc & Hl & _)|E|s s1 Hg _ _ _ _ _|s1 Hg _ _ _ _ _];
      try congruence; rewrite E.
    + eauto.
    + rewrite lookup_insert_eq. intros H. injection H as <-. eauto.
    + rewrite lookup_delete_eq. discriminate.
  - intros H. apply sweep_lookup in H as [H _]. eauto.
Qed.

Lemma runAll_quiet (es : list event) :
  forall (st : ServerState) (key : jstring) (s' : Session),
    Forall quiet es ->
    sessions (runAll es st) !! key = Some s' ->
    exists s : Session,
      sessions st !! key = Some s /\
      context s' = context s /\ lastAccess s' = lastAccess s.
Proof.
  induction es as [|e es IH]; intros st key s' Hq Hs'; [eauto|].
  apply Forall_cons in Hq as [He Hes]. simpl in Hs'.
  destruct (IH _ _ _ Hes Hs') as (s1 & Hs1 & Hc1 & Hl1).
  destruct (after_quiet e st key s1 He Hs1) as (s & Hs & Hc & Hl).
  exists s. repeat split; congruence.
Qed.

(** X14.  Work on the tabs of a session does not postpone its expiry:
    of the routes modelled in [handle], only POST /tabs and POST /tabs/open
    call [getSession], which alone refreshes [lastAccess].  A session last
    accessed more than [SESSION_TIMEOUT_MS] before a clean-up tick is gone
    after the tick, whatever requests of the other routes were handled in
    between. *)
Theorem work_on_tabs_does_not_postpone_expiry (events : list event)
    (st : ServerState) (key : jstring) (session : Session) (now : Z) :
  Forall quiet events ->
  sessions st !! key = Some session ->
  now - lastAccess session > SESSION_TIMEOUT_MS ->
  sessions (runAll (events ++ [Tick now]) st) !! key = None.
Proof.
  intros Hq Hs Hidle. rewrite runAll_app.
  change (runAll [Tick now] (runAll events st)) with (sweep now (runAll events st)).
  destruct (sessions (sweep now (runAll events st)) !! key) as [s'|] eqn:Hs';
    [|reflexivity].
  apply sweep_lookup in Hs' as [Hs' Hfresh].
  destruct (runAll_quiet events st key s' Hq Hs') as (s & Hs0 & _ & Hl).
  rewrite Hs in Hs0. injection Hs0 as <-. lia.
Qed.

Lemma work_on_tabs_does_not_postpone_expiry_witness :
  Forall quiet [Request (calm tab1 1%nat) (Press tab1 alice)] /\
  sessions aliceHasOneTab !! lit "alice" = Some (sessionOfAlice aliceHasOneTab) /\
  5000000 - lastAccess (sessionOfAlice aliceHasOneTab) > SESSION_TIMEOUT_MS /\
  sessions
    (runAll ([Request (calm tab1 1%nat) (Press tab1 alice)] ++ [Tick 5000000])
       aliceHasOneTab) !! lit "alice" = None.
Proof.
  assert (H1 : Forall quiet [Request (calm tab1 1%nat) (Press tab1 alice)])
    by (repeat constructor).
  assert (H2 : sessions aliceHasOneTab !! lit "alice"
                 = Some (sessionOfAlice aliceHasOneTab))
    by (vm_compute; reflexivity).
  assert (H3 : 5000000 - lastAccess (sessionOfAlice aliceHasOneTab)
                 > SESSION_TIMEOUT_MS)
    by (vm_compute; reflexivity).
  split; [exact H1|]. split; [exact H2|]. split; [exact H3|].
  apply (work_on_tabs_does_not_postpone_expiry
           [Request (calm tab1 1%nat) (Press tab1 alice)] aliceHasOneTab
           (lit "alice") (sessionOfAlice aliceHasOneTab) 5000000 H1 H2 H3).
Defined.

(** X15.  POST /tabs with its required fields, for a user who has a
    session, refreshes [lastAccess] whatever its outcome (200, 400, 429 or
    500): the session is the same browser context, last accessed now, and a
    clean-up tick within [SESSION_TIMEOUT_MS] from now leaves it in the
    registry. *)
Theorem creating_a_tab_postpones_expiry (env : Env)
    (userId sessionKey listItemId url : jsval) (st : ServerState)
    (session : Session) (tick : Z) :
  truthy userId = true ->
  truthy (orElse sessionKey listItemId) = true ->
  sessions st !! normalizeUserId userId = Some session ->
  tick - now env <= SESSION_TIMEOUT_MS ->
  exists s' : Session,
    sessions (sweep tick (snd (handle env (CreateTab userId sessionKey listItemId url) st)))
      !! normalizeUserId userId = Some s' /\
    context s' = context session /\
    lastAccess s' = now env.
Proof.
  intros Hu Hk Hs Htick. cbn [handle]. rewrite Hu, Hk. cbn [negb orb].
  assert (Hget : getSession env userId st
                 = (Returns (mkSession (context session) (tabGroups session) (now env)),
                    mkServerState
                      (<[normalizeUserId userId :=
                           mkSession (context session) (tabGroups session) (now env)]>
                         (sessions st)) (pagesCreated st))).
  { unfold getSession. cbn zeta. rewrite Hs. reflexivity. }
  destruct (createIn_session env userId (orElse sessionKey listItemId) url false
              (fun tabId p => Created tabId (pageUrl env p)) st _ _ Hget)
    as (s' & Hs' & Hctx & Hla & _ & _).
  exists s'. split; [|split; [exact Hctx|exact Hla]].
  apply sweep_lookup. split.
  - rewrite Hs'. apply lookup_insert_eq.
  - rewrite Hla. exact Htick.
Qed.

Lemma creating_a_tab_postpones_expiry_witness :
  truthy alice = true /\
  truthy (orElse task JUndefined) = true /\
  sessions aliceHasOneTab !! normalizeUserId alice
    = Some (sessionOfAlice aliceHasOneTab) /\
  1800000 - now (noPage tab1) <= SESSION_TIMEOUT_MS /\
  exists s' : Session,
    sessions
      (sweep 1800000
         (snd (handle (noPage tab1) (CreateTab alice task JUndefined JUndefined)
                 aliceHasOneTab)))
      !! normalizeUserId alice = Some s' /\
    context s' = context (sessionOfAlice aliceHasOneTab) /\
    lastAccess s' = now (noPage tab1).
Proof.
  assert (H1 : truthy alice = true) by reflexivity.
  assert (H2 : truthy (orElse task JUndefined) = true) by reflexivity.
  assert (H3 : sessions aliceHasOneTab !! normalizeUserId alice
                 = Some (sessionOfAlice aliceHasOneTab))
    by (vm_compute; reflexivity).
  assert (H4 : 1800000 - now (noPage tab1) <= SESSION_TIMEOUT_MS)
    by (vm_compute; discriminate).
  split; [exact H1|]. split; [exact H2|]. split; [exact H3|]. split; [exact H4|].
  apply (creating_a_tab_postpones_expiry (noPage tab1) alice task JUndefined JUndefined
           aliceHasOneTab (sessionOfAlice aliceHasOneTab) 1800000 H1 H2 H3 H4).
Defined.

(** *** Counting the calls *)

(** The state of a tab of a user. *)
Definition tabAt (st : ServerState) (userId : jsval) (tabId : jstring)
    : option TabState :=
  (fun l => f_tabState (l_found l)) <$> locate st userId tabId.

(** The user and the tab of a request that reaches [tabState.toolCalls++]
    once its tab is found: the alias routes check their fields first. *)
Definition counted (env : Env) (r : request) : option (jsval * jstring) :=
  match r with
  | Navigate tabId userId _ _ _ | Snapshot tabId userId | Click tabId userId _ _
  | TypeText tabId userId _ _ | Press tabId userId | Scroll tabId userId
  | Back tabId userId | Forward tabId userId | Refresh tabId userId
  | Links tabId userId _ _ => Some (userId, tabId)
  | NavigateAlias (JStr tabId) url userId =>
      if (truthy userId && truthy url)%bool then
        match validateUrl env url with
        | None => Some (userId, tabId)
        | Some _ => None
        end
      else None
  | SnapshotAlias (JStr tabId) userId =>
      if truthy userId then Some (userId, tabId) else None
  | Act kind (JStr tabId) userId _ _ _ _ =>
      if (truthy userId && truthy kind
          && negb (bool_decide (kind = JStr (lit "close"))))%bool
      then Some (userId, tabId) else None
  | _ => None
  end.

Definition countsOnce (k : TabState -> response * TabState) : Prop :=
  forall ts : TabState,
    toolCalls (snd (k ts)) = toolCalls ts + 1 /\ page (snd (k ts)) = page ts.

Lemma tabAt_storeTab (st : ServerState) (userId : jsval) (tabId : jstring)
    (l : located) (ts : TabState) :
  locate st userId tabId = Some l ->
  tabAt (storeTab l tabId ts st) userId tabId = Some ts.
Proof.
  unfold tabAt, locate.
  destruct (sessions st !! normalizeUserId userId) as [session|] eqn:Hs;
    [|discriminate].
  destruct (findTab session tabId) as [f|] eqn:Hf; [|discriminate].
  intros Hl. injection Hl as <-. simpl. rewrite lookup_insert_eq.
  unfold findTab in *. simpl. rewrite (findTabIn_stored _ _ _ ts Hf). reflexivity.
Qed.

Lemma onTab_counts (st : ServerState) (userId : jsval) (tabId : jstring)
    (k : TabState -> response * TabState) (ts : TabState) :
  countsOnce k ->
  tabAt st userId tabId = Some ts ->
  exists ts' : TabState,
    tabAt (snd (onTab st userId tabId k)) userId tabId = Some ts' /\
    toolCalls ts' = toolCalls ts + 1 /\ page ts' = page ts.
Proof.
  intros Hk Hts. unfold tabAt in Hts. unfold onTab.
  destruct (locate st userId tabId) as [l|] eqn:Hl; [|discriminate].
  injection Hts as <-. specialize (Hk (f_tabState (l_found l))).
  destruct (k (f_tabState (l_found l))) as [resp ts']. cbn [snd] in *.
  exists ts'. split; [apply tabAt_storeTab; exact Hl|exact Hk].
Qed.

Ltac settle_counts :=
  repeat match goal with
         | |- context [match ?x with _ => _ end] => destruct x
         | |- context [if ?b then _ else _] => destruct b
         end;
  split; reflexivity.

Lemma gotoAndRebuild_counts (env : Env) (url : jsval) (reply : jstring -> body) :
  countsOnce (fun ts => gotoAndRebuild env url reply (countCall ts)).
Proof. intros ts. unfold gotoAndRebuild, buildRefs. settle_counts. Qed.

Lemma moveAndRebuild_counts (env : Env) :
  countsOnce (fun ts => moveAndRebuild env (countCall ts)).
Proof. intros ts. unfold moveAndRebuild, buildRefs. settle_counts. Qed.

Lemma justEngine_counts (env : Env) (reply : body) :
  countsOnce (fun ts => justEngine env reply (countCall ts)).
Proof. intros ts. unfold justEngine. settle_counts. Qed.

Lemma navigateTab_counts (env : Env) (url macro query : jsval) :
  countsOnce (navigateTab env url macro query).
Proof.
  intros ts. unfold navigateTab. cbn zeta.
  destruct (negb (truthy _)); [split; reflexivity|].
  destruct (validateUrl env _); [split; reflexivity|].
  apply (gotoAndRebuild_counts env _ OkUrl ts).
Qed.

Lemma snapshotTab_counts (env : Env) (annotate : refTable -> option jstring -> jstring)
    (reply : jstring -> jstring -> Z -> body) :
  countsOnce (snapshotTab env annotate reply).
Proof. intros ts. unfold snapshotTab, buildRefs. cbn zeta. settle_counts. Qed.

Lemma clickTab_counts (env : Env) (ref selector : jsval) :
  countsOnce (clickTab env ref selector).
Proof.
  intros ts. unfold clickTab. cbn zeta.
  destruct (negb (truthy ref) && negb (truthy selector))%bool; [split; reflexivity|].
  destruct (truthy ref && negb (refIsKnown ref (refs (countCall ts))))%bool;
    [split; reflexivity|].
  destruct (engine env); [|split; reflexivity].
  destruct (buildRefs env); split; reflexivity.
Qed.

Lemma typeTab_counts (env : Env) (ref selector : jsval) :
  countsOnce (typeTab env ref selector).
Proof.
  intros ts. unfold typeTab. cbn zeta.
  destruct (negb (truthy ref) && negb (truthy selector))%bool; [split; reflexivity|].
  destruct (truthy ref && negb (refIsKnown ref (refs (countCall ts))))%bool;
    [split; reflexivity|].
  apply (justEngine_counts env Ok ts).
Qed.

Lemma linksTab_counts (env : Env) (limit offset : Z) :
  countsOnce (linksTab env limit offset).
Proof. intros ts. unfold linksTab. cbn zeta. destruct (engine env); split; reflexivity. Qed.

Lemma actTab_counts (env : Env) (kind targetId ref selector text key : jsval) :
  countsOnce (fun ts => actTab env kind targetId ref selector text key (countCall ts)).
Proof.
  intros ts. unfold actTab. cbn zeta. unfold justEngine.
  repeat match goal with
         | |- context [if ?b then _ else _] => destruct b
         end;
    try (split; reflexivity);
    destruct (engine env); try (split; reflexivity);
    destruct (buildRefs env); split; reflexivity.
Qed.

(** X16.  Every call on a tab is counted once, also the calls that fail:
    a request of a route that counts, once its tab is found, leaves the tab
    in place with the same page and with [toolCalls] one higher, whether it
    is answered 200, 400 or 500. *)
Theorem every_call_is_counted_once (env : Env) (r : request) (userId : jsval)
    (tabId : jstring) (st : ServerState) (ts : TabState) :
  counted env r = Some (userId, tabId) ->
  tabAt st userId tabId = Some ts ->
  exists ts' : TabState,
    tabAt (snd (handle env r st)) userId tabId = Some ts' /\
    toolCalls ts' = toolCalls ts + 1 /\
    page ts' = page ts.
Proof.
  intros Hr Hts.
  destruct r; cbn [counted] in Hr; try discriminate;
    try (injection Hr as <- <-; cbn [handle]).
  - apply onTab_counts; [apply navigateTab_counts|exact Hts].
  - apply onTab_counts; [apply snapshotTab_counts|exact Hts].
  - apply onTab_counts; [apply clickTab_counts|exact Hts].
  - apply onTab_counts; [apply typeTab_counts|exact Hts].
  - apply onTab_counts; [apply (justEngine_counts env Ok)|exact Hts].
  - apply onTab_counts; [apply (justEngine_counts env Ok)|exact Hts].
  - apply onTab_counts; [apply moveAndRebuild_counts|exact Hts].
  - apply onTab_counts; [apply moveAndRebuild_counts|exact Hts].
  - apply onTab_counts; [apply moveAndRebuild_counts|exact Hts].
  - apply onTab_counts; [apply linksTab_counts|exact Hts].
  - (* POST /navigate *)
    destruct targetId; try discriminate.
    destruct (truthy userId0) eqn:Hu; [|discriminate].
    destruct (truthy url) eqn:Hurl; [|discriminate]. cbn [andb] in Hr.
    destruct (validateUrl env url) eqn:Hv; [discriminate|].
    injection Hr as <- <-. cbn [handle]. rewrite Hu, Hurl, Hv. cbn [negb targetTab].
    apply onTab_counts; [apply gotoAndRebuild_counts|exact Hts].
  - (* GET /snapshot *)
    destruct targetId; try discriminate.
    destruct (truthy userId0) eqn:Hu; [|discriminate].
    injection Hr as <- <-. cbn [handle]. rewrite Hu. cbn [negb targetTab].
    apply onTab_counts; [apply snapshotTab_counts|exact Hts].
  - (* POST /act *)
    destruct targetId; try discriminate.
    destruct (truthy userId0) eqn:Hu; [|discriminate].
    destruct (truthy kind) eqn:Hkind; [|discriminate].
    destruct (bool_decide (kind = JStr (lit "close"))) eqn:Hclose; [discriminate|].
    injection Hr as <- <-. cbn [handle]. rewrite Hu, Hkind. cbn [negb targetTab].
    unfold tabAt in Hts.
    destruct (locate st userId0 s) as [l|] eqn:Hl; [|discriminate].
    injection Hts as <-. cbn zeta. rewrite Hclose.
    pose proof (actTab_counts env kind (JStr s) ref selector text key
                  (f_tabState (l_found l))) as Hk.
    cbn beta in Hk.
    destruct (actTab env kind (JStr s) ref selector text key
                (countCall (f_tabState (l_found l)))) as [resp ts'].
    cbn [snd] in *. exists ts'. split; [apply tabAt_storeTab; exact Hl|exact Hk].
Qed.

Lemma every_call_is_counted_once_witness :
  counted (noPage tab1) (Navigate tab1 alice JUndefined JUndefined JUndefined)
    = Some (alice, tab1) /\
  tabAt aliceHasOneTab alice tab1 = Some (createTabState 1) /\
  exists ts' : TabState,
    tabAt (snd (handle (noPage tab1)
                  (Navigate tab1 alice JUndefined JUndefined JUndefined)
                  aliceHasOneTab)) alice tab1 = Some ts' /\
    toolCalls ts' = toolCalls (createTabState 1) + 1 /\
    page ts' = page (createTabState 1).
Proof.
  assert (H1 : counted (noPage tab1)
                 (Navigate tab1 alice JUndefined JUndefined JUndefined)
               = Some (alice, tab1)) by reflexivity.
  assert (H2 : tabAt aliceHasOneTab alice tab1 = Some (createTabState 1))
    by (vm_compute; reflexivity).
  split; [exact H1|]. split; [exact H2|].
  apply (every_call_is_counted_once (noPage tab1)
           (Navigate tab1 alice JUndefined JUndefined JUndefined) alice tab1
           aliceHasOneTab (createTabState 1) H1 H2).
Defined.

(** *** The URL a route loads *)

(** The URL that a route hands to [page.goto], when it is given one. *)
Definition targetOf (env : Env) (r : request) : option jsval :=
  match r with
  | CreateTab _ _ _ url => if truthy url then Some url else None
  | OpenTab url _ _ => Some url
  | Navigate _ _ url macro query =>
      Some (if truthy macro then
              orElse (match expandMacro env macro query with
                      | Some u => JStr u
                      | None => JNull
                      end) url
            else url)
  | NavigateAlias _ url _ => Some url
  | _ => None
  end.

Lemma validateUrl_allows (env : Env) (url : jsval) :
  validateUrl env url = None ->
  exists protocol : jstring,
    urlProtocol env (toStr url) = Some protocol /\
    (protocol = lit "http:" \/ protocol = lit "https:").
Proof.
  unfold validateUrl. destruct (urlProtocol env (toStr url)) as [protocol|];
    [|discriminate].
  destruct (includes ALLOWED_URL_SCHEMES protocol) eqn:Hin; [|discriminate].
  intros _. exists protocol. split; [reflexivity|].
  unfold includes, ALLOWED_URL_SCHEMES in Hin. simpl in Hin.
  apply orb_prop in Hin as [H|H].
  - apply bool_decide_eq_true in H. auto.
  - rewrite orb_false_r in H. apply bool_decide_eq_true in H. auto.
Qed.

Lemma onTab_200 (st : ServerState) (userId : jsval) (tabId : jstring)
    (k : TabState -> response * TabState) :
  status (fst (onTab st userId tabId k)) = 200 ->
  exists ts : TabState, status (fst (k ts)) = 200.
Proof.
  unfold onTab. destruct (locate st userId tabId) as [l|]; [|discriminate].
  destruct (k (f_tabState (l_found l))) as [resp ts'] eqn:E. simpl.
  intros H. exists (f_tabState (l_found l)). rewrite E. exact H.
Qed.

Lemma createIn_200 (env : Env) (userId groupKey url : jsval)
    (reply : jstring -> nat -> body) (st : ServerState) :
  truthy url = true ->
  status (fst (createIn env userId groupKey url false reply st)) = 200 ->
  validateUrl env url = None.
Proof.
  intros Hurl. unfold createIn.
  destruct (getSession env userId st) as [[session|message] st1]; [|discriminate].
  destruct (totalTabs session >=? MAX_TABS_PER_SESSION); [discriminate|].
  destruct (getTabGroup session groupKey) as [group session1].
  destruct (newPage env) as [p|]; [|discriminate].
  cbn zeta. rewrite Hurl.
  destruct (validateUrl env url); [discriminate|reflexivity].
Qed.

(** X17.  No route answers 200 for a URL whose scheme is not http or
    https: when a creation or a navigation that was given a URL, or a macro
    that expands to one, is answered 200, that URL parses and its protocol
    is [http:] or [https:]. *)
Theorem only_http_urls_are_loaded (env : Env) (r : request) (st : ServerState)
    (target : jsval) :
  targetOf env r = Some target ->
  status (fst (handle env r st)) = 200 ->
  exists protocol : jstring,
    urlProtocol env (toStr target) = Some protocol /\
    (protocol = lit "http:" \/ protocol = lit "https:").
Proof.
  intros Ht H200. apply validateUrl_allows.
  destruct r; cbn [targetOf] in Ht; try discriminate; cbn [handle] in H200.
  - (* POST /tabs *)
    destruct (truthy url) eqn:Hurl; [|discriminate]. injection Ht as <-.
    destruct (negb (truthy userId) || negb (truthy (orElse sessionKey listItemId)))%bool;
      [discriminate|].
    exact (createIn_200 env _ _ _ _ _ Hurl H200).
  - (* POST /tabs/:tabId/navigate *)
    injection Ht as <-.
    apply onTab_200 in H200 as [ts H200]. revert H200. unfold navigateTab. cbn zeta.
    destruct (negb (truthy _)); [discriminate|].
    destruct (validateUrl env _); [discriminate|reflexivity].
  - (* POST /tabs/open *)
    injection Ht as <-.
    destruct (negb (truthy userId)); [discriminate|].
    destruct (negb (truthy url)); [discriminate|].
    destruct (validateUrl env url); [discriminate|reflexivity].
  - (* POST /navigate *)
    injection Ht as <-.
    destruct (negb (truthy userId)); [discriminate|].
    destruct (negb (truthy url)); [discriminate|].
    destruct (validateUrl env url); [discriminate|reflexivity].
Qed.

Lemma only_http_urls_are_loaded_witness :
  targetOf (calm tab1 1%nat) (OpenTab (JStr (lit "https://example.com/")) alice JUndefined)
    = Some (JStr (lit "https://example.com/")) /\
  status (fst (handle (calm tab1 1%nat)
                 (OpenTab (JStr (lit "https://example.com/")) alice JUndefined)
                 emptyServer)) = 200 /\
  exists protocol : jstring,
    urlProtocol (calm tab1 1%nat) (toStr (JStr (lit "https://example.com/")))
      = Some protocol /\
    (protocol = lit "http:" \/ protocol = lit "https:").
Proof.
  assert (H1 : targetOf (calm tab1 1%nat)
                 (OpenTab (JStr (lit "https://example.com/")) alice JUndefined)
               = Some (JStr (lit "https://example.com/"))) by reflexivity.
  assert (H2 : status (fst (handle (calm tab1 1%nat)
                 (OpenTab (JStr (lit "https://example.com/")) alice JUndefined)
                 emptyServer)) = 200) by (vm_compute; reflexivity).
  split; [exact H1|]. split; [exact H2|].
  apply (only_http_urls_are_loaded (calm tab1 1%nat)
           (OpenTab (JStr (lit "https://example.com/")) alice JUndefined)
           emptyServer (JStr (lit "https://example.com/")) H1 H2).
Defined.

(** *** Pages of links, lists of tabs *)

(** X18.  A page of GET /tabs/:tabId/links, for an offset that is not
    negative and a positive limit: the links of the page are the next links
    from the offset on, [limit] of them at most, so that the page and the
    links after it make up the links from the offset on; [hasMore] tells
    whether any link comes after the page. *)
Theorem links_page_and_the_rest (env : Env) (limit offset : Z) (ts : TabState)
    (u : unit) :
  engine env = Returns u ->
  0 <= offset ->
  0 < limit ->
  exists (page : list (jstring * jstring)) (more : bool),
    fst (linksTab env limit offset ts)
      = ok (LinksBody page (len (pageLinks env)) offset limit more) /\
    len page <= limit /\
    page ++ drop (Z.to_nat (offset + limit)) (pageLinks env)
      = drop (Z.to_nat offset) (pageLinks env) /\
    (more = true <-> drop (Z.to_nat (offset + limit)) (pageLinks env) <> []).
Proof.
  intros He Hoff Hlim. unfold linksTab. cbn zeta. rewrite He. cbn [fst].
  eexists _, _. split; [reflexivity|].
  set (all := pageLinks env).
  unfold slice, slice_index, len.
  destruct (Z.ltb_spec offset 0) as [?|_]; [lia|].
  destruct (Z.ltb_spec (offset + limit) 0) as [?|_]; [lia|].
  split; [rewrite length_take, length_drop; lia|]. split.
  - destruct (Z.le_gt_cases (Z.of_nat (length all)) offset) as [Hpast|Hin].
    + rewrite !Z.min_r by lia.
      rewrite !drop_ge by lia. rewrite take_nil. reflexivity.
    + rewrite (Z.min_l offset) by lia.
      destruct (Z.le_gt_cases (Z.of_nat (length all)) (offset + limit)) as [Hend|Hmid].
      * rewrite Z.min_r by lia. rewrite (drop_ge all (Z.to_nat (offset + limit))) by lia.
        rewrite app_nil_r. apply take_ge. rewrite length_drop. lia.
      * rewrite Z.min_l by lia.
        replace (Z.to_nat (offset + limit))
          with (Z.to_nat offset + Z.to_nat (offset + limit - offset))%nat by lia.
        rewrite <- drop_drop. apply take_drop.
  - rewrite Z.ltb_lt. split.
    + intros Hmore Hnil. apply (f_equal length) in Hnil.
      rewrite length_drop in Hnil. simpl in Hnil. lia.
    + intros Hrest. destruct (Z.lt_ge_cases (offset + limit) (Z.of_nat (length all)))
        as [H|H]; [exact H|].
      exfalso. apply Hrest. apply drop_ge. lia.
Qed.

Lemma links_page_and_the_rest_witness :
  engine (calm tab1 1%nat) = Returns tt /\ 0 <= 0 /\ 0 < 50 /\
  exists (page : list (jstring * jstring)) (more : bool),
    fst (linksTab (calm tab1 1%nat) 50 0 (createTabState 1))
      = ok (LinksBody page (len (pageLinks (calm tab1 1%nat))) 0 50 more) /\
    len page <= 50 /\
    page ++ drop (Z.to_nat (0 + 50)) (pageLinks (calm tab1 1%nat))
      = drop (Z.to_nat 0) (pageLinks (calm tab1 1%nat)) /\
    (more = true <-> drop (Z.to_nat (0 + 50)) (pageLinks (calm tab1 1%nat)) <> []).
Proof.
  split; [reflexivity|]. split; [lia|]. split; [lia|].
  apply (links_page_and_the_rest (calm tab1 1%nat) 50 0 (createTabState 1) tt);
    [reflexivity|lia|lia].
Defined.

Lemma concat_groups_length (env : Env) (groups : JsMap.t jsval Group) :
  Z.of_nat
    (length
       (List.concat
          (List.map
             (fun '(listItemId, group) =>
                List.map
                  (fun '(tabId, ts) =>
                     (tabId, pageUrl env (page ts), pageTitle env (page ts),
                      listItemId))
                  group)
             groups)))
  = countTabs groups.
Proof.
  induction groups as [|[k g] groups IH]; [reflexivity|].
  rewrite countTabs_cons. cbn [List.map List.concat].
  rewrite length_app, Nat2Z.inj_add, IH. unfold JsMap.size.
  rewrite List.length_map. reflexivity.
Qed.

(** X19.  GET /tabs lists the tabs that the quota counts: the list has one
    entry for each tab of each group of the session, as many as
    [totalTabs] adds up when POST /tabs checks the quota; a user without a
    session gets the empty list. *)
Theorem tab_list_has_the_counted_tabs (env : Env) (userId : jsval) (st : ServerState) :
  exists tabs : list (jstring * jstring * jstring * jsval),
    handle env (ListTabs userId) st = (ok (TabsBody tabs), st) /\
    len tabs
      = match sessions st !! normalizeUserId userId with
        | Some session => totalTabs session
        | None => 0
        end.
Proof.
  cbn [handle].
  destruct (sessions st !! normalizeUserId userId) as [session|].
  - eexists. split; [reflexivity|]. unfold len.
    rewrite totalTabs_countTabs. apply concat_groups_length.
  - exists []. split; reflexivity.
Qed.

End ServerMore.

(** ** More on the tab lock *)

Module TabLockMore.
Import TabLock.

(** *** Failure and success *)

(** A run, a promise, a trace and a state with the outcomes of the
    operations left out of account: every operation counts as fulfilled. *)
Definition forgetEvent (e : event) : event :=
  match e with
  | Finish call _ => Finish call true
  | Submit call tabId => Submit call tabId
  end.

Definition forgetPromise (p : promiseState) : promiseState :=
  match p with
  | Settled _ => Settled true
  | Pending awaiting => Pending awaiting
  end.

Definition forgetTrace (t : traceEvent) : traceEvent :=
  match t with
  | Settle call _ => Settle call true
  | Begin call tabId => Begin call tabId
  end.

Definition forgetState (st : state) : state :=
  State (tabLocks st) (forgetPromise <$> promises st)
        (List.map forgetTrace (trace st)).

Lemma forget_startOperation (call : nat) (tabId : jstring) (st : state) :
  forgetState (startOperation call tabId st)
    = startOperation call tabId (forgetState st).
Proof.
  unfold forgetState, startOperation. simpl.
  rewrite fmap_insert, List.map_app. reflexivity.
Qed.

Lemma forget_cleanUp (call : nat) (tabId : jstring) (st : state) :
  forgetState (cleanUp call tabId st) = cleanUp call tabId (forgetState st).
Proof.
  unfold cleanUp. cbn [forgetState tabLocks].
  destruct (tabLocks st !! tabId) as [current|]; [|reflexivity].
  destruct (decide (current = call)); reflexivity.
Qed.

Lemma forget_resume (st : state) (k : continuation) :
  forgetState (resume st k) = resume (forgetState st) k.
Proof.
  destruct k; [apply forget_startOperation|apply forget_cleanUp].
Qed.

Lemma forget_resumes (ks : list continuation) (st : state) :
  forgetState (fold_left resume ks st) = fold_left resume ks (forgetState st).
Proof.
  revert st. induction ks as [|k ks IH]; intros st; [reflexivity|].
  simpl. rewrite IH, forget_resume. reflexivity.
Qed.

Lemma forget_step (st : state) (e : event) :
  forgetState (step st e) = step (forgetState st) (forgetEvent e).
Proof.
  destruct e as [call tabId|call fulfilled]; cbn [step forgetEvent].
  - unfold withTabLock. cbn [forgetState tabLocks promises].
    destruct (tabLocks st !! tabId) as [pending|];
      [|apply forget_startOperation].
    rewrite lookup_fmap.
    destruct (promises st !! pending) as [[awaiting|f]|]; cbn [fmap option_fmap option_map forgetPromise];
      try apply forget_startOperation.
    unfold forgetState. simpl. rewrite fmap_insert. reflexivity.
  - unfold settle. cbn [forgetState promises]. rewrite lookup_fmap.
    destruct (promises st !! call) as [[awaiting|f]|]; cbn [fmap option_fmap option_map forgetPromise];
      try reflexivity.
    rewrite forget_resumes. f_equal.
    unfold forgetState. simpl. rewrite fmap_insert, List.map_app. reflexivity.
Qed.

(** X20.  A failed operation releases the lock and lets the waiting calls
    go on as a fulfilled one does: the lock table and the order in which
    operations begin and settle do not depend on whether the operations
    fulfil or reject. *)
Theorem failure_releases_like_success (es : list event) :
  tabLocks (run es) = tabLocks (run (List.map forgetEvent es)) /\
  List.map forgetTrace (trace (run es)) = trace (run (List.map forgetEvent es)).
Proof.
  assert (H : forall st : state,
            forgetState (fold_left step es st)
              = fold_left step (List.map forgetEvent es) (forgetState st)).
  { induction es as [|e es IH]; intros st; [reflexivity|].
    simpl. rewrite IH, forget_step. reflexivity. }
  specialize (H init). unfold run.
  change (forgetState init) with init in H. rewrite <- H. split; reflexivity.
Qed.

(** X21.  A call that arrives while an operation is in flight on its tab,
    with no other call waiting, awaits that operation: its own operation
    begins right when the running one settles, fulfilled or rejected, and
    the lock of the tab is then its promise. *)
Theorem waiting_call_begins_when_the_running_one_settles (st : state)
    (running call : nat) (tabId : jstring) (fulfilled : bool) :
  tabLocks st !! tabId = Some running ->
  promises st !! running = Some (Pending [AfterOwn running tabId]) ->
  trace (step st (Submit call tabId)) = trace st /\
  trace (step (step st (Submit call tabId)) (Finish running fulfilled))
    = trace st ++ [Settle running fulfilled; Begin call tabId] /\
  tabLocks (step (step st (Submit call tabId)) (Finish running fulfilled)) !! tabId
    = Some call.
Proof.
  intros Hlock Hrun. cbn [step]. unfold withTabLock. rewrite Hlock, Hrun.
  split; [reflexivity|].
  unfold settle. cbn [promises]. rewrite lookup_insert_eq.
  cbn [app fold_left resume]. unfold cleanUp at 1. cbn [tabLocks]. rewrite Hlock.
  destruct (decide (running = running)) as [_|Hne]; [|congruence].
  unfold startOperation. cbn [trace tabLocks]. split.
  - rewrite <- app_assoc. reflexivity.
  - apply lookup_insert_eq.
Qed.

Lemma waiting_call_begins_when_the_running_one_settles_witness :
  tabLocks (run [Submit 1 (lit "T")]) !! lit "T" = Some 1%nat /\
  promises (run [Submit 1 (lit "T")]) !! 1%nat
    = Some (Pending [AfterOwn 1 (lit "T")]) /\
  trace (step (run [Submit 1 (lit "T")]) (Submit 2 (lit "T")))
    = trace (run [Submit 1 (lit "T")]) /\
  trace (step (step (run [Submit 1 (lit "T")]) (Submit 2 (lit "T"))) (Finish 1 false))
    = trace (run [Submit 1 (lit "T")]) ++ [Settle 1 false; Begin 2 (lit "T")] /\
  tabLocks (step (step (run [Submit 1 (lit "T")]) (Submit 2 (lit "T")))
              (Finish 1 false)) !! lit "T"
    = Some 2%nat.
Proof.
  assert (H1 : tabLocks (run [Submit 1 (lit "T")]) !! lit "T" = Some 1%nat)
    by (vm_compute; reflexivity).
  assert (H2 : promises (run [Submit 1 (lit "T")]) !! 1%nat
                 = Some (Pending [AfterOwn 1 (lit "T")]))
    by (vm_compute; reflexivity).
  split; [exact H1|]. split; [exact H2|].
  apply (waiting_call_begins_when_the_running_one_settles
           (run [Submit 1 (lit "T")]) 1 2 (lit "T") false H1 H2).
Defined.

End TabLockMore.

(** ** Properties of the cookie checks *)

Module CookiesFacts.
Import Refs Server Cookies.

Lemma missingOf_nil (c : json) :
  missingOf c = [] <->
  isFilledString (prop c (lit "name")) = true /\
  isString (prop c (lit "value")) = true /\
  isFilledString (prop c (lit "domain")) = true.
Proof.
  unfold missingOf.
  destruct (isFilledString (prop c (lit "name")));
    destruct (isString (prop c (lit "value")));
    destruct (isFilledString (prop c (lit "domain"))); simpl;
    split; try discriminate; try tauto; intros (? & ? & ?); discriminate.
Qed.

Lemma invalidFrom_nil (cookies : list json) (i : Z) :
  invalidFrom i cookies = [] <-> forallb wellFormed cookies = true.
Proof.
  revert i. induction cookies as [|c rest IH]; intros i; simpl; [tauto|].
  unfold wellFormed at 1.
  destruct (isObject c); simpl; [|split; discriminate].
  pose proof (missingOf_nil c) as Hm.
  destruct (missingOf c) as [|m ms].
  - destruct Hm as [Hm _]. destruct (Hm eq_refl) as (-> & -> & ->). simpl.
    apply IH.
  - split; [discriminate|]. intros H. exfalso.
    apply andb_prop in H as [H _].
    destruct Hm as [_ Hm].
    destruct (isFilledString (prop c (lit "name"))); [|discriminate].
    destruct (isString (prop c (lit "value"))); [|discriminate].
    destruct (isFilledString (prop c (lit "domain"))); [|discriminate].
    specialize (Hm (conj eq_refl (conj eq_refl eq_refl))). discriminate.
Qed.

(** The checks let a value through exactly when it is an array of at most
    500 well-formed cookies. *)
Lemma checkCookies_passes (cookies : json)
    (sanitized : list (list (jstring * json))) :
  checkCookies cookies = Sanitized sanitized
  <-> exists items : list json,
        cookies = VArray items /\
        len items <= 500 /\
        forallb wellFormed items = true /\
        sanitized = List.map sanitize items.
Proof.
  unfold checkCookies. split.
  - destruct cookies as [| | | |items|]; try discriminate.
    destruct (Z.gtb_spec (len items) 500) as [|Hlen]; [discriminate|].
    destruct (invalidFrom 0 items) eqn:Hinv; [|discriminate].
    intros H. injection H as <-. exists items.
    repeat split; [exact Hlen|]. apply (invalidFrom_nil items 0). exact Hinv.
  - intros (items & -> & Hlen & Hwf & ->).
    destruct (Z.gtb_spec (len items) 500) as [|_]; [lia|].
    apply (invalidFrom_nil items 0) in Hwf. rewrite Hwf. reflexivity.
Qed.

(** [getSession] returns when the user has a session, or when there is
    room for one more and the browser gives a context. *)
Lemma getSession_returns (env : Env) (userId : jsval) (st : ServerState) :
  (exists (session : Session) (st1 : ServerState),
     getSession env userId st = (Returns session, st1))
  <-> is_Some (sessions st !! normalizeUserId userId) \/
      (Z.of_nat (size (sessions st)) < MAX_SESSIONS /\
       exists ctx : nat, newContext env = Returns ctx).
Proof.
  unfold getSession. cbn zeta.
  destruct (sessions st !! normalizeUserId userId) as [session|].
  - split; [eauto|]. intros _. eauto.
  - destruct (Z.geb_spec (Z.of_nat (size (sessions st))) MAX_SESSIONS) as [Hfull|Hroom].
    + split.
      * intros (session & st1 & H). discriminate H.
      * intros [[x Hx]|[Hlt _]]; [discriminate Hx|lia].
    + destruct (newContext env) as [ctx|message].
      * split; [|eauto]. intros _. right. split; [lia|eauto].
      * split.
        -- intros (session & st1 & H). discriminate H.
        -- intros [[x Hx]|[_ [ctx Hctx]]]; [discriminate Hx|discriminate Hctx].
Qed.

(** X22.  POST /sessions/:userId/cookies calls [context.addCookies]
    exactly when the API key is set and the [Authorization] header carries
    it, the body is an object whose [cookies] field is an array of at most
    500 entries that are all objects with a non-empty string [name], a
    string [value] and a non-empty string [domain], and [getSession] returns
    (the user has a session, or there is room for one and the browser gives a
    context); the list handed over is then the cookies of the request, as
    many and in the same order, each cut down to its allowed fields.  The
    answer is 200 exactly when the call was made and returned. *)
Theorem cookies_reach_the_context (env : Env) (apiKey : option jstring)
    (utf8 : jstring -> list N) (addCookies : outcome unit)
    (authorization : option jstring) (userId : jstring) (body : parsedBody)
    (st : ServerState) (sanitized : list (list (jstring * json))) :
  let r := importCookies env apiKey utf8 addCookies authorization userId body st in
  (handedOver r = Some sanitized
   <-> authorize apiKey utf8 authorization = Open /\
       (exists (fields : list (jstring * json)) (items : list json),
          body = BodyObject fields /\
          JsMap.get (lit "cookies") fields = Some (VArray items) /\
          len items <= 500 /\
          forallb wellFormed items = true /\
          sanitized = List.map sanitize items) /\
       (is_Some (sessions st !! userId) \/
        (Z.of_nat (size (sessions st)) < MAX_SESSIONS /\
         exists ctx : nat, newContext env = Returns ctx))) /\
  (statusOf (answered r) = 200
   <-> is_Some (handedOver r) /\ exists u : unit, addCookies = Returns u).
Proof.
  cbn zeta. unfold importCookies.
  pose proof (getSession_returns env (JStr userId) st) as Hget.
  change (normalizeUserId (JStr userId)) with userId in Hget.
  destruct (authorize apiKey utf8 authorization).
  1,2: split; (split; [discriminate|]);
       [intros (H & _); discriminate H|intros ([x Hx] & _); discriminate Hx].
  destruct body as [|items0|fields].
  1,2: split; (split; [discriminate|]);
       [intros (_ & (f & i & H & _) & _); discriminate H
       |intros ([x Hx] & _); discriminate Hx].
  destruct (JsMap.get (lit "cookies") fields) as [cookies|] eqn:Hfield.
  2:{ split; (split; [discriminate|]).
      - intros (_ & (f & i & H & Hf & _) & _). injection H as <-. congruence.
      - intros ([x Hx] & _). discriminate Hx. }
  pose proof (fun l => checkCookies_passes cookies l) as Hcheck.
  destruct (checkCookies cookies) as [| |invalid|clean].
  1,2,3: split; (split; [discriminate|]);
         [intros (_ & (f & i & H & Hf & Hlen & Hwf & Hs) & _);
          injection H as <-; rewrite Hfield in Hf; injection Hf as ->;
          exfalso;
          pose proof (proj2 (Hcheck sanitized)
                        (ex_intro _ i (conj eq_refl (conj Hlen (conj Hwf Hs)))))
            as Hbad;
          discriminate Hbad
         |intros ([x Hx] & _); discriminate Hx].
  destruct (proj1 (Hcheck clean) eq_refl) as (items & -> & Hlen & Hwf & ->).
  destruct (getSession env (JStr userId) st) as [[session|message] st1].
  - assert (Hroom : is_Some (sessions st !! userId) \/
                    Z.of_nat (size (sessions st)) < MAX_SESSIONS /\
                    (exists ctx : nat, newContext env = Returns ctx))
      by (apply Hget; eauto).
    split.
    + split.
      * intros H.
        assert (Hs : sanitized = List.map sanitize items)
          by (destruct addCookies; simpl in H; congruence).
        split; [reflexivity|]. split; [|exact Hroom].
        exists fields, items. repeat split; assumption.
      * intros (_ & (f & i & H & Hf & _ & _ & ->) & _).
        injection H as <-. rewrite Hfield in Hf. injection Hf as <-.
        destruct addCookies; reflexivity.
    + destruct addCookies as [u|message]; simpl.
      * split; [intros _; split; eauto|reflexivity].
      * split; [discriminate|]. intros (_ & u & Hu). discriminate Hu.
  - split.
    + split; [discriminate|].
      intros (_ & _ & Hroom). apply Hget in Hroom as (session & st1' & H).
      discriminate H.
    + split; [discriminate|]. intros ([x Hx] & _). discriminate Hx.
Qed.

Lemma pick_get (c : json) (names : list jstring) (k : jstring) :
  NoDup names ->
  JsMap.get k (pick c names) = if bool_decide (k ∈ names) then prop c k else None.
Proof.
  induction names as [|n names IH]; intros Hnd; [reflexivity|].
  apply NoDup_cons in Hnd as [Hn Hnd]. specialize (IH Hnd). simpl.
  destruct (decide (k = n)) as [->|Hne].
  - rewrite bool_decide_eq_true_2 by apply list_elem_of_here.
    destruct (prop c n) as [w|] eqn:Hw.
    + simpl. destruct (decide (n = n)); [reflexivity|congruence].
    + rewrite IH. rewrite bool_decide_eq_false_2 by exact Hn. reflexivity.
  - assert (Hiff : bool_decide (k ∈ n :: names) = bool_decide (k ∈ names)).
    { apply bool_decide_ext. rewrite elem_of_cons. tauto. }
    rewrite Hiff.
    destruct (prop c n) as [w|]; [|exact IH].
    simpl. destruct (decide (n = k)); [congruence|exact IH].
Qed.

Lemma allowedFields_NoDup : NoDup allowedFields.
Proof. apply (bool_decide_unpack _). vm_compute. exact I. Qed.

(** X23.  A sanitized cookie holds the allowed fields of the cookie it
    comes from, with their values, and nothing else: asking it for an
    allowed field gives what the request gave, asking it for any other field
    gives nothing. *)
Theorem sanitized_cookie_has_allowed_fields_only (c : json) (k : jstring) :
  JsMap.get k (sanitize c)
    = if bool_decide (k ∈ allowedFields) then prop c k else None.
Proof. apply pick_get, allowedFields_NoDup. Qed.

End CookiesFacts.

(** ** Properties of the yt-dlp arguments *)

Module YoutubeFacts.
Import Refs Server Youtube.

(** What [buildSafeEnv] lets through of a variable. *)
Definition passed (processEnv : gmap jstring jstring) (key : jstring)
    : option jstring :=
  match processEnv !! key with
  | Some value => if len value >? 0 then Some value else None
  | None => None
  end.

Lemma copySafe_get (processEnv : gmap jstring jstring) (names : list jstring)
    (key : jstring) :
  forall env : JsMap.t jstring jstring,
    JsMap.get key (copySafe processEnv names env)
      = if bool_decide (key ∈ names) then
          match passed processEnv key with
          | Some value => Some value
          | None => JsMap.get key env
          end
        else JsMap.get key env.
Proof.
  induction names as [|n names IH]; intros env; [reflexivity|].
  cbn [copySafe].
  destruct (decide (key = n)) as [->|Hne].
  - rewrite bool_decide_eq_true_2 by apply list_elem_of_here.
    unfold passed. destruct (processEnv !! n) as [value|] eqn:Hv.
    + destruct (len value >? 0) eqn:Hlen.
      * rewrite IH. unfold passed. rewrite Hv, Hlen.
        destruct (bool_decide (n ∈ names)); [reflexivity|].
        apply JsMapFacts.get_set_eq.
      * rewrite IH. unfold passed. rewrite Hv, Hlen.
        destruct (bool_decide (n ∈ names)); reflexivity.
    + rewrite IH. unfold passed. rewrite Hv.
      destruct (bool_decide (n ∈ names)); reflexivity.
  - assert (Hiff : bool_decide (key ∈ n :: names) = bool_decide (key ∈ names)).
    { apply bool_decide_ext. rewrite elem_of_cons. tauto. }
    rewrite Hiff.
    destruct (processEnv !! n) as [value|]; [|apply IH].
    destruct (len value >? 0); [|apply IH].
    rewrite IH, JsMapFacts.get_set_ne by congruence. reflexivity.
Qed.

(** X24.  The environment handed to yt-dlp holds a variable exactly when
    it is one of the six of [SAFE_ENV_KEYS] and is set to a non-empty string
    in the environment of the server, and then with the same value: no other
    variable of the server reaches the child process. *)
Theorem buildSafeEnv_passes_listed_variables_only
    (processEnv : gmap jstring jstring) (key : jstring) :
  JsMap.get key (buildSafeEnv processEnv)
    = if bool_decide (key ∈ SAFE_ENV_KEYS) then passed processEnv key else None.
Proof.
  unfold buildSafeEnv. rewrite copySafe_get.
  destruct (bool_decide (key ∈ SAFE_ENV_KEYS)); [|reflexivity].
  destruct (passed processEnv key); reflexivity.
Qed.

(** *** The language tag *)

Definition safeChar (c : char) : bool := (isAlnum c || isDash c)%bool.

Lemma safeChar_not_space (c : char) : safeChar c = true -> isSpace c = false.
Proof.
  intros Hc. apply not_true_is_false. intros Hs. revert Hc Hs.
  unfold safeChar, isAlnum, isDash, isSpace, inRange.
  rewrite !orb_true_iff, !andb_true_iff, !N.leb_le, !N.eqb_eq. lia.
Qed.

Lemma span_fst_all (p : char -> bool) (s : jstring) :
  forallb p (span p s).1 = true.
Proof.
  induction s as [|c s IH]; [reflexivity|]. simpl.
  destruct (p c) eqn:Hc; [|reflexivity].
  destruct (span p s) as [a b]. simpl in *. rewrite Hc, IH. reflexivity.
Qed.

Lemma isLower_safe (c : char) : isLower c = true -> safeChar c = true.
Proof.
  unfold safeChar, isAlnum, isLower. intros ->. reflexivity.
Qed.

(** A text that matches [LANG_RE]: two to twelve characters, letters,
    digits and dashes, the first one a lower-case letter. *)
Lemma LANG_RE_shape (lang : jstring) :
  LANG_RE_test lang = true ->
  2 <= len lang <= 12 /\
  forallb safeChar lang = true /\
  exists (c : char) (rest : jstring), lang = c :: rest /\ isLower c = true.
Proof.
  unfold LANG_RE_test.
  pose proof (RefsFacts.span_app isLower lang) as Happ.
  pose proof (span_fst_all isLower lang) as Hall.
  destruct (span isLower lang) as [letters rest]. simpl in Happ, Hall.
  intros H. apply andb_prop in H as [H Hrest]. apply andb_prop in H as [H2 H3].
  apply Z.leb_le in H2, H3.
  assert (Hletters : forallb safeChar letters = true).
  { apply forallb_forall. intros c Hc.
    apply isLower_safe. exact (proj1 (forallb_forall _ _) Hall c Hc). }
  assert (Hhead : exists (c : char) (tl : jstring),
            letters = c :: tl /\ isLower c = true).
  { destruct letters as [|c tl]; [unfold len in H2; simpl in H2; lia|].
    exists c, tl. split; [reflexivity|]. simpl in Hall.
    apply andb_prop in Hall as [Hc _]. exact Hc. }
  destruct Hhead as (c & tl & -> & Hc).
  subst lang. rewrite SnapshotFacts.len_app, forallb_app, Hletters.
  destruct rest as [|dash tail].
  - unfold len in *. simpl in *. repeat split; try lia. eauto.
  - apply andb_prop in Hrest as [Hrest Htail].
    apply andb_prop in Hrest as [Hrest H8]. apply andb_prop in Hrest as [Hdash H2'].
    apply Z.leb_le in H2', H8.
    split; [unfold len in *; simpl length in *; lia|]. split; [|simpl; eauto].
    simpl. unfold safeChar at 1. rewrite Hdash, orb_true_r. simpl.
    apply forallb_forall. intros x Hx. unfold safeChar.
    rewrite (proj1 (forallb_forall _ _) Htail x Hx). reflexivity.
Qed.

Lemma trimStart_id (c : char) (s : jstring) :
  isSpace c = false -> trimStart (c :: s) = c :: s.
Proof. intros H. simpl. rewrite H. reflexivity. Qed.

Lemma trim_id (s : jstring) :
  forallb safeChar s = true -> trim s = s.
Proof.
  intros Hs. unfold trim.
  assert (Hstart : forall t : jstring, forallb safeChar t = true -> trimStart t = t).
  { intros [|c t] Ht; [reflexivity|]. simpl in Ht.
    apply andb_prop in Ht as [Hc _].
    apply trimStart_id, safeChar_not_space, Hc. }
  rewrite (Hstart s Hs), Hstart, rev_involutive; [reflexivity|].
  apply forallb_forall. intros x Hx. apply in_rev in Hx.
  exact (proj1 (forallb_forall _ _) Hs x Hx).
Qed.

Lemma normalizeLanguage_matches (rawLang : jsval) :
  LANG_RE_test (normalizeLanguage rawLang) = true.
Proof.
  unfold normalizeLanguage. cbn zeta.
  destruct (LANG_RE_test (trim (toStr (orElse rawLang (JStr (lit "en")))))) eqn:E;
    [exact E|vm_compute; reflexivity].
Qed.

(** X25.  Whatever the request gives as language, the tag handed to
    yt-dlp after [--sub-lang] matches [LANG_RE]: it has two to twelve
    characters, all of them letters, digits or dashes, and it starts with a
    lower-case letter, so it is never read as an option. *)
Theorem normalizeLanguage_gives_a_tag (rawLang : jsval) :
  LANG_RE_test (normalizeLanguage rawLang) = true /\
  2 <= len (normalizeLanguage rawLang) <= 12 /\
  forallb safeChar (normalizeLanguage rawLang) = true /\
  exists (c : char) (rest : jstring),
    normalizeLanguage rawLang = c :: rest /\ isLower c = true.
Proof.
  split; [apply normalizeLanguage_matches|].
  apply LANG_RE_shape, normalizeLanguage_matches.
Qed.

(** X26.  Normalizing a language tag twice changes nothing: a tag that
    [normalizeLanguage] returns is accepted as it is. *)
Theorem normalizeLanguage_is_idempotent (rawLang : jsval) :
  normalizeLanguage (JStr (normalizeLanguage rawLang)) = normalizeLanguage rawLang.
Proof.
  pose proof (normalizeLanguage_matches rawLang) as Hre.
  destruct (LANG_RE_shape _ Hre) as (_ & Hsafe & c & rest & E & _).
  set (tag := normalizeLanguage rawLang) in *.
  unfold normalizeLanguage at 1. cbn zeta.
  assert (Htruthy : orElse (JStr tag) (JStr (lit "en")) = JStr tag).
  { unfold orElse. simpl. rewrite E. reflexivity. }
  rewrite Htruthy. cbn [toStr]. rewrite (trim_id tag Hsafe), Hre. reflexivity.
Qed.

End YoutubeFacts.
